(** * Regression task metrics of [bayesian_benchmarks/tasks/regression.py]

    A shallow embedding of [run]: the three input assertions, the
    point-prediction branch (two-dimensional predictions) and the
    ensemble branch (three-dimensional predictions, Gaussian mixture
    likelihood through [logsumexp]), followed by the properties the
    specification states about them and by further properties of the
    code, among them of [ConvertToNamespace], through which the tests
    build the arguments of [run].

    Numbers.  A NumPy float is modelled as an exact real or [NaN]
    ([npfloat]): rounding, overflow and the two infinities are abstracted
    away, [NaN] is kept because the program can produce it from finite
    inputs (a zero scale in [norm.logpdf], the mean of an empty array).

    Arrays.  An [ndarray] is a shape with an element function on
    multi-indices; element-wise operations follow NumPy's broadcasting
    rule and raise [ValueError] when the shapes are incompatible.

    Results.  [res] is a dictionary from strings to Python values; in the
    ensemble branch the two log-likelihood keys hold a list of arrays,
    then an array, then a float, as in the source.  Exceptions are an
    error monad.  Loading the data and fitting the model are outside of
    the embedding: [run] takes the data set and the model as arguments.
    [Database] is not part of these sources: the outcome of the write
    that [run] makes outside of test mode is a parameter. *)

From Stdlib Require Import Reals Lra Lia.
From stdpp Require Import gmap strings list fin_maps.

(** ** Floats *)

Inductive npfloat : Type :=
| Fin (r : R)
| NaN.

Definition is_fin (x : npfloat) : Prop :=
  match x with Fin _ => True | NaN => False end.

Definition lift1 (f : R -> R) (x : npfloat) : npfloat :=
  match x with Fin r => Fin (f r) | NaN => NaN end.

Definition lift2 (f : R -> R -> R) (x y : npfloat) : npfloat :=
  match x, y with Fin a, Fin b => Fin (f a b) | _, _ => NaN end.

Definition fadd : npfloat -> npfloat -> npfloat := lift2 Rplus.
Definition fsub : npfloat -> npfloat -> npfloat := lift2 Rminus.
Definition fmul : npfloat -> npfloat -> npfloat := lift2 Rmult.
Definition fabs : npfloat -> npfloat := lift1 Rabs.
Definition fexp : npfloat -> npfloat := lift1 exp.

(** [x ** 2] *)
Definition fsquare : npfloat -> npfloat := lift1 (fun r => (r * r)%R).

(** [x ** 0.5]: the square root, [nan] on a negative argument. *)
Definition fpow_half (x : npfloat) : npfloat :=
  match x with
  | Fin r => if Rlt_dec r 0 then NaN else Fin (sqrt r)
  | NaN => NaN
  end.

(** [np.log]: the program only takes logarithms of positive numbers (a
    sum of exponentials, a positive scale, the two clip constants, the
    number of samples once the loop has run); outside of them the model
    answers [NaN]. *)
Definition flog (x : npfloat) : npfloat :=
  match x with
  | Fin r => if Rlt_dec 0 r then Fin (ln r) else NaN
  | NaN => NaN
  end.

(** Division of a sum by an element count; [0 / 0] is [nan]. *)
Definition fdiv_nat (x : npfloat) (n : nat) : npfloat :=
  match x with
  | Fin r => if Nat.eqb n 0 then NaN else Fin (r / INR n)
  | NaN => NaN
  end.

(** [x >= 0.0]; a comparison with [nan] is false. *)
Definition fge0 (x : npfloat) : bool :=
  match x with
  | Fin r => if Rle_dec 0 r then true else false
  | NaN => false
  end.

Definition fsum (xs : list npfloat) : npfloat := fold_right fadd (Fin 0) xs.

(** [np.maximum] and [np.minimum] propagate [nan]. *)
Definition fmax : npfloat -> npfloat -> npfloat := lift2 Rmax.
Definition fmin : npfloat -> npfloat -> npfloat := lift2 Rmin.

(** [np.clip(x, lo, hi)] is [np.minimum(hi, np.maximum(x, lo))]. *)
Definition fclip (x lo hi : npfloat) : npfloat := fmin hi (fmax x lo).

(** [np.amax] over a non-empty sequence. *)
Fixpoint famax (x : npfloat) (xs : list npfloat) : npfloat :=
  match xs with
  | [] => x
  | y :: ys => fmax x (famax y ys)
  end.

(** ** [scipy.stats.norm.logpdf] on one element

    [rv_continuous.logpdf] standardises [(x - loc) / scale], fills the
    output with [badvalue = nan] where [scale > 0] fails or the argument
    is [nan], and elsewhere returns [_logpdf(x) - log(scale)] with
    [norm._logpdf(x) = -x**2 / 2.0 - _norm_pdf_logC]. *)

Definition norm_pdf_logC : R := ln (sqrt (2 * PI)).

Definition norm_logpdf1 (x loc scale : npfloat) : npfloat :=
  match x, loc, scale with
  | Fin x, Fin loc, Fin scale =>
      if Rlt_dec 0 scale
      then Fin (- (((x - loc) / scale) * ((x - loc) / scale)) / 2
                - norm_pdf_logC - ln scale)
      else NaN
  | _, _, _ => NaN
  end.

(** ** Exceptions *)

Inductive exn : Type :=
| AssertionError
| ValueError
| IndexError
| KeyError
| TypeError
| AttributeError.

Inductive result (A : Type) : Type :=
| Ok (a : A)
| Raise (e : exn).
Arguments Ok {A} a.
Arguments Raise {A} e.

#[global] Instance result_ret : MRet result := fun A a => Ok a.
#[global] Instance result_bind : MBind result := fun A B f m =>
  match m with Ok a => f a | Raise e => Raise e end.

Definition assert (b : bool) : result unit :=
  if b then Ok tt else Raise AssertionError.

(** [for x in xs: body] threading the state and stopping at the first
    exception. *)
Fixpoint for_each {A St : Type} (xs : list A) (body : A -> St -> result St)
    (st : St) : result St :=
  match xs with
  | [] => Ok st
  | x :: xs' => st' ← body x st; for_each xs' body st'
  end.

(** ** Arrays *)

Record ndarray : Type := mk_ndarray {
  shape : list nat;
  item : list nat -> npfloat
}.

Definition ndim (a : ndarray) : nat := length (shape a).

(** Number of elements of a shape. *)
Definition size_of (s : list nat) : nat := fold_right Nat.mul 1%nat s.

(** All multi-indices of a shape, in row-major order. *)
Fixpoint indices (s : list nat) : list (list nat) :=
  match s with
  | [] => [[]]
  | n :: s' => flat_map (fun i => map (cons i) (indices s')) (seq 0 n)
  end.

(** The elements of an array, in row-major order. *)
Definition elements (a : ndarray) : list npfloat :=
  map (item a) (indices (shape a)).

(** Broadcasting of one pair of dimensions. *)
Definition broadcast_dim (x y : nat) : option nat :=
  if Nat.eqb x y then Some x
  else if Nat.eqb x 1 then Some y
  else if Nat.eqb y 1 then Some x
  else None.

(** Broadcasting of two shapes given from their last dimension on. *)
Fixpoint broadcast_rev (a b : list nat) : option (list nat) :=
  match a, b with
  | [], _ => Some b
  | _, [] => Some a
  | x :: a', y :: b' =>
      match broadcast_dim x y, broadcast_rev a' b' with
      | Some d, Some r => Some (d :: r)
      | _, _ => None
      end
  end.

(** [np.broadcast_shapes]: trailing dimensions are aligned. *)
Definition broadcast_shapes (a b : list nat) : option (list nat) :=
  option_map (@rev nat) (broadcast_rev (rev a) (rev b)).

(** The index read in an array of shape [s] for the index [idx] of the
    broadcast result: leading dimensions the array lacks are dropped and
    a dimension of length one is read at 0. *)
Definition bidx (s idx : list nat) : list nat :=
  zip_with (fun (d i : nat) => if Nat.eqb d 1 then 0%nat else i) s
           (skipn (length idx - length s) idx).

Definition bget (a : ndarray) (idx : list nat) : npfloat :=
  item a (bidx (shape a) idx).

Definition nd_map (f : npfloat -> npfloat) (a : ndarray) : ndarray :=
  {| shape := shape a; item := fun idx => f (item a idx) |}.

(** A binary universal function. *)
Definition nd_map2 (f : npfloat -> npfloat -> npfloat) (a b : ndarray)
    : result ndarray :=
  match broadcast_shapes (shape a) (shape b) with
  | Some s => Ok {| shape := s; item := fun idx => f (bget a idx) (bget b idx) |}
  | None => Raise ValueError
  end.

(** [a[n]] for an integer [n]. *)
Definition index0 (a : ndarray) (n : nat) : result ndarray :=
  match shape a with
  | [] => Raise IndexError
  | k :: s =>
      if Nat.ltb n k
      then Ok {| shape := s; item := fun idx => item a (n :: idx) |}
      else Raise IndexError
  end.

(** [np.all(v >= 0.0)] *)
Definition all_ge0 (v : ndarray) : bool := forallb fge0 (elements v).

(** [np.average(a)] and [np.mean(a)]: the sum of all elements over their
    number. *)
Definition average (a : ndarray) : npfloat :=
  fdiv_nat (fsum (elements a)) (size_of (shape a)).

(** The elements along the first axis at the remaining index [idx]. *)
Definition column (a : ndarray) (k : nat) (idx : list nat) : list npfloat :=
  map (fun s => item a (s :: idx)) (seq 0 k).

(** [np.mean(a, axis=0)] *)
Definition mean_axis0 (a : ndarray) : result ndarray :=
  match shape a with
  | [] => Raise ValueError
  | k :: s =>
      Ok {| shape := s; item := fun idx => fdiv_nat (fsum (column a k idx)) k |}
  end.

(** [np.clip(a, lo, hi)] with scalar bounds. *)
Definition nd_clip (a : ndarray) (lo hi : npfloat) : ndarray :=
  nd_map (fun x => fclip x lo hi) a.

(** [norm.logpdf(x, loc=loc, scale=scale)]: the three arguments are
    broadcast against each other. *)
Definition norm_logpdf (x loc scale : ndarray) : result ndarray :=
  match broadcast_shapes (shape x) (shape loc) with
  | Some s1 =>
      match broadcast_shapes s1 (shape scale) with
      | Some s =>
          Ok {| shape := s;
                item := fun idx =>
                  norm_logpdf1 (bget x idx) (bget loc idx) (bget scale idx) |}
      | None => Raise ValueError
      end
  | None => Raise ValueError
  end.

(** [np.asarray] of a Python list of arrays: the arrays are stacked along
    a new first axis and must have one shape. *)
Definition asarray (ls : list ndarray) : result ndarray :=
  match ls with
  | [] => Ok {| shape := [0%nat]; item := fun _ => NaN |}
  | a :: _ =>
      if forallb (fun b => bool_decide (shape b = shape a)) ls
      then Ok {| shape := length ls :: shape a;
                 item := fun idx =>
                   match idx with
                   | [] => NaN
                   | s :: idx' => item (nth s ls a) idx'
                   end |}
      else Raise ValueError
  end.

Definition isfinite (x : npfloat) : bool :=
  match x with Fin _ => true | NaN => false end.

(** [np.amax] of the elements along an axis. *)
Definition amax (xs : list npfloat) : npfloat :=
  match xs with
  | [] => NaN
  | x :: xs' => famax x xs'
  end.

(** The reduction of [scipy.special.logsumexp] on the elements along the
    axis: [a_max = np.amax(a)], replaced by 0 where it is not finite,
    then [np.log(np.sum(np.exp(a - a_max))) + a_max]. *)
Definition logsumexp1 (xs : list npfloat) : npfloat :=
  let a_max := amax xs in
  let a_max := if isfinite a_max then a_max else Fin 0 in
  fadd (flog (fsum (map (fun x => fexp (fsub x a_max)) xs))) a_max.

(** [logsumexp(a, axis=0)]; [np.amax] raises [ValueError] when the axis
    is empty. *)
Definition logsumexp_axis0 (a : ndarray) : result ndarray :=
  match shape a with
  | [] => Raise ValueError
  | k :: s =>
      if Nat.eqb k 0 then Raise ValueError
      else Ok {| shape := s; item := fun idx => logsumexp1 (column a k idx) |}
  end.

(** ** The result dictionary *)

Inductive pyval : Type :=
| PyFloat (x : npfloat)
| PyArr (a : ndarray)
| PyList (l : list ndarray)
| PyStr (s : string)
| PyInt (z : Z).

(** [res[key]] where a list is expected. *)
Definition get_list (key : string) (res : gmap string pyval)
    : result (list ndarray) :=
  match res !! key with
  | Some (PyList l) => Ok l
  | Some _ => Raise TypeError
  | None => Raise KeyError
  end.

(** [res[key].append(a)] *)
Definition append_to (key : string) (a : ndarray) (res : gmap string pyval)
    : result (gmap string pyval) :=
  l ← get_list key res;
  Ok (<[key := PyList (l ++ [a])]> res).

(** ** The metrics of [run] *)

Definition log_eps : npfloat := flog (Fin 1e-12).
Definition log_1_minus_eps : npfloat := flog (Fin (1.0 - 1e-12)).

(** The body of the loop over the samples (source lines 67 to 73). *)
Definition sample_step (m v Y_test Y_std : ndarray) (n : nat)
    (res : gmap string pyval) : result (gmap string pyval) :=
  mn ← index0 m n;
  vn ← index0 v n;
  l ← norm_logpdf Y_test mn (nd_map fpow_half vn);
  let l := nd_clip l log_eps log_1_minus_eps in
  res ← append_to "test_loglik" l res;
  yu ← nd_map2 fmul Y_test Y_std;
  mn ← index0 m n;
  mu ← nd_map2 fmul mn Y_std;
  vn ← index0 v n;
  su ← nd_map2 fmul (nd_map fpow_half vn) Y_std;
  lu ← norm_logpdf yu mu su;
  let lu := nd_clip lu log_eps log_1_minus_eps in
  append_to "test_loglik_unnormalized" lu res.

(** The Gaussian mixture predictive likelihood (source lines 76-77 and
    80-81): [logsumexp(res[key], axis=0) - np.log(m.shape[0])], then
    [np.mean]. *)
Definition mixture_loglik (key : string) (k : nat) (res : gmap string pyval)
    : result (gmap string pyval) :=
  ls ← get_list key res;
  a ← asarray ls;
  lse ← logsumexp_axis0 a;
  let log_k := flog (Fin (INR k)) in
  let res := <[key := PyArr (nd_map (fun x => fsub x log_k) lse)]> res in
  match res !! key with
  | Some (PyArr a) => Ok (<[key := PyFloat (average a)]> res)
  | Some _ => Raise TypeError
  | None => Raise KeyError
  end.

(** The error metrics shared by both branches (source lines 52-59 and
    84-90), from the residual [d]. *)
Definition error_metrics (d Y_std : ndarray) (res : gmap string pyval)
    : result (gmap string pyval) :=
  du ← nd_map2 fmul d Y_std;
  let res := <["test_mae" := PyFloat (average (nd_map fabs d))]> res in
  let res := <["test_mae_unnormalized" := PyFloat (average (nd_map fabs du))]> res in
  let res := <["test_rmse" := PyFloat (fpow_half (average (nd_map fsquare d)))]> res in
  let res :=
    <["test_rmse_unnormalized" := PyFloat (fpow_half (average (nd_map fsquare du)))]> res in
  Ok res.

(** Source lines 34 to 90 of [run]: the assertions on the prediction
    [(m, v)] and the six metrics. *)
Definition evaluate (m v Y_test Y_std : ndarray) : result (gmap string pyval) :=
  _ ← assert (Nat.eqb (ndim m) (ndim v));
  _ ← assert (bool_decide (ndim m ∈ [2%nat; 3%nat]));
  _ ← assert (all_ge0 v);
  let res : gmap string pyval := ∅ in
  if Nat.eqb (ndim m) 2 then
    l ← norm_logpdf Y_test m (nd_map fpow_half v);
    let l := nd_clip l log_eps log_1_minus_eps in
    let res := <["test_loglik" := PyFloat (average l)]> res in
    yu ← nd_map2 fmul Y_test Y_std;
    mu ← nd_map2 fmul m Y_std;
    su ← nd_map2 fmul (nd_map fpow_half v) Y_std;
    lu ← norm_logpdf yu mu su;
    let lu := nd_clip lu log_eps log_1_minus_eps in
    let res := <["test_loglik_unnormalized" := PyFloat (average lu)]> res in
    d ← nd_map2 fsub Y_test m;
    error_metrics d Y_std res
  else
    let res := <["test_loglik" := PyList []]> res in
    let res := <["test_loglik_unnormalized" := PyList []]> res in
    let k := hd 0%nat (shape m) in
    res ← for_each (seq 0 k) (sample_step m v Y_test Y_std) res;
    res ← mixture_loglik "test_loglik" k res;
    res ← mixture_loglik "test_loglik_unnormalized" k res;
    mbar ← mean_axis0 m;
    d ← nd_map2 fsub Y_test mbar;
    error_metrics d Y_std res.

(** The data set and the model as [run] uses them. *)
Record Data : Type := {
  X_train : ndarray;
  Y_train : ndarray;
  X_test : ndarray;
  Y_test : ndarray;
  Y_std : ndarray
}.

Record Model : Type := {
  fitted : Type;
  fit : ndarray -> ndarray -> fitted;
  predict : fitted -> ndarray -> ndarray * ndarray
}.

(** What [run] needs of [Database], whose code is not part of these
    sources: the outcome of
    [with Database(path) as db: db.write(table, row)], which completes or
    raises.  [run] makes this call at most once. *)
Definition Database : Type := pyval -> string -> gmap string pyval -> result unit.

(** [ARGS.name], where [ARGS] stands for [ARGS.__dict__]: an attribute
    that is not set raises [AttributeError]. *)
Definition getattr (ARGS : gmap string pyval) (name : string) : result pyval :=
  match ARGS !! name with
  | Some x => Ok x
  | None => Raise AttributeError
  end.

(** [run(ARGS, data, model, is_test)] with [data] and [model] given;
    [ARGS] stands for [ARGS.__dict__].  Outside of test mode the result
    is updated with the arguments (source lines 92 and 93) and written to
    the table [regression] of [Database(ARGS.database_path)] (lines 95 to
    97) before it is returned. *)
Definition run (database : Database) (ARGS : gmap string pyval) (data : Data)
    (model : Model) (is_test : bool) : result (gmap string pyval) :=
  let '(m, v) := predict model (fit model (X_train data) (Y_train data))
                         (X_test data) in
  res ← evaluate m v (Y_test data) (Y_std data);
  if is_test then Ok res
  else
    let res := ARGS ∪ res in
    path ← getattr ARGS "database_path";
    _ ← database path "regression" res;
    Ok res.

(** ** Array literals *)

(** [np.array(x)] of a number. *)
Definition scalar (x : R) : ndarray := {| shape := []; item := fun _ => Fin x |}.

(** [np.array(rows)] of a list of rows of one length. *)
Definition array2 (rows : list (list R)) : ndarray :=
  {| shape := [length rows; length (hd [] rows)];
     item := fun idx =>
       match idx with
       | [i; j] => Fin (nth j (nth i rows []) 0%R)
       | _ => NaN
       end |}.

(** [np.array(blocks)] of a list of such lists of rows. *)
Definition array3 (blocks : list (list (list R))) : ndarray :=
  {| shape := [length blocks; length (hd [] blocks); length (hd [] (hd [] blocks))];
     item := fun idx =>
       match idx with
       | [s; i; j] => Fin (nth j (nth i (nth s blocks []) []) 0%R)
       | _ => NaN
       end |}.

(** ** The mocks of the tests *)

Local Open Scope R_scope.

(** The arrays that [RegressionMock] and [ApproximateRegressionMock]
    of the tests build as mean and variance. *)
Definition mock_mu : ndarray := array2 [[1; 2; 3]; [4; 5; 6]].
Definition mock_var : ndarray := array2 [[0.1; 0.2; 0.3]; [0.4; 0.5; 0.6]].
Definition mock_mu_samples : ndarray :=
  array3 [[[1; 2; 3]; [4; 5; 6]]; [[1.5; 2.5; 3.5]; [4.5; 5.5; 6.5]]].
Definition mock_var_samples : ndarray :=
  array3 [[[0.1; 0.2; 0.3]; [0.4; 0.5; 0.6]]; [[0.1; 0.2; 0.3]; [0.4; 0.5; 0.6]]].

(** Targets for the two test points and three outputs of these arrays,
    with [Y_std = 1.0], the value [RegressionDataMock] gives it. *)
Definition example_targets : ndarray := array2 [[1; 2; 4]; [4; 6; 6]].

Definition example_data : Data :=
  {| X_train := scalar 0; Y_train := scalar 0; X_test := scalar 0;
     Y_test := example_targets; Y_std := scalar 1 |}.

(** One sample, and two equal samples, of the mock prediction. *)
Definition one_sample_mu : ndarray := array3 [[[1; 2; 3]; [4; 5; 6]]].
Definition one_sample_var : ndarray := array3 [[[0.1; 0.2; 0.3]; [0.4; 0.5; 0.6]]].
Definition twin_mu : ndarray :=
  array3 [[[1; 2; 3]; [4; 5; 6]]; [[1; 2; 3]; [4; 5; 6]]].
Definition twin_var : ndarray :=
  array3 [[[0.1; 0.2; 0.3]; [0.4; 0.5; 0.6]]; [[0.1; 0.2; 0.3]; [0.4; 0.5; 0.6]]].
Local Close Scope R_scope.

(** [ConvertToNamespace(adict)] of the tests: [adict.update({'seed': 0,
    'split': 0})], then [self.__dict__.update(adict)].  The first component
    is the caller's dictionary after the call, which the constructor has
    changed; the second is the [__dict__] of the new object. *)
Definition ConvertToNamespace (adict : gmap string pyval)
    : gmap string pyval * gmap string pyval :=
  let adict := (<["seed" := PyInt 0]> (<["split" := PyInt 0]> ∅)) ∪ adict in
  (adict, adict ∪ ∅).

(** The dictionary [test_regression] builds for the model [linear], and
    the same with a [database_path]. *)
Definition boston_arguments : gmap string pyval :=
  <["dataset" := PyStr "boston"]> (<["model" := PyStr "linear"]> ∅).

Definition stored_arguments : gmap string pyval :=
  <["database_path" := PyStr "results.db"]> boston_arguments.

(** * Vocabulary of the properties *)

(** The two clip bounds as reals. *)
Definition lo : R := ln 1e-12.
Definition hi : R := ln (1.0 - 1e-12).

Definition rsum (rs : list R) : R := fold_right Rplus 0%R rs.

(** The log-density of one target under one Gaussian, on the normalized
    scale (source lines 44 and 67) and on the original one (lines 48 and
    71), before clipping. *)
Definition logpdf_elem (y mu var : npfloat) : npfloat :=
  norm_logpdf1 y mu (fpow_half var).

Definition logpdf_u_elem (y mu var s : npfloat) : npfloat :=
  norm_logpdf1 (fmul y s) (fmul mu s) (fmul (fpow_half var) s).

Definition clip_elem (x : npfloat) : npfloat := fclip x log_eps log_1_minus_eps.

Definition clipped_logpdf (y mu var : npfloat) : npfloat :=
  clip_elem (logpdf_elem y mu var).

Definition clipped_logpdf_u (y mu var s : npfloat) : npfloat :=
  clip_elem (logpdf_u_elem y mu var s).

(** The arithmetic mean of [f] over all indices of a shape. *)
Definition mean_over (s : list nat) (f : list nat -> npfloat) : npfloat :=
  fdiv_nat (fsum (map f (indices s))) (size_of s).

(** The arithmetic mean over all [N x D] elements, written as the double
    sum over rows and columns. *)
Definition mean_ND (N D : nat) (f : nat -> nat -> npfloat) : npfloat :=
  fdiv_nat (fsum (flat_map (fun i => map (f i) (seq 0 D)) (seq 0 N))) (N * D).

(** The textbook log-sum-exp, [log(sum(exp(x)))]. *)
Definition lse (xs : list npfloat) : npfloat := flog (fsum (map fexp xs)).

(** Log-sum-exp over the components minus the logarithm of their number. *)
Definition lse_minus_log (xs : list npfloat) : npfloat :=
  fsub (lse xs) (flog (Fin (INR (length xs)))).

(** The log-density of the equal-weight mixture of the components whose
    log-densities are [xs]: [log((1/S) * sum_s p_s)]. *)
Definition mixture_logdensity (xs : list npfloat) : npfloat :=
  flog (fdiv_nat (fsum (map fexp xs)) (length xs)).

(** The dictionary [run] returns in test mode. *)
Definition metrics_dict (ll llu mae maeu rmse rmseu : npfloat) : gmap string pyval :=
  <["test_rmse_unnormalized" := PyFloat rmseu]>
  (<["test_rmse" := PyFloat rmse]>
  (<["test_mae_unnormalized" := PyFloat maeu]>
  (<["test_mae" := PyFloat mae]>
  (<["test_loglik_unnormalized" := PyFloat llu]>
  (<["test_loglik" := PyFloat ll]> ∅))))).

(** The dictionary during the loop over the samples. *)
Definition acc_dict (ls lus : list ndarray) : gmap string pyval :=
  <["test_loglik_unnormalized" := PyList lus]> (<["test_loglik" := PyList ls]> ∅).

(** Sample [n] of an array whose samples have shape [s]. *)
Definition slice (s : list nat) (a : ndarray) (n : nat) : ndarray :=
  {| shape := s; item := fun idx => item a (n :: idx) |}.

(** The three assertions of [run] on the prediction. *)
Definition input_checks (m v : ndarray) : bool :=
  Nat.eqb (ndim m) (ndim v) && bool_decide (ndim m ∈ [2%nat; 3%nat]) && all_ge0 v.

Definition no_assertion {A : Type} (r : result A) : Prop :=
  r <> Raise AssertionError.

(** A float stored under a key of the result. *)
Definition metric (key : string) (res : gmap string pyval) : option npfloat :=
  match res !! key with Some (PyFloat x) => Some x | _ => None end.

Definition metric_keys : gset string :=
  {[ "test_loglik"; "test_loglik_unnormalized"; "test_mae";
     "test_mae_unnormalized"; "test_rmse"; "test_rmse_unnormalized" ]}.

(** A point prediction for [N] test points with [D] outputs that passes
    the assertions. *)
Record valid_point (N D : nat) (m v Y : ndarray) : Prop := {
  vp_mean : shape m = [N; D];
  vp_variance : shape v = [N; D];
  vp_target : shape Y = [N; D];
  vp_nonneg : all_ge0 v = true
}.

(** An ensemble prediction of [K] samples that passes the assertions. *)
Record valid_ensemble (K N D : nat) (m v Y : ndarray) : Prop := {
  ve_samples : (0 < K)%nat;
  ve_mean : shape m = [K; N; D];
  ve_variance : shape v = [K; N; D];
  ve_target : shape Y = [N; D];
  ve_nonneg : all_ge0 v = true
}.

(** [Y_std] is a scalar, a vector per output dimension, or any array that
    broadcasts against the targets without changing their shape. *)
Definition std_broadcasts (N D : nat) (Ystd : ndarray) : Prop :=
  broadcast_shapes [N; D] (shape Ystd) = Some [N; D].

(** The clipped log-densities of the test element [(i, j)] under the [K]
    components. *)
Definition component_logliks (m v Y : ndarray) (K i j : nat) : list npfloat :=
  map (fun s => clipped_logpdf (item Y [i; j]) (item m [s; i; j]) (item v [s; i; j]))
      (seq 0 K).

Definition component_logliks_u (m v Y Ystd : ndarray) (K i j : nat) : list npfloat :=
  map (fun s => clipped_logpdf_u (item Y [i; j]) (item m [s; i; j]) (item v [s; i; j])
                                 (bget Ystd [i; j]))
      (seq 0 K).

(** All samples of a three-dimensional array agree with sample 0. *)
Definition identical_samples (K N D : nat) (a : ndarray) : Prop :=
  forall s idx, (s < K)%nat -> Forall2 lt idx [N; D] ->
    item a (s :: idx) = item a (0%nat :: idx).

(** The two kinds of prediction [run] distinguishes by the number of
    dimensions: a point prediction [N x D], or [K] samples [K x N x D]. *)
Inductive prediction_kind : Type :=
| Point
| Ensemble (K : nat).

Definition valid_input (k : prediction_kind) (N D : nat) (m v Y : ndarray) : Prop :=
  match k with
  | Point => valid_point N D m v Y
  | Ensemble K => valid_ensemble K N D m v Y
  end.

Definition sample_count (k : prediction_kind) : nat :=
  match k with Point => 1%nat | Ensemble K => K end.

(** The indices of the prediction that concern the test element [idx]. *)
Definition samples (k : prediction_kind) (idx : list nat) : list (list nat) :=
  match k with
  | Point => [idx]
  | Ensemble K => map (fun s => s :: idx) (seq 0 K)
  end.

(** The unclipped log-densities of the test element [idx], one per
    sample. *)
Definition densities (k : prediction_kind) (m v Y : ndarray) (idx : list nat)
    : list npfloat :=
  map (fun p => logpdf_elem (item Y idx) (item m p) (item v p)) (samples k idx).

Definition densities_u (k : prediction_kind) (m v Y Ystd : ndarray) (idx : list nat)
    : list npfloat :=
  map (fun p => logpdf_u_elem (item Y idx) (item m p) (item v p) (bget Ystd idx))
      (samples k idx).

(** What is made of the clipped log-densities of one test element: the
    value itself for a point prediction, [logsumexp - log K] for an
    ensemble. *)
Definition reduce_loglik (k : prediction_kind) (xs : list npfloat) : npfloat :=
  match k with
  | Point => hd NaN xs
  | Ensemble K => fsub (logsumexp1 xs) (flog (Fin (INR K)))
  end.

(** The predicted mean the residual is taken from. *)
Definition predictive_mean (k : prediction_kind) (m : ndarray) (idx : list nat)
    : npfloat :=
  match k with
  | Point => item m idx
  | Ensemble K => fdiv_nat (fsum (column m K idx)) K
  end.

Definition residual (k : prediction_kind) (m Y : ndarray) (idx : list nat) : npfloat :=
  fsub (item Y idx) (predictive_mean k m idx).

Definition in_clip_range (x : npfloat) : Prop :=
  exists r, x = Fin r /\ (ln 1e-12 <= r <= ln (1.0 - 1e-12))%R.

Definition clipped_or_nan (x : npfloat) : Prop := x = NaN \/ in_clip_range x.

Definition finite_array (a : ndarray) : Prop :=
  forall idx, Forall2 lt idx (shape a) -> is_fin (item a idx).

Definition positive_array (a : ndarray) : Prop :=
  forall idx, Forall2 lt idx (shape a) -> exists r, item a idx = Fin r /\ (0 < r)%R.

Definition positive_std (N D : nat) (Ystd : ndarray) : Prop :=
  forall idx, Forall2 lt idx [N; D] -> exists s, bget Ystd idx = Fin s /\ (0 < s)%R.

(** [a[perm]] for a list [perm] of indices along the first axis. *)
Definition take_samples (perm : list nat) (a : ndarray) : result ndarray :=
  match shape a with
  | [] => Raise IndexError
  | k :: s =>
      if forallb (fun i => Nat.ltb i k) perm
      then Ok {| shape := length perm :: s;
                 item := fun idx =>
                   match idx with
                   | [] => NaN
                   | i :: r => item a (nth i perm 0%nat :: r)
                   end |}
      else Raise IndexError
  end.

(** [a[:K]]: the first [K] samples of an array. *)
Definition first_samples (K : nat) (a : ndarray) : ndarray :=
  {| shape := match shape a with
              | [] => []
              | k :: s => Nat.min K k :: s
              end;
     item := item a |}.

(** The real number a float stands for. *)
Definition to_real (x : npfloat) : R :=
  match x with Fin r => r | NaN => 0%R end.

(** The clipped log-density of the test element [idx] under sample [s]
    (source lines 67 and 68), and the value the ensemble branch averages
    for that element (lines 76 and 77). *)
Definition member_loglik (m v Y : ndarray) (s : nat) (idx : list nat) : npfloat :=
  clipped_logpdf (item Y idx) (item m (s :: idx)) (item v (s :: idx)).

Definition mixture_value (K : nat) (m v Y : ndarray) (idx : list nat) : npfloat :=
  reduce_loglik (Ensemble K) (map clip_elem (densities (Ensemble K) m v Y idx)).

(** An array all of whose elements are [nan]. *)
Definition nan_array (s : list nat) : ndarray := {| shape := s; item := fun _ => NaN |}.

(** [np.empty((0, D))]: an array without rows. *)
Definition empty_rows (D : nat) : ndarray := {| shape := [0%nat; D]; item := fun _ => NaN |}.

(** A model whose prediction is fixed, whatever it is fitted on. *)
Definition fixed_prediction (mu var : ndarray) : Model :=
  {| fitted := unit; fit := fun _ _ => tt; predict := fun _ _ => (mu, var) |}.

(** A database every write to which completes. *)
Definition accepting_database : Database := fun _ _ _ => Ok tt.

(** * Proofs *)

Arguments flog : simpl never.
Arguments fclip : simpl never.
Arguments norm_logpdf1 : simpl never.
Arguments fpow_half : simpl never.
Arguments fdiv_nat : simpl never.
Arguments fsum : simpl never.

(** ** Indices and broadcasting *)

Lemma bind_Ok {A B} (a : A) (f : A -> result B) : (Ok a ≫= f) = f a.
Proof. reflexivity. Qed.

Lemma in_indices (s idx : list nat) :
  In idx (indices s) <-> Forall2 lt idx s.
Proof.
  revert idx. induction s as [|n s IH]; intros idx; simpl.
  - split.
    + intros [<-|[]]. constructor.
    + intros H. inversion H. now left.
  - rewrite in_flat_map. split.
    + intros (i & Hi & Hin). apply in_map_iff in Hin as (idx' & <- & Hin').
      apply in_seq in Hi. constructor; [lia | now apply IH].
    + intros H. inversion H as [|i n' idx' s' Hlt Hrest]; subst.
      exists i. split; [apply in_seq; lia|].
      apply in_map_iff. exists idx'. split; [reflexivity | now apply IH].
Qed.

Lemma length_indices (s : list nat) : length (indices s) = size_of s.
Proof.
  induction s as [|n s IH]; simpl; [reflexivity|].
  rewrite (flat_map_constant_length (c := size_of s)).
  - now rewrite length_seq.
  - intros x _. now rewrite length_map.
Qed.

Lemma bidx_same (s idx : list nat) : Forall2 lt idx s -> bidx s idx = idx.
Proof.
  intros H. unfold bidx.
  rewrite (Forall2_length _ _ _ H), Nat.sub_diag.
  change (skipn 0 idx) with idx.
  induction H as [|i n idx s Hlt H IH]; simpl; [reflexivity|].
  rewrite IH. destruct (Nat.eqb_spec n 1); [f_equal; lia | reflexivity].
Qed.

Lemma broadcast_dim_same (x : nat) : broadcast_dim x x = Some x.
Proof. unfold broadcast_dim. now rewrite Nat.eqb_refl. Qed.

Lemma broadcast_rev_same (s : list nat) : broadcast_rev s s = Some s.
Proof.
  induction s as [|x s IH]; simpl; [reflexivity|].
  now rewrite broadcast_dim_same, IH.
Qed.

Lemma broadcast_shapes_same (s : list nat) : broadcast_shapes s s = Some s.
Proof.
  unfold broadcast_shapes. rewrite broadcast_rev_same. simpl.
  now rewrite rev_involutive.
Qed.

Lemma broadcast_shapes_nil_r (s : list nat) : broadcast_shapes s [] = Some s.
Proof.
  unfold broadcast_shapes. simpl.
  assert (E : broadcast_rev (rev s) [] = Some (rev s)) by (destruct (rev s); reflexivity).
  rewrite E. simpl. now rewrite rev_involutive.
Qed.

Example broadcast_vector : broadcast_shapes [2; 3] [3] = Some [2; 3].
Proof. reflexivity. Qed.

Example broadcast_column : broadcast_shapes [2; 1] [1; 3] = Some [2; 3].
Proof. reflexivity. Qed.

Example broadcast_incompatible : broadcast_shapes [2; 3] [2] = None.
Proof. reflexivity. Qed.

Example bidx_vector : bidx [3] [1; 2] = [2].
Proof. reflexivity. Qed.

Example bidx_row : bidx [1; 3] [1; 2] = [0; 2].
Proof. reflexivity. Qed.

(** ** The point branch *)

Lemma mean_over_ext s f g :
  (forall idx, Forall2 lt idx s -> f idx = g idx) -> mean_over s f = mean_over s g.
Proof.
  intros H. unfold mean_over. f_equal. f_equal.
  apply map_ext_in. intros idx Hin. apply H. now apply in_indices.
Qed.

Lemma average_mean_over (a : ndarray) : average a = mean_over (shape a) (item a).
Proof. reflexivity. Qed.

Lemma metrics_dict_congr a1 a2 a3 a4 a5 a6 b1 b2 b3 b4 b5 b6 :
  a1 = b1 -> a2 = b2 -> a3 = b3 -> a4 = b4 -> a5 = b5 -> a6 = b6 ->
  metrics_dict a1 a2 a3 a4 a5 a6 = metrics_dict b1 b2 b3 b4 b5 b6.
Proof. now intros -> -> -> -> -> ->. Qed.

Section Point.
Variables (m v Y Ystd : ndarray) (N D : nat).
Hypothesis Hm : shape m = [N; D].
Hypothesis Hv : shape v = [N; D].
Hypothesis HY : shape Y = [N; D].
Hypothesis Hs : broadcast_shapes [N; D] (shape Ystd) = Some [N; D].
Hypothesis Hge : all_ge0 v = true.

Let resid idx := fsub (item Y idx) (item m idx).

Lemma evaluate_point :
  evaluate m v Y Ystd = Ok (metrics_dict
    (mean_over [N; D] (fun idx => clipped_logpdf (item Y idx) (item m idx) (item v idx)))
    (mean_over [N; D] (fun idx =>
       clipped_logpdf_u (item Y idx) (item m idx) (item v idx) (bget Ystd idx)))
    (mean_over [N; D] (fun idx => fabs (resid idx)))
    (mean_over [N; D] (fun idx => fabs (fmul (resid idx) (bget Ystd idx))))
    (fpow_half (mean_over [N; D] (fun idx => fsquare (resid idx))))
    (fpow_half (mean_over [N; D] (fun idx =>
       fsquare (fmul (resid idx) (bget Ystd idx)))))).
Proof.
  unfold evaluate, ndim. rewrite Hm, Hv, Hge. simpl.
  unfold norm_logpdf, nd_map2, error_metrics, nd_map2. simpl.
  rewrite HY, Hm, Hv, !broadcast_shapes_same, Hs. simpl.
  rewrite !broadcast_shapes_same. simpl. rewrite Hs. simpl.
  rewrite !average_mean_over. simpl. f_equal.
  apply metrics_dict_congr; try apply (f_equal fpow_half);
    apply mean_over_ext; intros idx Hidx; unfold bget;
    rewrite ?HY, ?Hm, ?Hv, ?(bidx_same _ _ Hidx); reflexivity.
Qed.
End Point.

(** ** The ensemble branch *)

Lemma map_nth_seq {A} (l : list A) (d : A) :
  map (fun i => nth i l d) (seq 0 (length l)) = l.
Proof.
  induction l as [|x l IH]; simpl; [reflexivity|].
  f_equal. rewrite <- seq_shift, map_map. exact IH.
Qed.

Lemma index0_slice (a : ndarray) (k : nat) (s : list nat) (n : nat) :
  shape a = k :: s -> (n < k)%nat -> index0 a n = Ok (slice s a n).
Proof.
  intros Ha Hn. unfold index0. rewrite Ha.
  destruct (Nat.ltb_spec n k); [reflexivity | lia].
Qed.

Lemma asarray_cons (a : ndarray) (ls : list ndarray) :
  Forall (fun b => shape b = shape a) ls ->
  asarray (a :: ls) =
  Ok {| shape := length (a :: ls) :: shape a;
        item := fun idx => match idx with
                           | [] => NaN
                           | s :: idx' => item (nth s (a :: ls) a) idx'
                           end |}.
Proof.
  intros H. unfold asarray.
  assert (E : forallb (fun b => bool_decide (shape b = shape a)) (a :: ls) = true).
  { apply forallb_forall. intros b [<-|Hb]; apply bool_decide_eq_true; [reflexivity|].
    rewrite List.Forall_forall in H. now apply H. }
  now rewrite E.
Qed.

Lemma mixture_loglik_ok (key : string) (k : nat) (res : gmap string pyval)
    (a : ndarray) (ls : list ndarray) :
  res !! key = Some (PyList (a :: ls)) ->
  Forall (fun b => shape b = shape a) ls ->
  mixture_loglik key k res =
  Ok (<[key := PyFloat (mean_over (shape a) (fun idx =>
        fsub (logsumexp1 (map (fun b => item b idx) (a :: ls)))
             (flog (Fin (INR k)))))]> res).
Proof.
  intros Hres Hls. unfold mixture_loglik.
  assert (Hget : get_list key res = Ok (a :: ls)) by (unfold get_list; now rewrite Hres).
  rewrite Hget, bind_Ok, (asarray_cons a ls Hls), bind_Ok.
  unfold logsumexp_axis0. simpl.
  rewrite lookup_insert_eq, insert_insert_eq. do 3 f_equal.
  rewrite average_mean_over. simpl. apply mean_over_ext. intros idx _.
  do 2 f_equal. unfold column. simpl. f_equal.
  rewrite <- seq_shift, map_map. simpl.
  rewrite <- (map_nth_seq ls a) at 2. now rewrite map_map.
Qed.

Lemma mixture_loglik_list (key : string) (k : nat) (res : gmap string pyval)
    (ls : list ndarray) (s : list nat) :
  res !! key = Some (PyList ls) ->
  ls <> [] ->
  Forall (fun b => shape b = s) ls ->
  mixture_loglik key k res =
  Ok (<[key := PyFloat (mean_over s (fun idx =>
        fsub (logsumexp1 (map (fun b => item b idx) ls))
             (flog (Fin (INR k)))))]> res).
Proof.
  intros Hres Hne Hls. destruct ls as [|a ls]; [congruence|].
  apply Forall_cons in Hls as [Ha Hls]. subst s.
  now apply mixture_loglik_ok.
Qed.

Lemma acc_dict_step (ls lus : list ndarray) (l lu : ndarray) :
  <["test_loglik_unnormalized" := PyList (lus ++ [lu])]>
    (<["test_loglik" := PyList (ls ++ [l])]> (acc_dict ls lus)) =
  acc_dict (ls ++ [l]) (lus ++ [lu]).
Proof.
  unfold acc_dict. apply map_eq. intros k. rewrite !lookup_insert.
  repeat case_decide; congruence.
Qed.

Lemma acc_dict_loglik (ls lus : list ndarray) :
  acc_dict ls lus !! "test_loglik" = Some (PyList ls).
Proof. unfold acc_dict. rewrite lookup_insert_ne by done. apply lookup_insert_eq. Qed.

Lemma acc_dict_loglik_u (ls lus : list ndarray) (x : pyval) :
  <["test_loglik" := x]> (acc_dict ls lus) !! "test_loglik_unnormalized" =
  Some (PyList lus).
Proof. rewrite lookup_insert_ne by done. apply lookup_insert_eq. Qed.

Lemma ensemble_dict (x1 x2 : pyval) (ll llu mae maeu rmse rmseu : npfloat) :
  <["test_rmse_unnormalized" := PyFloat rmseu]>
  (<["test_rmse" := PyFloat rmse]>
  (<["test_mae_unnormalized" := PyFloat maeu]>
  (<["test_mae" := PyFloat mae]>
  (<["test_loglik_unnormalized" := PyFloat llu]>
  (<["test_loglik" := PyFloat ll]>
  (<["test_loglik_unnormalized" := x2]> (<["test_loglik" := x1]> ∅))))))) =
  metrics_dict ll llu mae maeu rmse rmseu.
Proof.
  unfold metrics_dict. do 4 apply (f_equal (insert _ _)).
  apply map_eq. intros k. rewrite !lookup_insert.
  repeat case_decide; congruence.
Qed.

Section Ensemble.
Variables (m v Y Ystd : ndarray) (K N D : nat).
Hypothesis Hm : shape m = [K; N; D].
Hypothesis Hv : shape v = [K; N; D].
Hypothesis HY : shape Y = [N; D].
Hypothesis Hs : broadcast_shapes [N; D] (shape Ystd) = Some [N; D].

Let raw_l (n : nat) : ndarray :=
  nd_clip {| shape := [N; D];
             item := fun idx =>
               norm_logpdf1 (bget Y idx) (bget (slice [N; D] m n) idx)
                 (bget (nd_map fpow_half (slice [N; D] v n)) idx) |}
          log_eps log_1_minus_eps.

Let times_std (a : ndarray) : ndarray :=
  {| shape := [N; D]; item := fun idx => fmul (bget a idx) (bget Ystd idx) |}.

Let raw_lu (n : nat) : ndarray :=
  nd_clip {| shape := [N; D];
             item := fun idx =>
               norm_logpdf1 (bget (times_std Y) idx)
                 (bget (times_std (slice [N; D] m n)) idx)
                 (bget (times_std (nd_map fpow_half (slice [N; D] v n))) idx) |}
          log_eps log_1_minus_eps.

Lemma sample_step_ok (n : nat) (ls lus : list ndarray) :
  (n < K)%nat ->
  sample_step m v Y Ystd n (acc_dict ls lus) =
  Ok (acc_dict (ls ++ [raw_l n]) (lus ++ [raw_lu n])).
Proof.
  intros Hn. unfold sample_step.
  rewrite !(index0_slice m K [N; D] n Hm Hn), !(index0_slice v K [N; D] n Hv Hn).
  rewrite !bind_Ok.
  unfold norm_logpdf, nd_map2. simpl.
  rewrite HY, !broadcast_shapes_same, Hs. simpl.
  rewrite !broadcast_shapes_same. simpl.
  unfold append_to, get_list.
  rewrite acc_dict_loglik, !bind_Ok, acc_dict_loglik_u, !bind_Ok.
  apply (f_equal Ok). exact (acc_dict_step ls lus (raw_l n) (raw_lu n)).
Qed.

Lemma sample_loop_ok (len start : nat) (ls lus : list ndarray) :
  (start + len <= K)%nat ->
  for_each (seq start len) (sample_step m v Y Ystd) (acc_dict ls lus) =
  Ok (acc_dict (ls ++ map raw_l (seq start len)) (lus ++ map raw_lu (seq start len))).
Proof.
  revert start ls lus. induction len as [|len IH]; intros start ls lus Hle.
  - simpl. now rewrite !app_nil_r.
  - simpl. rewrite sample_step_ok by lia. rewrite bind_Ok, IH by lia.
    now rewrite <- !app_assoc.
Qed.

Hypothesis Hge : all_ge0 v = true.
Hypothesis HS : (0 < K)%nat.

Let mbar idx := fdiv_nat (fsum (column m K idx)) K.
Let resid idx := fsub (item Y idx) (mbar idx).

Lemma evaluate_ensemble :
  evaluate m v Y Ystd = Ok (metrics_dict
    (mean_over [N; D] (fun idx =>
       fsub (logsumexp1 (map (fun s =>
               clipped_logpdf (item Y idx) (item m (s :: idx)) (item v (s :: idx)))
               (seq 0 K)))
            (flog (Fin (INR K)))))
    (mean_over [N; D] (fun idx =>
       fsub (logsumexp1 (map (fun s =>
               clipped_logpdf_u (item Y idx) (item m (s :: idx)) (item v (s :: idx))
                                (bget Ystd idx))
               (seq 0 K)))
            (flog (Fin (INR K)))))
    (mean_over [N; D] (fun idx => fabs (resid idx)))
    (mean_over [N; D] (fun idx => fabs (fmul (resid idx) (bget Ystd idx))))
    (fpow_half (mean_over [N; D] (fun idx => fsquare (resid idx))))
    (fpow_half (mean_over [N; D] (fun idx =>
       fsquare (fmul (resid idx) (bget Ystd idx)))))).
Proof.
  unfold evaluate, ndim. rewrite Hm, Hv, Hge. simpl.
  change (<["test_loglik_unnormalized":=PyList []]> (<["test_loglik":=PyList []]> ∅))
    with (acc_dict [] []).
  rewrite sample_loop_ok by lia. rewrite bind_Ok. simpl app.
  assert (Hne : forall f : nat -> ndarray, map f (seq 0 K) <> []).
  { intros f. destruct K; [lia | discriminate]. }
  rewrite (mixture_loglik_list _ _ _ (map raw_l (seq 0 K)) [N; D]);
    [ | apply acc_dict_loglik | apply Hne | apply Forall_map, Forall_forall; reflexivity ].
  rewrite bind_Ok.
  rewrite (mixture_loglik_list _ _ _ (map raw_lu (seq 0 K)) [N; D]);
    [ | apply acc_dict_loglik_u | apply Hne | apply Forall_map, Forall_forall; reflexivity ].
  rewrite bind_Ok.
  unfold mean_axis0. rewrite Hm, bind_Ok.
  unfold nd_map2, error_metrics, nd_map2. simpl.
  rewrite HY, !broadcast_shapes_same. simpl. rewrite Hs. simpl.
  rewrite !average_mean_over. simpl.
  apply (f_equal Ok). unfold acc_dict. rewrite ensemble_dict.
  apply metrics_dict_congr; try apply (f_equal fpow_half);
    apply mean_over_ext; intros idx Hidx; rewrite ?map_map;
    unfold bget, raw_l, raw_lu, resid, mbar; simpl;
    unfold bget; simpl; rewrite ?HY, ?(bidx_same _ _ Hidx); reflexivity.
Qed.
End Ensemble.

(** ** The assertions

    Nothing after the three assertions raises [AssertionError]. *)

Lemma no_assertion_Ok {A} (a : A) : no_assertion (Ok a).
Proof. discriminate. Qed.

Lemma no_assertion_bind {A B} (r : result A) (f : A -> result B) :
  no_assertion r -> (forall a, no_assertion (f a)) -> no_assertion (r ≫= f).
Proof.
  intros Hr Hf. destruct r as [a|e]; simpl; [apply Hf|].
  intros [= ->]. now apply Hr.
Qed.

Create HintDb no_assert.

Lemma no_assertion_nd_map2 f a b : no_assertion (nd_map2 f a b).
Proof. unfold nd_map2. destruct (broadcast_shapes _ _); discriminate. Qed.

Lemma no_assertion_norm_logpdf x loc scale : no_assertion (norm_logpdf x loc scale).
Proof.
  unfold norm_logpdf. destruct (broadcast_shapes _ _); [|discriminate].
  destruct (broadcast_shapes _ _); discriminate.
Qed.

Lemma no_assertion_index0 a n : no_assertion (index0 a n).
Proof.
  unfold index0. destruct (shape a); [discriminate|].
  destruct (Nat.ltb _ _); discriminate.
Qed.

Lemma no_assertion_get_list key res : no_assertion (get_list key res).
Proof.
  unfold get_list. destruct (res !! key) as [[]|]; discriminate.
Qed.

Lemma no_assertion_append_to key a res : no_assertion (append_to key a res).
Proof.
  unfold append_to. apply no_assertion_bind; [apply no_assertion_get_list|].
  intros; apply no_assertion_Ok.
Qed.

Lemma no_assertion_asarray ls : no_assertion (asarray ls).
Proof.
  unfold asarray. destruct ls; [discriminate|].
  destruct (forallb _ _); discriminate.
Qed.

Lemma no_assertion_logsumexp a : no_assertion (logsumexp_axis0 a).
Proof.
  unfold logsumexp_axis0. destruct (shape a); [discriminate|].
  destruct (Nat.eqb _ _); discriminate.
Qed.

Lemma no_assertion_mean_axis0 a : no_assertion (mean_axis0 a).
Proof. unfold mean_axis0. destruct (shape a); discriminate. Qed.

#[local] Hint Resolve no_assertion_Ok no_assertion_nd_map2 no_assertion_norm_logpdf
  no_assertion_index0 no_assertion_get_list no_assertion_append_to
  no_assertion_asarray no_assertion_logsumexp no_assertion_mean_axis0 : no_assert.

Ltac no_assert :=
  repeat (apply no_assertion_bind; [auto with no_assert | intros ?]);
  auto with no_assert.

Lemma no_assertion_mixture_loglik key k res : no_assertion (mixture_loglik key k res).
Proof.
  unfold mixture_loglik. no_assert.
  destruct (_ !! key) as [[]|]; discriminate.
Qed.

Lemma no_assertion_error_metrics d Ystd res : no_assertion (error_metrics d Ystd res).
Proof. unfold error_metrics. no_assert. Qed.

Lemma no_assertion_sample_step m v Y Ystd n res :
  no_assertion (sample_step m v Y Ystd n res).
Proof. unfold sample_step. no_assert. Qed.

Lemma no_assertion_for_each {A St} (xs : list A) (body : A -> St -> result St) st :
  (forall x s, no_assertion (body x s)) -> no_assertion (for_each xs body st).
Proof.
  intros H. revert st. induction xs as [|x xs IH]; intros st; simpl.
  - apply no_assertion_Ok.
  - apply no_assertion_bind; [apply H | apply IH].
Qed.

#[local] Hint Resolve no_assertion_mixture_loglik no_assertion_error_metrics
  no_assertion_sample_step : no_assert.

(** [run] raises [AssertionError] exactly when one of its three
    assertions fails. *)
Lemma evaluate_assertion (m v Y Ystd : ndarray) :
  evaluate m v Y Ystd = Raise AssertionError <-> input_checks m v = false.
Proof.
  unfold evaluate, input_checks.
  destruct (Nat.eqb (ndim m) (ndim v)); simpl; [|tauto].
  destruct (bool_decide (ndim m ∈ [2%nat; 3%nat])); simpl; [|tauto].
  destruct (all_ge0 v); simpl; [|tauto].
  split; [|discriminate]. intros H. exfalso. revert H.
  destruct (Nat.eqb (ndim m) 2).
  - no_assert.
  - fold (no_assertion (A := gmap string pyval)).
    apply no_assertion_bind.
    { apply no_assertion_for_each. intros; apply no_assertion_sample_step. }
    intros ?. no_assert.
Qed.

Local Open Scope R_scope.

(** ** Clipping, sums and log-sum-exp over the reals *)

Lemma log_eps_eq : log_eps = Fin lo.
Proof. unfold log_eps, flog. destruct (Rlt_dec 0 1e-12) as [_|H]; [reflexivity|]. exfalso; apply H; lra. Qed.

Lemma log_1_minus_eps_eq : log_1_minus_eps = Fin hi.
Proof.
  unfold log_1_minus_eps, flog.
  destruct (Rlt_dec 0 (1.0 - 1e-12)) as [_|H]; [reflexivity|]. exfalso; apply H; lra.
Qed.

Lemma lo_lt_hi : lo < hi.
Proof. unfold lo, hi. apply ln_increasing; lra. Qed.

Lemma fclip_fin (r : R) :
  fclip (Fin r) log_eps log_1_minus_eps = Fin (Rmin hi (Rmax r lo)).
Proof. now rewrite log_eps_eq, log_1_minus_eps_eq. Qed.

Lemma clip_range (r : R) : lo <= Rmin hi (Rmax r lo) <= hi.
Proof.
  pose proof lo_lt_hi. unfold Rmin, Rmax.
  repeat destruct (Rle_dec _ _); lra.
Qed.

Lemma clip_id (r : R) : lo <= r <= hi -> Rmin hi (Rmax r lo) = r.
Proof.
  intros [H1 H2]. unfold Rmin, Rmax.
  repeat destruct (Rle_dec _ _); lra.
Qed.

Lemma fin_or_nan (xs : list npfloat) :
  (exists rs, xs = map Fin rs) \/ In NaN xs.
Proof.
  induction xs as [|x xs [[rs ->]|Hnan]].
  - left. now exists [].
  - destruct x as [r|]; [left; now exists (r :: rs) | right; now left].
  - right. now right.
Qed.

Lemma fsum_cons (x : npfloat) (xs : list npfloat) : fsum (x :: xs) = fadd x (fsum xs).
Proof. reflexivity. Qed.

Lemma fsum_fin (rs : list R) : fsum (map Fin rs) = Fin (rsum rs).
Proof.
  induction rs as [|r rs IH]; [reflexivity|].
  simpl map. now rewrite fsum_cons, IH.
Qed.

Lemma fadd_nan_r (x : npfloat) : fadd x NaN = NaN.
Proof. now destruct x. Qed.

Lemma fsum_nan (xs : list npfloat) : In NaN xs -> fsum xs = NaN.
Proof.
  induction xs as [|x xs IH]; [intros []|].
  intros [->|H]; [reflexivity|]. now rewrite fsum_cons, IH, fadd_nan_r.
Qed.

Lemma famax_fin (r : R) (rs : list R) :
  exists M, famax (Fin r) (map Fin rs) = Fin M.
Proof.
  revert r. induction rs as [|r' rs IH]; intros r; simpl; [now exists r|].
  destruct (IH r') as [M ->]. now exists (Rmax r M).
Qed.

Lemma rsum_exp_pos (rs : list R) : rs <> [] -> 0 < rsum (map exp rs).
Proof.
  induction rs as [|r rs IH]; [congruence|]. intros _. simpl.
  pose proof (exp_pos r). destruct rs as [|r' rs']; [simpl; lra|].
  assert (0 < rsum (map exp (r' :: rs'))) by (apply IH; congruence). lra.
Qed.

Lemma rsum_exp_shift (M : R) (rs : list R) :
  rsum (map (fun x => exp (x - M)) rs) = rsum (map exp rs) * exp (- M).
Proof.
  induction rs as [|r rs IH]; simpl; [ring|].
  rewrite IH. unfold Rminus. rewrite exp_plus. ring.
Qed.

Lemma flog_fin (r : R) : 0 < r -> flog (Fin r) = Fin (ln r).
Proof. intros H. unfold flog. destruct (Rlt_dec 0 r); [reflexivity | contradiction]. Qed.

Lemma flog_nonpos (r : R) : r <= 0 -> flog (Fin r) = NaN.
Proof. intros H. unfold flog. destruct (Rlt_dec 0 r); [lra | reflexivity]. Qed.

Lemma map_fexp_fin (rs : list R) : map fexp (map Fin rs) = map Fin (map exp rs).
Proof. now rewrite !map_map. Qed.

Lemma logsumexp1_lse (xs : list npfloat) : logsumexp1 xs = lse xs.
Proof.
  unfold logsumexp1, lse.
  destruct (fin_or_nan xs) as [[rs ->]|Hnan].
  - destruct rs as [|r rs].
    + simpl. change (fsum []) with (Fin 0). rewrite flog_nonpos by lra. reflexivity.
    + change (amax (map Fin (r :: rs))) with (famax (Fin r) (map Fin rs)).
      destruct (famax_fin r rs) as [M ->]. simpl isfinite. cbv iota.
      rewrite map_fexp_fin, fsum_fin.
      replace (map (fun x => fexp (fsub x (Fin M))) (map Fin (r :: rs)))
        with (map Fin (map (fun x => exp (x - M)) (r :: rs)))
        by (now rewrite !map_map).
      rewrite fsum_fin, rsum_exp_shift.
      assert (Hpos : 0 < rsum (map exp (r :: rs))) by (apply rsum_exp_pos; congruence).
      pose proof (exp_pos (- M)).
      rewrite !flog_fin by (try apply Rmult_lt_0_compat; assumption).
      simpl. f_equal. rewrite ln_mult by assumption. rewrite ln_exp. ring.
  - assert (H1 : fsum (map fexp xs) = NaN).
    { apply fsum_nan. apply in_map_iff. now exists NaN. }
    rewrite H1. simpl.
    assert (H2 : forall a, fsum (map (fun x => fexp (fsub x a)) xs) = NaN).
    { intros a. apply fsum_nan. apply in_map_iff. now exists NaN. }
    now rewrite H2.
Qed.

Lemma map_fin_exists {A} (f : A -> npfloat) (P : R -> Prop) (l : list A) :
  (forall x, In x l -> exists r, f x = Fin r /\ P r) ->
  exists rs, map f l = map Fin rs /\ Forall P rs /\ length rs = length l.
Proof.
  induction l as [|x l IH]; intros H.
  - exists []. repeat split. constructor.
  - destruct (H x (or_introl eq_refl)) as (r & Hr & HP).
    destruct IH as (rs & Hrs & HPs & Hlen); [intros y Hy; apply H; now right|].
    exists (r :: rs). simpl. rewrite Hr, Hrs, Hlen. repeat split. now constructor.
Qed.

Lemma rsum_bounds (a b : R) (rs : list R) :
  Forall (fun r => a <= r <= b) rs ->
  INR (length rs) * a <= rsum rs <= INR (length rs) * b.
Proof.
  induction 1 as [|r rs Hr _ IH].
  - simpl. lra.
  - change (length (r :: rs)) with (S (length rs)). rewrite S_INR. simpl. lra.
Qed.

Lemma INR_length_pos {A} (l : list A) : l <> [] -> 0 < INR (length l).
Proof.
  intros H. destruct l; [congruence|]. apply lt_0_INR. simpl. lia.
Qed.

Lemma fdiv_nat_fin (r : R) (n : nat) : n <> 0%nat -> fdiv_nat (Fin r) n = Fin (r / INR n).
Proof. intros H. unfold fdiv_nat. destruct (Nat.eqb_spec n 0); [contradiction | reflexivity]. Qed.

Lemma fdiv_nat_0 (x : npfloat) : fdiv_nat x 0 = NaN.
Proof. now destruct x. Qed.

Lemma length_nonzero {A} (l : list A) : l <> [] -> length l <> 0%nat.
Proof. destruct l; [congruence | discriminate]. Qed.

Lemma lse_minus_log_mixture (xs : list npfloat) :
  lse_minus_log xs = mixture_logdensity xs.
Proof.
  unfold lse_minus_log, mixture_logdensity, lse.
  destruct (fin_or_nan xs) as [[rs ->]|Hnan].
  - rewrite map_fexp_fin, fsum_fin, length_map.
    destruct rs as [|r rs].
    + simpl. rewrite fdiv_nat_0. now rewrite flog_nonpos by lra.
    + assert (Hne : r :: rs <> []) by congruence.
      pose proof (INR_length_pos _ Hne) as HK.
      assert (Hpos : 0 < rsum (map exp (r :: rs))) by (now apply rsum_exp_pos).
      rewrite fdiv_nat_fin by (now apply length_nonzero).
      rewrite !flog_fin; try assumption.
      * simpl. f_equal. unfold Rdiv. rewrite ln_mult, ln_Rinv; try assumption.
        -- ring.
        -- now apply Rinv_0_lt_compat.
      * now apply Rdiv_lt_0_compat.
  - assert (H1 : fsum (map fexp xs) = NaN).
    { apply fsum_nan. apply in_map_iff. now exists NaN. }
    now rewrite H1.
Qed.

Lemma ln_le_compat (x y : R) : 0 < x -> x <= y -> ln x <= ln y.
Proof.
  intros Hx [Hlt| ->]; [left; now apply ln_increasing | right; reflexivity].
Qed.

Lemma exp_le_compat (x y : R) : x <= y -> exp x <= exp y.
Proof.
  intros [Hlt| ->]; [left; now apply exp_increasing | right; reflexivity].
Qed.

(** The mean of finitely many reals between [a] and [b] lies between them. *)
Lemma mean_bounds (a b : R) (rs : list R) :
  rs <> [] -> Forall (fun r => a <= r <= b) rs ->
  a <= rsum rs / INR (length rs) <= b.
Proof.
  intros Hne Hall. pose proof (INR_length_pos _ Hne) as HK.
  pose proof (rsum_bounds a b rs Hall) as [H1 H2].
  split.
  - apply Rmult_le_reg_r with (INR (length rs)); [assumption|].
    unfold Rdiv. rewrite Rmult_assoc, Rinv_l by lra. lra.
  - apply Rmult_le_reg_r with (INR (length rs)); [assumption|].
    unfold Rdiv. rewrite Rmult_assoc, Rinv_l by lra. lra.
Qed.

Lemma lse_minus_log_bounds (a b : R) (rs : list R) :
  rs <> [] -> Forall (fun r => a <= r <= b) rs ->
  exists y, lse_minus_log (map Fin rs) = Fin y /\ a <= y <= b.
Proof.
  intros Hne Hall. rewrite lse_minus_log_mixture. unfold mixture_logdensity.
  rewrite map_fexp_fin, fsum_fin, length_map.
  rewrite fdiv_nat_fin by (now apply length_nonzero).
  assert (Hexp : Forall (fun r => exp a <= r <= exp b) (map exp rs)).
  { apply Forall_map. eapply Forall_impl; [exact Hall|].
    intros r [H1 H2]. simpl. split; now apply exp_le_compat. }
  assert (Hne' : map exp rs <> []) by (destruct rs; [congruence | discriminate]).
  pose proof (mean_bounds _ _ _ Hne' Hexp) as [H1 H2].
  rewrite length_map in H1, H2.
  pose proof (exp_pos a) as Ha.
  assert (Hpos : 0 < rsum (map exp rs) / INR (length rs)) by lra.
  rewrite flog_fin by assumption.
  eexists; split; [reflexivity|]. split.
  - rewrite <- (ln_exp a). now apply ln_le_compat.
  - rewrite <- (ln_exp b). now apply ln_le_compat.
Qed.

(** ** Means over the test elements *)

Lemma indices_1 (D : nat) : indices [D] = map (fun j => [j]) (seq 0 D).
Proof.
  simpl. induction (seq 0 D) as [|j l IH]; simpl; [reflexivity | now rewrite IH].
Qed.

Lemma map_flat_map {A B C} (g : B -> C) (f : A -> list B) (l : list A) :
  map g (flat_map f l) = flat_map (fun x => map g (f x)) l.
Proof.
  induction l as [|x l IH]; simpl; [reflexivity|]. now rewrite map_app, IH.
Qed.

Lemma mean_over_ND (N D : nat) (g : list nat -> npfloat) :
  mean_over [N; D] g = mean_ND N D (fun i j => g [i; j]).
Proof.
  unfold mean_over, mean_ND.
  replace (size_of [N; D]) with (N * D)%nat by (simpl; lia).
  f_equal. f_equal.
  change (indices [N; D]) with (flat_map (fun i => map (cons i) (indices [D])) (seq 0 N)).
  rewrite map_flat_map, indices_1.
  apply flat_map_ext. intros i. now rewrite !map_map.
Qed.

Lemma all_ge0_spec (a : ndarray) :
  all_ge0 a = true <-> forall idx, Forall2 lt idx (shape a) -> fge0 (item a idx) = true.
Proof.
  unfold all_ge0, elements. rewrite forallb_forall. split.
  - intros H idx Hidx. apply H. apply in_map. now apply in_indices.
  - intros H x Hx. apply in_map_iff in Hx as (idx & <- & Hidx).
    apply H. now apply in_indices.
Qed.

Lemma fge0_true (x : npfloat) : fge0 x = true <-> exists r, x = Fin r /\ 0 <= r.
Proof.
  destruct x as [r|]; simpl.
  - destruct (Rle_dec 0 r); split; try discriminate; eauto.
    intros (r' & [= <-] & H). contradiction.
  - split; [discriminate | intros (r & [=] & _)].
Qed.

Lemma size_of_indices_nonempty (s : list nat) : size_of s <> 0%nat -> indices s <> [].
Proof.
  intros H E. apply H. rewrite <- length_indices, E. reflexivity.
Qed.

Lemma mean_over_bounds (a b : R) (s : list nat) (f : list nat -> npfloat) :
  size_of s <> 0%nat ->
  (forall idx, Forall2 lt idx s -> exists r, f idx = Fin r /\ a <= r <= b) ->
  exists y, mean_over s f = Fin y /\ a <= y <= b.
Proof.
  intros Hsz H. unfold mean_over.
  destruct (map_fin_exists f (fun r => a <= r <= b) (indices s)) as (rs & Hrs & Hall & Hlen).
  { intros idx Hidx. apply H. now apply in_indices. }
  rewrite Hrs, fsum_fin, fdiv_nat_fin by assumption.
  eexists; split; [reflexivity|].
  rewrite <- length_indices, <- Hlen. apply mean_bounds; [|assumption].
  intros ->. apply (size_of_indices_nonempty s Hsz).
  now apply length_zero_iff_nil.
Qed.

(** ** Equal components, and a scaled residual *)

Lemma rsum_const_exp (r : R) {A} (l : list A) :
  rsum (map exp (map (fun _ => r) l)) = INR (length l) * exp r.
Proof.
  induction l as [|a l IH]; [simpl; ring|].
  change (length (a :: l)) with (S (length l)). rewrite S_INR. simpl. rewrite IH. ring.
Qed.

(** Log-sum-exp of [K] copies of one value, minus [log K], is that value. *)
Lemma lse_minus_log_const (x : npfloat) (K : nat) :
  (0 < K)%nat ->
  fsub (logsumexp1 (map (fun _ => x) (seq 0 K))) (flog (Fin (INR K))) = x.
Proof.
  intros HK. rewrite logsumexp1_lse. unfold lse.
  assert (HKR : 0 < INR K) by (now apply lt_0_INR).
  destruct x as [r|].
  - replace (map (fun _ : nat => Fin r) (seq 0 K))
      with (map Fin (map (fun _ : nat => r) (seq 0 K))) by (now rewrite map_map).
    rewrite map_fexp_fin, fsum_fin, rsum_const_exp, length_seq.
    pose proof (exp_pos r).
    rewrite !flog_fin by (try apply Rmult_lt_0_compat; assumption).
    simpl. f_equal. rewrite ln_mult, ln_exp by assumption. ring.
  - assert (E : fsum (map fexp (map (fun _ : nat => NaN) (seq 0 K))) = NaN).
    { apply fsum_nan. destruct K; [lia|]. now left. }
    now rewrite E.
Qed.

Lemma fsum_squares_scaled {A} (d : A -> npfloat) (s : R) (l : list A) :
  fsum (map (fun i => fsquare (fmul (d i) (Fin s))) l) =
  fmul (fsum (map (fun i => fsquare (d i)) l)) (Fin (s * s)).
Proof.
  induction l as [|a l IH].
  - simpl. change (fsum []) with (Fin 0). simpl. f_equal. ring.
  - simpl map. rewrite !fsum_cons, IH.
    destruct (d a) as [x|]; [|reflexivity].
    destruct (fsum (map (fun i => fsquare (d i)) l)) as [y|]; [|reflexivity].
    simpl. f_equal. ring.
Qed.

Lemma fsum_squares_nonneg {A} (d : A -> npfloat) (l : list A) :
  fsum (map (fun i => fsquare (d i)) l) = NaN \/
  exists x, fsum (map (fun i => fsquare (d i)) l) = Fin x /\ 0 <= x.
Proof.
  induction l as [|a l IH].
  - right. exists 0. split; [reflexivity | lra].
  - simpl map. rewrite fsum_cons.
    destruct (d a) as [x|]; [|now left].
    destruct IH as [->|(y & -> & Hy)]; [now left|].
    right. exists (x * x + y). split; [reflexivity|]. nra.
Qed.

Lemma fpow_half_fin (r : R) : 0 <= r -> fpow_half (Fin r) = Fin (sqrt r).
Proof.
  intros H. unfold fpow_half. destruct (Rlt_dec r 0); [lra | reflexivity].
Qed.

(** [sqrt(mean((d * s)**2)) = sqrt(mean(d**2)) * s] for a scale [s >= 0]. *)
Lemma rmse_scaled (s : R) (sh : list nat) (d : list nat -> npfloat) :
  0 <= s ->
  fpow_half (mean_over sh (fun idx => fsquare (fmul (d idx) (Fin s)))) =
  fmul (fpow_half (mean_over sh (fun idx => fsquare (d idx)))) (Fin s).
Proof.
  intros Hs. unfold mean_over. rewrite fsum_squares_scaled.
  destruct (fsum_squares_nonneg d (indices sh)) as [->|(x & -> & Hx)]; [reflexivity|].
  simpl fmul at 1.
  destruct (Nat.eq_dec (size_of sh) 0%nat) as [->|Hn].
  - now rewrite !fdiv_nat_0.
  - rewrite !fdiv_nat_fin by assumption.
    assert (Hn' : 0 < / INR (size_of sh)).
    { apply Rinv_0_lt_compat, lt_0_INR. lia. }
    assert (H1 : 0 <= x / INR (size_of sh)) by (apply Rmult_le_pos; lra).
    assert (H2 : 0 <= x * (s * s) / INR (size_of sh)).
    { unfold Rdiv. repeat apply Rmult_le_pos; lra. }
    rewrite !fpow_half_fin by assumption. simpl. f_equal.
    replace (x * (s * s) / INR (size_of sh)) with ((x / INR (size_of sh)) * (s * s))
      by (unfold Rdiv; ring).
    rewrite sqrt_mult by nra. now rewrite sqrt_square.
Qed.

Local Close Scope R_scope.

(** ** The mixture log-likelihood *)

Lemma metric_loglik a b c d e f :
  metric "test_loglik" (metrics_dict a b c d e f) = Some a.
Proof. reflexivity. Qed.

Lemma metric_loglik_u a b c d e f :
  metric "test_loglik_unnormalized" (metrics_dict a b c d e f) = Some b.
Proof. reflexivity. Qed.

Lemma metric_mae a b c d e f :
  metric "test_mae" (metrics_dict a b c d e f) = Some c.
Proof. reflexivity. Qed.

Lemma metric_rmse a b c d e f :
  metric "test_rmse" (metrics_dict a b c d e f) = Some e.
Proof. reflexivity. Qed.

Lemma metric_rmse_u a b c d e f :
  metric "test_rmse_unnormalized" (metrics_dict a b c d e f) = Some f.
Proof. reflexivity. Qed.

Lemma dom_metrics_dict a b c d e f : dom (metrics_dict a b c d e f) = metric_keys.
Proof.
  unfold metrics_dict, metric_keys. rewrite !dom_insert_L, dom_empty_L. set_solver.
Qed.

Lemma flat_map_ext_in {A B} (f g : A -> list B) (l : list A) :
  (forall x, In x l -> f x = g x) -> flat_map f l = flat_map g l.
Proof.
  induction l as [|x l IH]; intros H; simpl; [reflexivity|].
  rewrite (H x) by (now left). f_equal. apply IH. intros y Hy. apply H. now right.
Qed.

Lemma mean_ND_ext (N D : nat) (f g : nat -> nat -> npfloat) :
  (forall i j, (i < N)%nat -> (j < D)%nat -> f i j = g i j) ->
  mean_ND N D f = mean_ND N D g.
Proof.
  intros H. unfold mean_ND. do 2 f_equal.
  apply flat_map_ext_in. intros i Hi. apply map_ext_in. intros j Hj.
  apply in_seq in Hi, Hj. apply H; lia.
Qed.

Lemma logsumexp1_minus_log (xs : list npfloat) :
  fsub (logsumexp1 xs) (flog (Fin (INR (length xs)))) = lse_minus_log xs.
Proof. unfold lse_minus_log. now rewrite logsumexp1_lse. Qed.

(** Claim C1.  For a valid ensemble prediction of [K] samples, [run]
    returns, under ["test_loglik"], the arithmetic mean over all [N x D]
    test elements of the log-sum-exp of the [K] clipped component
    log-densities minus [log K]; this value is the log-density of the
    equal-weight mixture of the components.  ["test_loglik_unnormalized"]
    is the same reduction of the de-normalized clipped log-densities. *)
Theorem ensemble_loglik_is_mixture (K N D : nat) (m v Y Ystd : ndarray) :
  valid_ensemble K N D m v Y -> std_broadcasts N D Ystd ->
  exists res,
    evaluate m v Y Ystd = Ok res /\
    metric "test_loglik" res =
      Some (mean_ND N D (fun i j => lse_minus_log (component_logliks m v Y K i j))) /\
    metric "test_loglik_unnormalized" res =
      Some (mean_ND N D (fun i j => lse_minus_log (component_logliks_u m v Y Ystd K i j))) /\
    (forall i j, lse_minus_log (component_logliks m v Y K i j) =
                 mixture_logdensity (component_logliks m v Y K i j)) /\
    (forall i j, lse_minus_log (component_logliks_u m v Y Ystd K i j) =
                 mixture_logdensity (component_logliks_u m v Y Ystd K i j)).
Proof.
  intros [HK Hm Hv HY Hge] Hs.
  eexists. split; [apply (evaluate_ensemble m v Y Ystd K N D); assumption|].
  rewrite metric_loglik, metric_loglik_u, !mean_over_ND.
  repeat split; try (intros; apply lse_minus_log_mixture).
  - f_equal. apply mean_ND_ext. intros i j _ _.
    rewrite <- logsumexp1_minus_log. unfold component_logliks.
    now rewrite length_map, length_seq.
  - f_equal. apply mean_ND_ext. intros i j _ _.
    rewrite <- logsumexp1_minus_log. unfold component_logliks_u.
    now rewrite length_map, length_seq.
Qed.

(** ** Ensemble against point prediction *)

Lemma valid_point_slice (K N D : nat) (m v Y : ndarray) :
  valid_ensemble K N D m v Y ->
  valid_point N D (slice [N; D] m 0) (slice [N; D] v 0) Y.
Proof.
  intros [HK Hm Hv HY Hge]. split; try reflexivity; try assumption.
  apply all_ge0_spec. intros idx Hidx. simpl in *.
  rewrite all_ge0_spec in Hge. apply Hge. rewrite Hv. now constructor.
Qed.

Lemma evaluate_point_valid (N D : nat) (m v Y Ystd : ndarray) :
  valid_point N D m v Y -> std_broadcasts N D Ystd ->
  evaluate m v Y Ystd = Ok (metrics_dict
    (mean_over [N; D] (fun idx => clipped_logpdf (item Y idx) (item m idx) (item v idx)))
    (mean_over [N; D] (fun idx =>
       clipped_logpdf_u (item Y idx) (item m idx) (item v idx) (bget Ystd idx)))
    (mean_over [N; D] (fun idx => fabs (fsub (item Y idx) (item m idx))))
    (mean_over [N; D] (fun idx =>
       fabs (fmul (fsub (item Y idx) (item m idx)) (bget Ystd idx))))
    (fpow_half (mean_over [N; D] (fun idx => fsquare (fsub (item Y idx) (item m idx)))))
    (fpow_half (mean_over [N; D] (fun idx =>
       fsquare (fmul (fsub (item Y idx) (item m idx)) (bget Ystd idx)))))).
Proof. intros [Hm Hv HY Hge] Hs. now apply evaluate_point. Qed.

(** When all samples are identical the mixture log-likelihood is the
    log-likelihood of the point prediction given by one sample. *)
Lemma identical_samples_loglik (K N D : nat) (m v Y Ystd : ndarray) :
  valid_ensemble K N D m v Y -> std_broadcasts N D Ystd ->
  identical_samples K N D m -> identical_samples K N D v ->
  exists res res0 x xu,
    evaluate m v Y Ystd = Ok res /\
    evaluate (slice [N; D] m 0) (slice [N; D] v 0) Y Ystd = Ok res0 /\
    metric "test_loglik" res = Some x /\
    metric "test_loglik" res0 = Some x /\
    metric "test_loglik_unnormalized" res = Some xu /\
    metric "test_loglik_unnormalized" res0 = Some xu.
Proof.
  intros Hvalid Hs Him Hiv.
  pose proof (valid_point_slice K N D m v Y Hvalid) as Hpoint.
  destruct Hvalid as [HK Hm Hv HY Hge].
  do 4 eexists.
  split; [apply (evaluate_ensemble m v Y Ystd K N D); assumption|].
  split; [apply (evaluate_point_valid N D); assumption|].
  rewrite !metric_loglik, !metric_loglik_u.
  split; [reflexivity|]. split; [|split; [reflexivity|]].
  - f_equal. apply mean_over_ext. intros idx Hidx. simpl.
    rewrite (map_ext_in _ (fun _ =>
      clipped_logpdf (item Y idx) (item m (0%nat :: idx)) (item v (0%nat :: idx)))).
    + symmetry. now apply lse_minus_log_const.
    + intros s Hs'. apply in_seq in Hs'.
      now rewrite Him, Hiv by (assumption || lia).
  - f_equal. apply mean_over_ext. intros idx Hidx. simpl.
    rewrite (map_ext_in _ (fun _ =>
      clipped_logpdf_u (item Y idx) (item m (0%nat :: idx)) (item v (0%nat :: idx))
                       (bget Ystd idx))).
    + symmetry. now apply lse_minus_log_const.
    + intros s Hs'. apply in_seq in Hs'.
      now rewrite Him, Hiv by (assumption || lia).
Qed.

Lemma identical_samples_1 (N D : nat) (a : ndarray) : identical_samples 1 N D a.
Proof. intros s idx Hs _. now replace s with 0%nat by lia. Qed.

(** Claim C4.  An ensemble prediction with one sample gives the same
    ["test_loglik"] and ["test_loglik_unnormalized"] as the point
    prediction made of that sample. *)
Theorem single_sample_matches_point (N D : nat) (m v Y Ystd m0 v0 : ndarray) :
  valid_ensemble 1 N D m v Y -> std_broadcasts N D Ystd ->
  index0 m 0 = Ok m0 -> index0 v 0 = Ok v0 ->
  exists res res0 x xu,
    evaluate m v Y Ystd = Ok res /\
    evaluate m0 v0 Y Ystd = Ok res0 /\
    metric "test_loglik" res = Some x /\
    metric "test_loglik" res0 = Some x /\
    metric "test_loglik_unnormalized" res = Some xu /\
    metric "test_loglik_unnormalized" res0 = Some xu.
Proof.
  intros Hvalid Hs Hm0 Hv0.
  rewrite (index0_slice m 1 [N; D] 0 (ve_mean _ _ _ _ _ _ Hvalid)) in Hm0 by lia.
  rewrite (index0_slice v 1 [N; D] 0 (ve_variance _ _ _ _ _ _ Hvalid)) in Hv0 by lia.
  injection Hm0 as <-. injection Hv0 as <-.
  apply (identical_samples_loglik 1 N D); auto using identical_samples_1.
Qed.

(** Claim C5.  When all samples of an ensemble prediction are identical,
    the mixture log-likelihoods equal the log-likelihoods of the point
    prediction made of a single sample. *)
Theorem identical_components_collapse (K N D : nat) (m v Y Ystd m0 v0 : ndarray) :
  valid_ensemble K N D m v Y -> std_broadcasts N D Ystd ->
  identical_samples K N D m -> identical_samples K N D v ->
  index0 m 0 = Ok m0 -> index0 v 0 = Ok v0 ->
  exists res res0 x xu,
    evaluate m v Y Ystd = Ok res /\
    evaluate m0 v0 Y Ystd = Ok res0 /\
    metric "test_loglik" res = Some x /\
    metric "test_loglik" res0 = Some x /\
    metric "test_loglik_unnormalized" res = Some xu /\
    metric "test_loglik_unnormalized" res0 = Some xu.
Proof.
  intros Hvalid Hs Him Hiv Hm0 Hv0.
  pose proof (ve_samples _ _ _ _ _ _ Hvalid) as HK.
  rewrite (index0_slice m K [N; D] 0 (ve_mean _ _ _ _ _ _ Hvalid) HK) in Hm0.
  rewrite (index0_slice v K [N; D] 0 (ve_variance _ _ _ _ _ _ Hvalid) HK) in Hv0.
  injection Hm0 as <-. injection Hv0 as <-.
  now apply (identical_samples_loglik K N D).
Qed.

(** ** Both branches at once *)

Lemma evaluate_valid (k : prediction_kind) (N D : nat) (m v Y Ystd : ndarray) :
  valid_input k N D m v Y -> std_broadcasts N D Ystd ->
  evaluate m v Y Ystd = Ok (metrics_dict
    (mean_over [N; D] (fun idx =>
       reduce_loglik k (map clip_elem (densities k m v Y idx))))
    (mean_over [N; D] (fun idx =>
       reduce_loglik k (map clip_elem (densities_u k m v Y Ystd idx))))
    (mean_over [N; D] (fun idx => fabs (residual k m Y idx)))
    (mean_over [N; D] (fun idx => fabs (fmul (residual k m Y idx) (bget Ystd idx))))
    (fpow_half (mean_over [N; D] (fun idx => fsquare (residual k m Y idx))))
    (fpow_half (mean_over [N; D] (fun idx =>
       fsquare (fmul (residual k m Y idx) (bget Ystd idx)))))).
Proof.
  destruct k as [|K]; simpl valid_input.
  - intros Hv Hs. now rewrite (evaluate_point_valid N D m v Y Ystd Hv Hs).
  - intros [HK Hm Hv HY Hge] Hs.
    rewrite (evaluate_ensemble m v Y Ystd K N D Hm Hv HY Hs Hge HK).
    f_equal. apply metrics_dict_congr; try reflexivity;
      apply mean_over_ext; intros idx _; unfold reduce_loglik, densities, densities_u, samples;
      now rewrite !map_map.
Qed.

Local Open Scope R_scope.

Lemma scalar_std_broadcasts (N D : nat) (Ystd : ndarray) :
  shape Ystd = [] -> std_broadcasts N D Ystd.
Proof. intros H. unfold std_broadcasts. rewrite H. apply broadcast_shapes_nil_r. Qed.

Lemma bget_scalar (a : ndarray) (idx : list nat) : shape a = [] -> bget a idx = item a [].
Proof. intros H. unfold bget. now rewrite H. Qed.

(** Claim C6.  With one positive scalar [Y_std], in the point and in the
    ensemble branch, ["test_rmse_unnormalized"] is ["test_rmse"]
    multiplied by [Y_std]. *)
Theorem rmse_unnormalized_is_scaled (k : prediction_kind) (N D : nat)
    (m v Y Ystd : ndarray) (s : R) :
  valid_input k N D m v Y ->
  shape Ystd = [] -> item Ystd [] = Fin s -> 0 < s ->
  exists res x,
    evaluate m v Y Ystd = Ok res /\
    metric "test_rmse" res = Some x /\
    metric "test_rmse_unnormalized" res = Some (fmul x (Fin s)).
Proof.
  intros Hvalid Hsh Hitem Hs.
  do 2 eexists. split.
  - apply (evaluate_valid k N D); [assumption | now apply scalar_std_broadcasts].
  - rewrite metric_rmse, metric_rmse_u. split; [reflexivity|]. f_equal.
    rewrite <- rmse_scaled by lra. f_equal.
    apply mean_over_ext. intros idx _. now rewrite bget_scalar, Hitem.
Qed.

(** ** The clip bounds *)

Lemma clip_elem_nan : clip_elem NaN = NaN.
Proof. unfold clip_elem. now rewrite log_eps_eq, log_1_minus_eps_eq. Qed.

Lemma clip_elem_fin (r : R) : in_clip_range (clip_elem (Fin r)).
Proof.
  unfold clip_elem. rewrite fclip_fin. eexists. split; [reflexivity | apply clip_range].
Qed.

Lemma clip_elem_defined (x : npfloat) : is_fin x -> in_clip_range (clip_elem x).
Proof. destruct x; [intros _; apply clip_elem_fin | contradiction]. Qed.

Lemma Forall_clip_range (xs : list npfloat) :
  Forall is_fin xs ->
  exists rs, map clip_elem xs = map Fin rs /\
             Forall (fun r => ln 1e-12 <= r <= ln (1.0 - 1e-12)) rs /\
             length rs = length xs.
Proof.
  intros H. apply map_fin_exists. intros x Hx.
  rewrite List.Forall_forall in H. apply clip_elem_defined. now apply H.
Qed.

Lemma length_samples (k : prediction_kind) (idx : list nat) :
  length (samples k idx) = sample_count k.
Proof. destruct k; simpl; [reflexivity | now rewrite length_map, length_seq]. Qed.

(** The reduction of clipped, well-defined log-densities stays within the
    clip bounds. *)
Lemma reduce_loglik_bounds (k : prediction_kind) (xs : list npfloat) :
  (0 < sample_count k)%nat -> length xs = sample_count k -> Forall is_fin xs ->
  in_clip_range (reduce_loglik k (map clip_elem xs)).
Proof.
  intros Hpos Hlen Hfin.
  destruct (Forall_clip_range xs Hfin) as (rs & -> & Hall & Hlen').
  destruct k as [|K]; simpl in *.
  - destruct rs as [|r rs]; [simpl in Hlen'; lia|].
    apply Forall_cons in Hall as [Hr _]. now exists r.
  - assert (Hne : rs <> []) by (intros ->; simpl in Hlen'; lia).
    destruct (lse_minus_log_bounds _ _ rs Hne Hall) as (y & Hy & Hb).
    exists y. split; [|exact Hb].
    rewrite <- Hy, <- logsumexp1_minus_log, length_map.
    now replace (length rs) with K by lia.
Qed.

Lemma size_of_ND (N D : nat) : (0 < N)%nat -> (0 < D)%nat -> size_of [N; D] <> 0%nat.
Proof. simpl. nia. Qed.

Lemma mean_over_clip_range (s : list nat) (f : list nat -> npfloat) :
  size_of s <> 0%nat ->
  (forall idx, Forall2 lt idx s -> in_clip_range (f idx)) ->
  in_clip_range (mean_over s f).
Proof. intros Hsz H. now apply mean_over_bounds. Qed.

Lemma valid_input_samples (k : prediction_kind) (N D : nat) (m v Y : ndarray) :
  valid_input k N D m v Y -> (0 < sample_count k)%nat.
Proof. destruct k; simpl; [lia | now intros []]. Qed.

(** Claim C9, as amended.  On a valid input with at least one test
    point and one output, whose per-element log-densities are numbers,
    ["test_loglik"] and ["test_loglik_unnormalized"] lie within
    [[ln 1e-12, ln (1 - 1e-12)]], in both branches. *)
Theorem loglik_within_clip_bounds (k : prediction_kind) (N D : nat)
    (m v Y Ystd : ndarray) :
  valid_input k N D m v Y -> std_broadcasts N D Ystd ->
  (0 < N)%nat -> (0 < D)%nat ->
  (forall idx, Forall2 lt idx [N; D] ->
     Forall is_fin (densities k m v Y idx) /\
     Forall is_fin (densities_u k m v Y Ystd idx)) ->
  exists res x xu,
    evaluate m v Y Ystd = Ok res /\
    metric "test_loglik" res = Some (Fin x) /\
    ln 1e-12 <= x <= ln (1.0 - 1e-12) /\
    metric "test_loglik_unnormalized" res = Some (Fin xu) /\
    ln 1e-12 <= xu <= ln (1.0 - 1e-12).
Proof.
  intros Hvalid Hs HN HD Hdef.
  pose proof (valid_input_samples _ _ _ _ _ _ Hvalid) as HK.
  pose proof (size_of_ND N D HN HD) as Hsz.
  destruct (mean_over_clip_range [N; D]
    (fun idx => reduce_loglik k (map clip_elem (densities k m v Y idx))) Hsz)
    as (x & Hx & Hbx).
  { intros idx Hidx. apply reduce_loglik_bounds; [assumption| |now apply Hdef].
    unfold densities. now rewrite length_map, length_samples. }
  destruct (mean_over_clip_range [N; D]
    (fun idx => reduce_loglik k (map clip_elem (densities_u k m v Y Ystd idx))) Hsz)
    as (xu & Hxu & Hbxu).
  { intros idx Hidx. apply reduce_loglik_bounds; [assumption| |now apply Hdef].
    unfold densities_u. now rewrite length_map, length_samples. }
  exists (metrics_dict (Fin x) (Fin xu)
    (mean_over [N; D] (fun idx => fabs (residual k m Y idx)))
    (mean_over [N; D] (fun idx => fabs (fmul (residual k m Y idx) (bget Ystd idx))))
    (fpow_half (mean_over [N; D] (fun idx => fsquare (residual k m Y idx))))
    (fpow_half (mean_over [N; D] (fun idx =>
       fsquare (fmul (residual k m Y idx) (bget Ystd idx)))))), x, xu.
  rewrite <- Hx, <- Hxu.
  split; [now apply evaluate_valid|]. now rewrite Hx, Hxu.
Qed.

(** ** The keys of the result *)

Lemma metric_keys_cases (key : string) :
  key ∈ metric_keys ->
  key = "test_loglik" \/ key = "test_loglik_unnormalized" \/ key = "test_mae" \/
  key = "test_mae_unnormalized" \/ key = "test_rmse" \/ key = "test_rmse_unnormalized".
Proof.
  unfold metric_keys. rewrite !elem_of_union, !elem_of_singleton. tauto.
Qed.

Lemma metrics_dict_lookup (key : string) a b c d e f :
  key ∈ metric_keys ->
  exists x, metrics_dict a b c d e f !! key = Some (PyFloat x) /\
            (x = a \/ x = b \/ x = c \/ x = d \/ x = e \/ x = f).
Proof.
  intros H. apply metric_keys_cases in H.
  destruct H as [->|[->|[->|[->|[->| ->]]]]]; eexists; (split; [reflexivity|]); tauto.
Qed.

(** Claim C10.  [Y_std] is not validated: a prediction that passes the
    three assertions is evaluated, and the six metrics are returned, also
    when the scalar [Y_std] is zero or negative; [AssertionError] is raised
    exactly when one of the three checks on the prediction fails, whatever
    [Y_std] is. *)
Theorem nonpositive_std_is_not_rejected (k : prediction_kind) (N D : nat)
    (m v Y Ystd : ndarray) (s : R) :
  valid_input k N D m v Y ->
  shape Ystd = [] -> item Ystd [] = Fin s -> s <= 0 ->
  (exists res,
     evaluate m v Y Ystd = Ok res /\
     dom res = metric_keys /\
     forall key, key ∈ metric_keys -> exists x, res !! key = Some (PyFloat x)) /\
  (forall m' v' Y' Ystd',
     evaluate m' v' Y' Ystd' = Raise AssertionError <-> input_checks m' v' = false).
Proof.
  intros Hvalid Hsh Hitem Hs. split; [|apply evaluate_assertion].
  rewrite (evaluate_valid k N D m v Y Ystd Hvalid (scalar_std_broadcasts N D Ystd Hsh)).
  eexists. split; [reflexivity|]. split; [apply dom_metrics_dict|].
  intros key Hkey.
  edestruct (metrics_dict_lookup key) as (x & Hx & _); [exact Hkey|].
  exists x. exact Hx.
Qed.

(** ** Log-densities that are numbers, and the six scalars *)

Lemma norm_logpdf1_fin (y mu sc : R) :
  0 < sc -> is_fin (norm_logpdf1 (Fin y) (Fin mu) (Fin sc)).
Proof.
  intros H. unfold norm_logpdf1. destruct (Rlt_dec 0 sc); [exact I | contradiction].
Qed.

Lemma logpdf_elem_fin (y mu var : R) : 0 < var -> is_fin (logpdf_elem (Fin y) (Fin mu) (Fin var)).
Proof.
  intros H. unfold logpdf_elem. rewrite fpow_half_fin by lra.
  apply norm_logpdf1_fin. now apply sqrt_lt_R0.
Qed.

Lemma logpdf_u_elem_fin (y mu var s : R) :
  0 < var -> 0 < s -> is_fin (logpdf_u_elem (Fin y) (Fin mu) (Fin var) (Fin s)).
Proof.
  intros H Hs. unfold logpdf_u_elem. rewrite fpow_half_fin by lra.
  apply norm_logpdf1_fin. apply Rmult_lt_0_compat; [now apply sqrt_lt_R0 | assumption].
Qed.

Lemma samples_in_range (k : prediction_kind) (N D : nat) (m v Y : ndarray)
    (idx p : list nat) :
  valid_input k N D m v Y -> Forall2 lt idx [N; D] -> In p (samples k idx) ->
  Forall2 lt p (shape m) /\ Forall2 lt p (shape v).
Proof.
  destruct k as [|K]; simpl.
  - intros [Hm Hv _ _] Hidx [<-|[]]. now rewrite Hm, Hv.
  - intros [_ Hm Hv _ _] Hidx Hp. apply in_map_iff in Hp as (s & <- & Hs).
    apply in_seq in Hs. rewrite Hm, Hv. split; constructor; (lia || assumption).
Qed.

Section Finite.
Variables (k : prediction_kind) (N D : nat) (m v Y Ystd : ndarray).
Hypothesis Hvalid : valid_input k N D m v Y.
Hypothesis Hm : finite_array m.
Hypothesis Hv : positive_array v.
Hypothesis HY : finite_array Y.
Hypothesis Hstd : positive_std N D Ystd.

Lemma target_fin (idx : list nat) : Forall2 lt idx [N; D] -> is_fin (item Y idx).
Proof.
  intros Hidx. apply HY. destruct k; destruct Hvalid; congruence.
Qed.

Lemma densities_fin (idx : list nat) :
  Forall2 lt idx [N; D] ->
  length (densities k m v Y idx) = sample_count k /\
  Forall is_fin (densities k m v Y idx).
Proof.
  intros Hidx. unfold densities. rewrite length_map, length_samples.
  split; [reflexivity|]. apply Forall_map, Forall_forall. intros p Hp.
  apply list_elem_of_In in Hp.
  destruct (samples_in_range k N D m v Y idx p Hvalid Hidx Hp) as [Hpm Hpv].
  pose proof (target_fin idx Hidx) as Hy. pose proof (Hm p Hpm) as Hmu.
  destruct (Hv p Hpv) as (r & -> & Hr).
  destruct (item Y idx); [|contradiction]. destruct (item m p); [|contradiction].
  now apply logpdf_elem_fin.
Qed.

Lemma densities_u_fin (idx : list nat) :
  Forall2 lt idx [N; D] ->
  length (densities_u k m v Y Ystd idx) = sample_count k /\
  Forall is_fin (densities_u k m v Y Ystd idx).
Proof.
  intros Hidx. unfold densities_u. rewrite length_map, length_samples.
  split; [reflexivity|]. apply Forall_map, Forall_forall. intros p Hp.
  apply list_elem_of_In in Hp.
  destruct (samples_in_range k N D m v Y idx p Hvalid Hidx Hp) as [Hpm Hpv].
  pose proof (target_fin idx Hidx) as Hy. pose proof (Hm p Hpm) as Hmu.
  destruct (Hv p Hpv) as (r & -> & Hr). destruct (Hstd idx Hidx) as (s & -> & Hs).
  destruct (item Y idx); [|contradiction]. destruct (item m p); [|contradiction].
  now apply logpdf_u_elem_fin.
Qed.
End Finite.

Lemma in_clip_range_fin (x : npfloat) : in_clip_range x -> is_fin x.
Proof. intros (r & -> & _). exact I. Qed.


Lemma clip_elem_clipped_or_nan (x : npfloat) : clipped_or_nan (clip_elem x).
Proof.
  destruct x; [right; apply clip_elem_fin | left; apply clip_elem_nan].
Qed.

(** Claim C7, as amended.  In both branches and on both scales, the
    log-likelihood metrics are reductions of clipped values only, and
    every clipped value is [nan] or lies within
    [[ln 1e-12, ln (1 - 1e-12)]]. *)
Theorem reductions_take_clipped_values (k : prediction_kind) (N D : nat)
    (m v Y Ystd : ndarray) :
  valid_input k N D m v Y -> std_broadcasts N D Ystd ->
  exists res,
    evaluate m v Y Ystd = Ok res /\
    metric "test_loglik" res =
      Some (mean_over [N; D] (fun idx =>
              reduce_loglik k (map clip_elem (densities k m v Y idx)))) /\
    metric "test_loglik_unnormalized" res =
      Some (mean_over [N; D] (fun idx =>
              reduce_loglik k (map clip_elem (densities_u k m v Y Ystd idx)))) /\
    forall idx,
      Forall clipped_or_nan (map clip_elem (densities k m v Y idx)) /\
      Forall clipped_or_nan (map clip_elem (densities_u k m v Y Ystd idx)).
Proof.
  intros Hvalid Hs. rewrite (evaluate_valid k N D m v Y Ystd Hvalid Hs).
  eexists. split; [reflexivity|].
  rewrite metric_loglik, metric_loglik_u. repeat split.
  - apply Forall_map, Forall_forall. intros; apply clip_elem_clipped_or_nan.
  - apply Forall_map, Forall_forall. intros; apply clip_elem_clipped_or_nan.
Qed.

(** Claim C2, as amended.  When the numbers of dimensions of mean and
    variance differ, or that number is neither 2 nor 3, or an element of
    the variance is negative, [run] raises [AssertionError] and returns no
    metric. *)
Theorem failed_assertion_rejects (m v Y Ystd : ndarray) :
  ndim m <> ndim v \/
  (ndim m <> 2%nat /\ ndim m <> 3%nat) \/
  (exists idx r, Forall2 lt idx (shape v) /\ item v idx = Fin r /\ r < 0) ->
  evaluate m v Y Ystd = Raise AssertionError.
Proof.
  intros H. apply evaluate_assertion. unfold input_checks.
  destruct H as [H|[[H2 H3]|(idx & r & Hidx & Hitem & Hr)]].
  - apply Nat.eqb_neq in H. now rewrite H.
  - rewrite bool_decide_eq_false_2; [now rewrite andb_false_r|].
    rewrite !elem_of_cons, elem_of_nil. tauto.
  - assert (E : all_ge0 v = false).
    { apply not_true_is_false. rewrite all_ge0_spec. intros Hall.
      specialize (Hall idx Hidx). rewrite Hitem in Hall.
      apply fge0_true in Hall as (r' & [= <-] & Hr'). lra. }
    rewrite E. apply andb_false_r.
Qed.

(** ** The scenario of the specification *)

Ltac ge0 :=
  unfold all_ge0, elements; simpl;
  repeat match goal with
         | |- context [Rle_dec ?a ?b] => destruct (Rle_dec a b); [|exfalso; lra]
         end;
  reflexivity.

Lemma mean_over_11 (f : list nat -> npfloat) : mean_over [1%nat; 1%nat] f = f [0%nat; 0%nat].
Proof.
  unfold mean_over. simpl. rewrite fsum_cons. change (fsum []) with (Fin 0).
  destruct (f [0%nat; 0%nat]) as [r|]; [|reflexivity].
  simpl. rewrite fdiv_nat_fin by lia. f_equal. simpl. field.
Qed.

Lemma sqrt_2PI_bounds : 2 < sqrt (2 * PI) < 4.
Proof.
  pose proof PI2_3_2. pose proof PI_4.
  assert (E2 : sqrt (2 * 2) = 2) by (apply sqrt_square; lra).
  assert (E4 : sqrt (4 * 4) = 4) by (apply sqrt_square; lra).
  split.
  - apply Rle_lt_trans with (sqrt (2 * 2)); [lra|]. apply sqrt_lt_1_alt. lra.
  - apply Rlt_le_trans with (sqrt (4 * 4)); [|lra]. apply sqrt_lt_1_alt. lra.
Qed.

Lemma norm_pdf_logC_eq : - norm_pdf_logC = ln (1 / sqrt (2 * PI)).
Proof.
  unfold norm_pdf_logC. pose proof sqrt_2PI_bounds.
  unfold Rdiv. rewrite Rmult_1_l, ln_Rinv by lra. reflexivity.
Qed.

Lemma standard_density_in_range :
  ln 1e-12 <= ln (1 / sqrt (2 * PI)) <= ln (1.0 - 1e-12).
Proof.
  pose proof sqrt_2PI_bounds as [H2 H4].
  assert (Hinv : / 4 < 1 / sqrt (2 * PI) < / 2).
  { unfold Rdiv. rewrite Rmult_1_l. split; apply Rinv_lt_contravar; nra. }
  split; apply ln_le_compat; lra.
Qed.

Lemma logpdf_elem_standard :
  logpdf_elem (Fin 1) (Fin 1) (Fin 1) = Fin (ln (1 / sqrt (2 * PI))).
Proof.
  unfold logpdf_elem. rewrite fpow_half_fin, sqrt_1 by lra.
  unfold norm_logpdf1. destruct (Rlt_dec 0 1); [|lra].
  f_equal. rewrite <- norm_pdf_logC_eq, ln_1. field.
Qed.

Lemma clip_elem_id (r : R) :
  ln 1e-12 <= r <= ln (1.0 - 1e-12) -> clip_elem (Fin r) = Fin r.
Proof.
  intros H. unfold clip_elem. rewrite fclip_fin. f_equal. now apply clip_id.
Qed.

(** ** Decimal bounds

    [pi] from Machin's series; [exp] from [1 + t <= exp t <= 1 / (1 - t)] at
    [t = x / 2^16] and sixteen squarings, rounded to fifteen decimals. *)

Lemma PI_bounds : 3.1415 < PI < 3.1416.
Proof.
  pose proof (PI_2_3_7_ineq 3) as [Hl Hu].
  unfold sum_f_R0, tg_alt, PI_2_3_7_tg, Ratan_seq in Hl, Hu.
  simpl in Hl, Hu.
  split; lra.
Qed.

Lemma exp_double (t : R) : exp (2 * t) = exp t * exp t.
Proof. replace (2 * t) with (t + t) by ring. apply exp_plus. Qed.

Lemma exp_lower_step (t l l' : R) :
  0 <= l -> l <= exp t -> l' <= l * l -> l' <= exp (2 * t).
Proof. intros H0 H1 H2. rewrite exp_double. nra. Qed.

Lemma exp_upper_step (t u u' : R) :
  exp t <= u -> u * u <= u' -> exp (2 * t) <= u'.
Proof. intros H1 H2. rewrite exp_double. pose proof (exp_pos t). nra. Qed.

Lemma exp_upper_base (t u : R) : t < 1 -> 1 <= u * (1 - t) -> exp t <= u.
Proof.
  intros Ht Hu. pose proof (exp_ineq1_le (- t)) as H1.
  pose proof (exp_pos t) as Hp. pose proof (exp_pos (- t)) as Hn.
  assert (E : exp t * exp (- t) = 1).
  { rewrite <- exp_plus. replace (t + - t) with 0 by ring. apply exp_0. }
  assert (H2 : exp t * (1 - t) <= 1) by nra.
  nra.
Qed.

Lemma exp_1838_lower : 6.2832 < exp 1.838.
Proof.
  assert (H0 : 1.000028045654296 <= exp (1.838 / 65536)).
  { pose proof (exp_ineq1_le (1.838 / 65536)). lra. }
  assert (H1 : 1.000056092095150 <= exp (1.838 / 32768)).
  { replace (1.838 / 32768) with (2 * (1.838 / 65536)) by lra.
    apply (exp_lower_step _ 1.000028045654296); [lra | exact H0 | lra]. }
  clear H0.
  assert (H2 : 1.000112187336623 <= exp (1.838 / 16384)).
  { replace (1.838 / 16384) with (2 * (1.838 / 32768)) by lra.
    apply (exp_lower_step _ 1.000056092095150); [lra | exact H1 | lra]. }
  clear H1.
  assert (H3 : 1.000224387259244 <= exp (1.838 / 8192)).
  { replace (1.838 / 8192) with (2 * (1.838 / 16384)) by lra.
    apply (exp_lower_step _ 1.000112187336623); [lra | exact H2 | lra]. }
  clear H2.
  assert (H4 : 1.000448824868130 <= exp (1.838 / 4096)).
  { replace (1.838 / 4096) with (2 * (1.838 / 8192)) by lra.
    apply (exp_lower_step _ 1.000224387259244); [lra | exact H3 | lra]. }
  clear H3.
  assert (H5 : 1.000897851180022 <= exp (1.838 / 2048)).
  { replace (1.838 / 2048) with (2 * (1.838 / 4096)) by lra.
    apply (exp_lower_step _ 1.000448824868130); [lra | exact H4 | lra]. }
  clear H4.
  assert (H6 : 1.001796508496785 <= exp (1.838 / 1024)).
  { replace (1.838 / 1024) with (2 * (1.838 / 2048)) by lra.
    apply (exp_lower_step _ 1.000897851180022); [lra | exact H5 | lra]. }
  clear H5.
  assert (H7 : 1.003596244436349 <= exp (1.838 / 512)).
  { replace (1.838 / 512) with (2 * (1.838 / 1024)) by lra.
    apply (exp_lower_step _ 1.001796508496785); [lra | exact H6 | lra]. }
  clear H6.
  assert (H8 : 1.007205421846743 <= exp (1.838 / 256)).
  { replace (1.838 / 256) with (2 * (1.838 / 512)) by lra.
    apply (exp_lower_step _ 1.003596244436349); [lra | exact H7 | lra]. }
  clear H7.
  assert (H9 : 1.014462761797475 <= exp (1.838 / 128)).
  { replace (1.838 / 128) with (2 * (1.838 / 256)) by lra.
    apply (exp_lower_step _ 1.007205421846743); [lra | exact H8 | lra]. }
  clear H8.
  assert (H10 : 1.029134695073760 <= exp (1.838 / 64)).
  { replace (1.838 / 64) with (2 * (1.838 / 128)) by lra.
    apply (exp_lower_step _ 1.014462761797475); [lra | exact H9 | lra]. }
  clear H9.
  assert (H11 : 1.059118220604560 <= exp (1.838 / 32)).
  { replace (1.838 / 32) with (2 * (1.838 / 64)) by lra.
    apply (exp_lower_step _ 1.029134695073760); [lra | exact H10 | lra]. }
  clear H10.
  assert (H12 : 1.121731405216569 <= exp (1.838 / 16)).
  { replace (1.838 / 16) with (2 * (1.838 / 32)) by lra.
    apply (exp_lower_step _ 1.059118220604560); [lra | exact H11 | lra]. }
  clear H11.
  assert (H13 : 1.258281345449138 <= exp (1.838 / 8)).
  { replace (1.838 / 8) with (2 * (1.838 / 16)) by lra.
    apply (exp_lower_step _ 1.121731405216569); [lra | exact H12 | lra]. }
  clear H12.
  assert (H14 : 1.583271944305292 <= exp (1.838 / 4)).
  { replace (1.838 / 4) with (2 * (1.838 / 8)) by lra.
    apply (exp_lower_step _ 1.258281345449138); [lra | exact H13 | lra]. }
  clear H13.
  assert (H15 : 2.506750049624259 <= exp (1.838 / 2)).
  { replace (1.838 / 2) with (2 * (1.838 / 4)) by lra.
    apply (exp_lower_step _ 1.583271944305292); [lra | exact H14 | lra]. }
  clear H14.
  assert (H16 : 6.283795811291224 <= exp 1.838).
  { replace 1.838 with (2 * (1.838 / 2)) by lra.
    apply (exp_lower_step _ 2.506750049624259); [lra | exact H15 | lra]. }
  clear H15.
  lra.
Qed.

Lemma exp_18376_upper : exp 1.8376 < 6.2830.
Proof.
  assert (H0 : exp (1.8376 / 65536) <= 1.000028040337020).
  { apply exp_upper_base; lra. }
  assert (H1 : exp (1.8376 / 32768) <= 1.000056081460301).
  { replace (1.8376 / 32768) with (2 * (1.8376 / 65536)) by lra.
    apply (exp_upper_step _ 1.000028040337020); [exact H0 | lra]. }
  clear H0.
  assert (H2 : exp (1.8376 / 16384) <= 1.000112166065733).
  { replace (1.8376 / 16384) with (2 * (1.8376 / 32768)) by lra.
    apply (exp_upper_step _ 1.000056081460301); [exact H1 | lra]. }
  clear H1.
  assert (H3 : exp (1.8376 / 8192) <= 1.000224344712693).
  { replace (1.8376 / 8192) with (2 * (1.8376 / 16384)) by lra.
    apply (exp_upper_step _ 1.000112166065733); [exact H2 | lra]. }
  clear H2.
  assert (H4 : exp (1.8376 / 4096) <= 1.000448739755937).
  { replace (1.8376 / 4096) with (2 * (1.8376 / 8192)) by lra.
    apply (exp_upper_step _ 1.000224344712693); [exact H3 | lra]. }
  clear H3.
  assert (H5 : exp (1.8376 / 2048) <= 1.000897680879243).
  { replace (1.8376 / 2048) with (2 * (1.8376 / 4096)) by lra.
    apply (exp_upper_step _ 1.000448739755937); [exact H4 | lra]. }
  clear H4.
  assert (H6 : exp (1.8376 / 1024) <= 1.001796167589447).
  { replace (1.8376 / 1024) with (2 * (1.8376 / 2048)) by lra.
    apply (exp_upper_step _ 1.000897680879243); [exact H5 | lra]. }
  clear H5.
  assert (H7 : exp (1.8376 / 512) <= 1.003595561396904).
  { replace (1.8376 / 512) with (2 * (1.8376 / 1024)) by lra.
    apply (exp_upper_step _ 1.001796167589447); [exact H6 | lra]. }
  clear H6.
  assert (H8 : exp (1.8376 / 256) <= 1.007204050855567).
  { replace (1.8376 / 256) with (2 * (1.8376 / 512)) by lra.
    apply (exp_upper_step _ 1.003595561396904); [exact H7 | lra]. }
  clear H7.
  assert (H9 : exp (1.8376 / 128) <= 1.014460000059864).
  { replace (1.8376 / 128) with (2 * (1.8376 / 256)) by lra.
    apply (exp_upper_step _ 1.007204050855567); [exact H8 | lra]. }
  clear H8.
  assert (H10 : exp (1.8376 / 64) <= 1.029129091721460).
  { replace (1.8376 / 64) with (2 * (1.8376 / 128)) by lra.
    apply (exp_upper_step _ 1.014460000059864); [exact H9 | lra]. }
  clear H9.
  assert (H11 : exp (1.8376 / 32) <= 1.059106687427438).
  { replace (1.8376 / 32) with (2 * (1.8376 / 64)) by lra.
    apply (exp_upper_step _ 1.029129091721460); [exact H10 | lra]. }
  clear H10.
  assert (H12 : exp (1.8376 / 16) <= 1.121706975353521).
  { replace (1.8376 / 16) with (2 * (1.8376 / 32)) by lra.
    apply (exp_upper_step _ 1.059106687427438); [exact H11 | lra]. }
  clear H11.
  assert (H13 : exp (1.8376 / 8) <= 1.258226538556745).
  { replace (1.8376 / 8) with (2 * (1.8376 / 16)) by lra.
    apply (exp_upper_step _ 1.121706975353521); [exact H12 | lra]. }
  clear H12.
  assert (H14 : exp (1.8376 / 4) <= 1.583134022328489).
  { replace (1.8376 / 4) with (2 * (1.8376 / 8)) by lra.
    apply (exp_upper_step _ 1.258226538556745); [exact H13 | lra]. }
  clear H13.
  assert (H15 : exp (1.8376 / 2) <= 2.506313332653981).
  { replace (1.8376 / 2) with (2 * (1.8376 / 4)) by lra.
    apply (exp_upper_step _ 1.583134022328489); [exact H14 | lra]. }
  clear H14.
  assert (H16 : exp 1.8376 <= 6.281606521439105).
  { replace 1.8376 with (2 * (1.8376 / 2)) by lra.
    apply (exp_upper_step _ 2.506313332653981); [exact H15 | lra]. }
  clear H15.
  lra.
Qed.

Lemma ln_sqrt_half (x : R) : 0 < x -> ln (sqrt x) = ln x / 2.
Proof.
  intros Hx. pose proof (sqrt_lt_R0 x Hx) as Hs.
  rewrite <- (sqrt_sqrt x) at 2 by lra. rewrite ln_mult by assumption. lra.
Qed.

Lemma ln_2PI_bounds : 1.8376 < ln (2 * PI) < 1.838.
Proof.
  pose proof PI_bounds as [Hl Hu].
  pose proof exp_1838_lower. pose proof exp_18376_upper.
  split.
  - rewrite <- (ln_exp 1.8376). apply ln_increasing; [apply exp_pos | lra].
  - rewrite <- (ln_exp 1.838). apply ln_increasing; lra.
Qed.

(** [ln (1 / sqrt (2 pi))] is -0.9189 to four decimal places. *)
Lemma standard_density_approx : -0.9190 < ln (1 / sqrt (2 * PI)) < -0.9188.
Proof.
  pose proof ln_2PI_bounds. pose proof PI_bounds.
  rewrite <- norm_pdf_logC_eq. unfold norm_pdf_logC.
  rewrite ln_sqrt_half by lra. lra.
Qed.

Lemma valid_point_unit (y mu var : R) :
  0 <= var -> valid_point 1 1 (array2 [[mu]]) (array2 [[var]]) (array2 [[y]]).
Proof. intros H. split; try reflexivity. ge0. Qed.

(** Claim C8.  For [mean = [[1.0]]], [variance = [[1.0]]],
    [Y_test = [[1.0]]] and [Y_std = 1.0], the mean absolute error and the
    root mean squared error are 0 and ["test_loglik"] is
    [ln (1 / sqrt (2 pi))], which is -0.9189 to four decimals: the
    unclipped log-density already has this value, which lies within the
    clip bounds. *)
Theorem concrete_scenario :
  exists res,
    evaluate (array2 [[1]]) (array2 [[1]]) (array2 [[1]]) (scalar 1) = Ok res /\
    metric "test_mae" res = Some (Fin 0) /\
    metric "test_rmse" res = Some (Fin 0) /\
    metric "test_loglik" res = Some (Fin (ln (1 / sqrt (2 * PI)))) /\
    logpdf_elem (Fin 1) (Fin 1) (Fin 1) = Fin (ln (1 / sqrt (2 * PI))) /\
    ln 1e-12 <= ln (1 / sqrt (2 * PI)) <= ln (1.0 - 1e-12) /\
    -0.9190 < ln (1 / sqrt (2 * PI)) < -0.9188.
Proof.
  rewrite (evaluate_valid Point 1 1 _ _ _ _ (valid_point_unit 1 1 1 ltac:(lra))
             (scalar_std_broadcasts 1 1 (scalar 1) eq_refl)).
  eexists. split; [reflexivity|].
  rewrite metric_mae, metric_rmse, metric_loglik, !mean_over_11.
  pose proof standard_density_in_range as Hr.
  pose proof standard_density_approx as Ha.
  repeat split; try apply Hr; try apply Ha; try apply logpdf_elem_standard.
  - simpl. do 2 f_equal. rewrite Rminus_diag. apply Rabs_R0.
  - simpl. rewrite fpow_half_fin by lra. do 2 f_equal.
    rewrite Rminus_diag, Rmult_0_l. apply sqrt_0.
  - simpl. f_equal. rewrite logpdf_elem_standard. now apply clip_elem_id.
Qed.

(** ** Inputs on which the specification fails *)

Lemma logpdf_elem_zero_variance (y mu : R) : logpdf_elem (Fin y) (Fin mu) (Fin 0) = NaN.
Proof.
  unfold logpdf_elem. rewrite fpow_half_fin, sqrt_0 by lra.
  unfold norm_logpdf1. destruct (Rlt_dec 0 0); [lra | reflexivity].
Qed.


(** Claim C7 fails as stated: with a variance of zero the value that
    enters the average is [nan], which is not within the clip bounds. *)
Lemma nan_density_enters_average :
  let m := array2 [[1]] in
  let v := array2 [[0]] in
  let Y := array2 [[2]] in
  valid_input Point 1 1 m v Y /\
  exists res,
    evaluate m v Y (scalar 1) = Ok res /\
    metric "test_loglik" res =
      Some (mean_over [1%nat; 1%nat] (fun idx =>
              reduce_loglik Point (map clip_elem (densities Point m v Y idx)))) /\
    map clip_elem (densities Point m v Y [0%nat; 0%nat]) = [NaN] /\
    ~ in_clip_range NaN.
Proof.
  simpl. split; [apply valid_point_unit; lra|].
  rewrite (evaluate_valid Point 1 1 _ _ _ _ (valid_point_unit 2 1 0 ltac:(lra))
             (scalar_std_broadcasts 1 1 (scalar 1) eq_refl)).
  eexists. split; [reflexivity|]. rewrite metric_loglik.
  split; [reflexivity|]. split.
  - unfold densities. simpl. now rewrite logpdf_elem_zero_variance, clip_elem_nan.
  - intros (r & H & _). discriminate.
Qed.

(** Claim C2 fails as stated: a mean of shape [1 x 1] and a variance of
    shape [1 x 2] differ in shape, have the same number of dimensions, and
    are evaluated through broadcasting. *)
Lemma shape_mismatch_is_accepted :
  let m := array2 [[1]] in
  let v := array2 [[1; 1]] in
  let Y := array2 [[1]] in
  shape m <> shape v /\
  exists res,
    evaluate m v Y (scalar 1) = Ok res /\
    dom res = metric_keys /\
    metric "test_loglik" res = Some (Fin (ln (1 / sqrt (2 * PI)))).
Proof.
  simpl. split; [discriminate|].
  unfold evaluate, ndim.
  assert (Hge : all_ge0 (array2 [[1; 1]]) = true) by ge0.
  rewrite Hge. simpl. unfold error_metrics, nd_map2. simpl.
  eexists. split; [reflexivity|]. split; [apply dom_metrics_dict|].
  unfold metric. rewrite lookup_insert_ne by done. rewrite lookup_insert_ne by done.
  rewrite lookup_insert_ne by done. rewrite lookup_insert_ne by done.
  rewrite lookup_insert_ne by done. rewrite lookup_insert_eq. do 2 f_equal.
  unfold average, elements. simpl.
  change (fclip (norm_logpdf1 (Fin 1) (Fin 1) (fpow_half (Fin 1))) log_eps log_1_minus_eps)
    with (clip_elem (logpdf_elem (Fin 1) (Fin 1) (Fin 1))).
  rewrite logpdf_elem_standard, clip_elem_id by apply standard_density_in_range.
  rewrite !fsum_cons. change (fsum []) with (Fin 0). simpl.
  rewrite fdiv_nat_fin by lia. f_equal. simpl. field.
Qed.

(** Claim C9 fails as stated: on a test set without points the
    preconditions hold, the log-densities of every test element are
    numbers, there being no element, and both log-likelihoods are [nan],
    the mean of an empty array. *)
Lemma empty_test_set_loglik_is_nan :
  let m := empty_rows 3 in
  let v := empty_rows 3 in
  let Y := empty_rows 3 in
  valid_input Point 0 3 m v Y /\
  (forall idx, Forall2 lt idx [0%nat; 3%nat] ->
     Forall is_fin (densities Point m v Y idx) /\
     Forall is_fin (densities_u Point m v Y (scalar 1) idx)) /\
  exists res,
    evaluate m v Y (scalar 1) = Ok res /\
    metric "test_loglik" res = Some NaN /\
    metric "test_loglik_unnormalized" res = Some NaN /\
    ~ in_clip_range NaN.
Proof.
  cbv zeta.
  assert (Hvalid : valid_input Point 0 3 (empty_rows 3) (empty_rows 3) (empty_rows 3))
    by (split; reflexivity).
  split; [exact Hvalid|]. split.
  - intros idx Hidx. inversion Hidx as [|i n idx' s' Hi _]; subst. lia.
  - rewrite (evaluate_valid Point 0 3 _ _ _ (scalar 1) Hvalid eq_refl).
    eexists. split; [reflexivity|]. rewrite metric_loglik, metric_loglik_u.
    unfold mean_over. simpl size_of. rewrite !fdiv_nat_0.
    repeat split. intros (r & H & _). discriminate.
Qed.

(** Shapes of the same rank that cannot be broadcast pass the assertions
    and fail in [norm.logpdf] with a [ValueError]. *)
Lemma incompatible_shapes_raise_value_error :
  evaluate (array2 [[1; 1]]) (array2 [[1; 1; 1]]) (array2 [[1; 1]]) (scalar 1) =
  Raise ValueError.
Proof.
  unfold evaluate, ndim.
  assert (Hge : all_ge0 (array2 [[1; 1; 1]]) = true) by ge0.
  now rewrite Hge.
Qed.

(** * Further properties of [run] *)

(** ** Scaling of the error metrics, and degenerate inputs *)

Lemma fsum_abs_scaled {A} (d : A -> npfloat) (s : R) (l : list A) :
  fsum (map (fun i => fabs (fmul (d i) (Fin s))) l) =
  fmul (fsum (map (fun i => fabs (d i)) l)) (Fin (Rabs s)).
Proof.
  induction l as [|a l IH].
  - simpl. change (fsum []) with (Fin 0). simpl. f_equal. ring.
  - simpl map. rewrite !fsum_cons, IH.
    destruct (d a) as [x|]; [|reflexivity].
    destruct (fsum (map (fun i => fabs (d i)) l)) as [y|]; [|reflexivity].
    simpl. f_equal. rewrite Rabs_mult. ring.
Qed.

Lemma mae_scaled (s : R) (sh : list nat) (d : list nat -> npfloat) :
  mean_over sh (fun idx => fabs (fmul (d idx) (Fin s))) =
  fmul (mean_over sh (fun idx => fabs (d idx))) (Fin (Rabs s)).
Proof.
  unfold mean_over. rewrite fsum_abs_scaled.
  destruct (fsum (map (fun i => fabs (d i)) (indices sh))) as [x|]; [|reflexivity].
  simpl fmul at 1.
  destruct (Nat.eq_dec (size_of sh) 0%nat) as [->|Hn].
  - now rewrite !fdiv_nat_0.
  - rewrite !fdiv_nat_fin by assumption. simpl. f_equal. unfold Rdiv. ring.
Qed.

Lemma fsquare_scaled_abs (x : npfloat) (s : R) :
  fsquare (fmul x (Fin s)) = fsquare (fmul x (Fin (Rabs s))).
Proof.
  destruct x as [r|]; [|reflexivity]. simpl. f_equal.
  replace (r * s * (r * s)) with (r * r * (s * s)) by ring.
  replace (r * Rabs s * (r * Rabs s)) with (r * r * (Rabs s * Rabs s)) by ring.
  f_equal. unfold Rabs. destruct (Rcase_abs s); ring.
Qed.

Lemma metric_mae_unnormalized a b c d e f :
  metric "test_mae_unnormalized" (metrics_dict a b c d e f) = Some d.
Proof. reflexivity. Qed.

(** Property X1.  With one scalar [Y_std], negative or not, the two
    unnormalized error metrics are the normalized ones multiplied by the
    absolute value of [Y_std], in the point and in the ensemble branch. *)
Theorem error_metrics_scale_by_abs_std (k : prediction_kind) (N D : nat)
    (m v Y Ystd : ndarray) (s : R) :
  valid_input k N D m v Y ->
  shape Ystd = [] -> item Ystd [] = Fin s ->
  exists res mae rmse,
    evaluate m v Y Ystd = Ok res /\
    metric "test_mae" res = Some mae /\
    metric "test_mae_unnormalized" res = Some (fmul mae (Fin (Rabs s))) /\
    metric "test_rmse" res = Some rmse /\
    metric "test_rmse_unnormalized" res = Some (fmul rmse (Fin (Rabs s))).
Proof.
  intros Hvalid Hsh Hitem.
  rewrite (evaluate_valid k N D m v Y Ystd Hvalid (scalar_std_broadcasts N D Ystd Hsh)).
  do 3 eexists. split; [reflexivity|].
  rewrite metric_mae, metric_mae_unnormalized, metric_rmse, metric_rmse_u.
  split; [reflexivity|]. split; [|split; [reflexivity|]]; f_equal.
  - rewrite <- mae_scaled. apply mean_over_ext. intros idx _.
    now rewrite bget_scalar, Hitem.
  - rewrite <- rmse_scaled by apply Rabs_pos. f_equal.
    apply mean_over_ext. intros idx _.
    now rewrite bget_scalar, Hitem, fsquare_scaled_abs.
Qed.

(** Property X2.  A variance with a [nan] element fails the assertion
    [np.all(v >= 0.0)]: [run] raises [AssertionError], whatever the other
    arguments are. *)
Theorem nan_variance_is_rejected (m v Y Ystd : ndarray) (idx : list nat) :
  Forall2 lt idx (shape v) -> item v idx = NaN ->
  evaluate m v Y Ystd = Raise AssertionError.
Proof.
  intros Hidx Hnan. apply evaluate_assertion. unfold input_checks.
  assert (E : all_ge0 v = false).
  { apply not_true_is_false. rewrite all_ge0_spec. intros Hall.
    specialize (Hall idx Hidx). now rewrite Hnan in Hall. }
  rewrite E. apply andb_false_r.
Qed.

Lemma mean_over_empty (s : list nat) (f : list nat -> npfloat) :
  size_of s = 0%nat -> mean_over s f = NaN.
Proof. intros H. unfold mean_over. rewrite H. apply fdiv_nat_0. Qed.

(** Property X3.  A prediction that passes the assertions for a test set
    without points, or without outputs, is evaluated without an exception,
    and each of the six metrics is [nan]. *)
Theorem empty_test_set_gives_nan (k : prediction_kind) (N D : nat)
    (m v Y Ystd : ndarray) :
  valid_input k N D m v Y -> std_broadcasts N D Ystd ->
  (N = 0 \/ D = 0)%nat ->
  exists res,
    evaluate m v Y Ystd = Ok res /\
    dom res = metric_keys /\
    forall key, key ∈ metric_keys -> res !! key = Some (PyFloat NaN).
Proof.
  intros Hvalid Hs Hempty.
  assert (Hsz : size_of [N; D] = 0%nat) by (simpl; destruct Hempty; subst; lia).
  rewrite (evaluate_valid k N D m v Y Ystd Hvalid Hs).
  rewrite !(mean_over_empty [N; D]) by assumption.
  eexists. split; [reflexivity|]. split; [apply dom_metrics_dict|].
  intros key Hkey.
  destruct (metrics_dict_lookup key NaN NaN NaN NaN (fpow_half NaN) (fpow_half NaN) Hkey)
    as (x & Hx & Hcases).
  rewrite Hx. do 2 f_equal.
  destruct Hcases as [->|[->|[->|[->|[->| ->]]]]]; reflexivity.
Qed.

(** ** A scale that is not positive, and the two kinds of error *)

Lemma norm_logpdf1_bad_scale (x loc : npfloat) (c : R) :
  c <= 0 -> norm_logpdf1 x loc (Fin c) = NaN.
Proof.
  intros Hc. unfold norm_logpdf1. destruct x, loc; try reflexivity.
  destruct (Rlt_dec 0 c); [lra | reflexivity].
Qed.

Lemma logpdf_u_elem_bad_std (y mu : npfloat) (var s : R) :
  0 <= var -> s <= 0 -> logpdf_u_elem y mu (Fin var) (Fin s) = NaN.
Proof.
  intros Hvar Hs. unfold logpdf_u_elem. rewrite fpow_half_fin by assumption.
  simpl fmul at 3. apply norm_logpdf1_bad_scale.
  pose proof (sqrt_pos var). nra.
Qed.

Lemma mean_over_nan (s : list nat) (f : list nat -> npfloat) :
  (forall idx, Forall2 lt idx s -> f idx = NaN) -> mean_over s f = NaN.
Proof.
  intros H. unfold mean_over.
  destruct (indices s) as [|idx l] eqn:E.
  - rewrite <- length_indices, E. apply fdiv_nat_0.
  - assert (Hin : In idx (indices s)) by (rewrite E; now left).
    apply in_indices, H in Hin. simpl map. rewrite fsum_cons, Hin. reflexivity.
Qed.

Lemma logsumexp1_nan (xs : list npfloat) : In NaN xs -> logsumexp1 xs = NaN.
Proof.
  intros H. rewrite logsumexp1_lse. unfold lse.
  assert (E : fsum (map fexp xs) = NaN).
  { apply fsum_nan. apply in_map_iff. now exists NaN. }
  now rewrite E.
Qed.

Lemma reduce_loglik_nan (k : prediction_kind) (xs : list npfloat) :
  xs <> [] -> (forall x, In x xs -> x = NaN) -> reduce_loglik k xs = NaN.
Proof.
  intros Hne H. destruct xs as [|x xs]; [congruence|].
  assert (Hx : x = NaN) by (apply H; now left). subst x.
  destruct k; unfold reduce_loglik; [reflexivity|].
  rewrite logsumexp1_nan by (now left). reflexivity.
Qed.

Lemma samples_nonempty (k : prediction_kind) (idx : list nat) :
  (0 < sample_count k)%nat -> samples k idx <> [].
Proof.
  intros H E. apply (f_equal (@length _)) in E. rewrite length_samples in E.
  simpl in E. lia.
Qed.

(** Property X4.  With a scalar [Y_std] that is zero or negative, a
    prediction that passes the assertions is evaluated, and
    ["test_loglik_unnormalized"] is [nan]: the scale handed to
    [norm.logpdf] is not positive. *)
Theorem nonpositive_std_gives_nan_loglik (k : prediction_kind) (N D : nat)
    (m v Y Ystd : ndarray) (s : R) :
  valid_input k N D m v Y ->
  shape Ystd = [] -> item Ystd [] = Fin s -> s <= 0 ->
  exists res,
    evaluate m v Y Ystd = Ok res /\
    metric "test_loglik_unnormalized" res = Some NaN.
Proof.
  intros Hvalid Hsh Hitem Hs.
  rewrite (evaluate_valid k N D m v Y Ystd Hvalid (scalar_std_broadcasts N D Ystd Hsh)).
  eexists. split; [reflexivity|]. rewrite metric_loglik_u. f_equal.
  apply mean_over_nan. intros idx Hidx.
  pose proof (valid_input_samples _ _ _ _ _ _ Hvalid) as HK.
  apply reduce_loglik_nan.
  - unfold densities_u. intros E. apply map_eq_nil, map_eq_nil in E.
    now apply (samples_nonempty k idx HK).
  - intros x Hx. apply in_map_iff in Hx as (d & <- & Hd).
    unfold densities_u in Hd. apply in_map_iff in Hd as (p & <- & Hp).
    destruct (samples_in_range k N D m v Y idx p Hvalid Hidx Hp) as [_ Hpv].
    assert (Hge : all_ge0 v = true) by (destruct k; destruct Hvalid; assumption).
    rewrite all_ge0_spec in Hge. specialize (Hge p Hpv).
    apply fge0_true in Hge as (r & -> & Hr).
    rewrite bget_scalar, Hitem by assumption.
    rewrite logpdf_u_elem_bad_std by assumption. apply clip_elem_nan.
Qed.

Lemma rsum_abs_cross (a : R) (rs : list R) :
  0 <= a ->
  2 * a * rsum (map Rabs rs) <= INR (length rs) * (a * a) + rsum (map (fun r => r * r) rs).
Proof.
  intros Ha. induction rs as [|r rs IH].
  - simpl. lra.
  - change (length (r :: rs)) with (S (length rs)). rewrite S_INR. simpl.
    pose proof (Rabs_pos r) as Hr.
    assert (Hsq : Rabs r * Rabs r = r * r).
    { unfold Rabs. destruct (Rcase_abs r); ring. }
    pose proof (Rle_0_sqr (a - Rabs r)) as Hd. unfold Rsqr in Hd.
    lra.
Qed.

Lemma rsum_abs_nonneg (rs : list R) : 0 <= rsum (map Rabs rs).
Proof.
  induction rs as [|r rs IH]; simpl; [lra|]. pose proof (Rabs_pos r). lra.
Qed.

(** Cauchy-Schwarz against the constant vector. *)
Lemma rsum_abs_square (rs : list R) :
  rsum (map Rabs rs) * rsum (map Rabs rs) <=
  INR (length rs) * rsum (map (fun r => r * r) rs).
Proof.
  induction rs as [|r rs IH].
  - simpl. lra.
  - change (length (r :: rs)) with (S (length rs)). rewrite S_INR. simpl.
    pose proof (rsum_abs_cross (Rabs r) rs (Rabs_pos r)) as Hc.
    assert (Hsq : Rabs r * Rabs r = r * r).
    { unfold Rabs. destruct (Rcase_abs r); ring. }
    pose proof (pos_INR (length rs)).
    nra.
Qed.

Lemma mae_le_rmse (sh : list nat) (f : list nat -> npfloat) (a r : R) :
  mean_over sh (fun idx => fabs (f idx)) = Fin a ->
  fpow_half (mean_over sh (fun idx => fsquare (f idx))) = Fin r ->
  0 <= a <= r.
Proof.
  unfold mean_over. intros Ha Hr.
  destruct (fin_or_nan (map f (indices sh))) as [[rs Hrs]|Hnan].
  - assert (E1 : map (fun idx => fabs (f idx)) (indices sh) = map Fin (map Rabs rs)).
    { rewrite <- (map_map f fabs), Hrs, !map_map. reflexivity. }
    assert (E2 : map (fun idx => fsquare (f idx)) (indices sh) =
                 map Fin (map (fun x => x * x) rs)).
    { rewrite <- (map_map f fsquare), Hrs, !map_map. reflexivity. }
    rewrite E1, fsum_fin in Ha. rewrite E2, fsum_fin in Hr.
    destruct (Nat.eq_dec (size_of sh) 0%nat) as [Hz|Hn].
    { rewrite Hz, fdiv_nat_0 in Ha. discriminate. }
    rewrite fdiv_nat_fin in Ha, Hr by assumption.
    injection Ha as <-.
    assert (Hlen : length rs = size_of sh).
    { rewrite <- length_indices, <- (length_map f), Hrs. now rewrite length_map. }
    assert (Hn' : 0 < INR (size_of sh)) by (apply lt_0_INR; lia).
    pose proof (rsum_abs_nonneg rs) as H1.
    pose proof (rsum_abs_square rs) as H2. rewrite Hlen in H2.
    set (S1 := rsum (map Rabs rs)) in *.
    set (S2 := rsum (map (fun x => x * x) rs)) in *.
    set (n := INR (size_of sh)) in *.
    assert (Hinv : 0 < / n) by now apply Rinv_0_lt_compat.
    assert (Hq : 0 <= S2 / n).
    { apply Rmult_le_pos; [|lra].
      apply Rmult_le_reg_l with n; [assumption|]. nra. }
    rewrite fpow_half_fin in Hr by assumption. injection Hr as <-.
    assert (Ha0 : 0 <= S1 / n) by (apply Rmult_le_pos; lra).
    split; [assumption|].
    rewrite <- (sqrt_square (S1 / n)) by assumption.
    apply sqrt_le_1_alt.
    unfold Rdiv.
    assert (Hnn : n * / n = 1) by (apply Rinv_r; lra).
    replace (S1 * / n * (S1 * / n)) with ((S1 * S1) * (/ n * / n)) by ring.
    replace (S2 * / n) with ((n * S2) * (/ n * / n))
      by (rewrite <- Rmult_assoc, (Rmult_comm n S2), (Rmult_assoc S2), Hnn; ring).
    apply Rmult_le_compat_r; [nra | assumption].
  - assert (E : fsum (map (fun idx => fabs (f idx)) (indices sh)) = NaN).
    { apply fsum_nan. apply in_map_iff in Hnan as (idx & Hf & Hin).
      apply in_map_iff. exists idx. now rewrite Hf. }
    rewrite E in Ha. discriminate.
Qed.

(** Property X5.  Whenever the mean absolute error and the root mean
    squared error returned are both numbers, the first is at least 0 and at
    most the second; the same holds for the unnormalized pair. *)
Theorem mae_is_at_most_rmse (k : prediction_kind) (N D : nat) (m v Y Ystd : ndarray) :
  valid_input k N D m v Y -> std_broadcasts N D Ystd ->
  exists res,
    evaluate m v Y Ystd = Ok res /\
    (forall a r, metric "test_mae" res = Some (Fin a) ->
                 metric "test_rmse" res = Some (Fin r) -> 0 <= a <= r) /\
    (forall a r, metric "test_mae_unnormalized" res = Some (Fin a) ->
                 metric "test_rmse_unnormalized" res = Some (Fin r) -> 0 <= a <= r).
Proof.
  intros Hvalid Hs. rewrite (evaluate_valid k N D m v Y Ystd Hvalid Hs).
  eexists. split; [reflexivity|].
  rewrite metric_mae, metric_rmse, metric_mae_unnormalized, metric_rmse_u.
  split; intros a r [= Ha] [= Hr].
  - exact (mae_le_rmse [N; D] _ a r Ha Hr).
  - exact (mae_le_rmse [N; D] (fun idx => fmul (residual k m Y idx) (bget Ystd idx)) a r Ha Hr).
Qed.

(** ** What the metrics do not depend on *)

(** Property X6.  The four error metrics do not depend on the predicted
    variance: two predictions with the same mean that both pass the
    assertions have the same errors. *)
Theorem error_metrics_ignore_variance (k : prediction_kind) (N D : nat)
    (m v v' Y Ystd : ndarray) :
  valid_input k N D m v Y -> valid_input k N D m v' Y -> std_broadcasts N D Ystd ->
  exists res res',
    evaluate m v Y Ystd = Ok res /\
    evaluate m v' Y Ystd = Ok res' /\
    metric "test_mae" res = metric "test_mae" res' /\
    metric "test_mae_unnormalized" res = metric "test_mae_unnormalized" res' /\
    metric "test_rmse" res = metric "test_rmse" res' /\
    metric "test_rmse_unnormalized" res = metric "test_rmse_unnormalized" res'.
Proof.
  intros Hvalid Hvalid' Hs.
  rewrite (evaluate_valid k N D m v Y Ystd Hvalid Hs).
  rewrite (evaluate_valid k N D m v' Y Ystd Hvalid' Hs).
  do 2 eexists. repeat split; reflexivity.
Qed.

(** Property X7.  ["test_loglik"], ["test_mae"] and ["test_rmse"] do not
    depend on [Y_std]. *)
Theorem normalized_metrics_ignore_std (k : prediction_kind) (N D : nat)
    (m v Y Ystd Ystd' : ndarray) :
  valid_input k N D m v Y -> std_broadcasts N D Ystd -> std_broadcasts N D Ystd' ->
  exists res res',
    evaluate m v Y Ystd = Ok res /\
    evaluate m v Y Ystd' = Ok res' /\
    metric "test_loglik" res = metric "test_loglik" res' /\
    metric "test_mae" res = metric "test_mae" res' /\
    metric "test_rmse" res = metric "test_rmse" res'.
Proof.
  intros Hvalid Hs Hs'.
  rewrite (evaluate_valid k N D m v Y Ystd Hvalid Hs).
  rewrite (evaluate_valid k N D m v Y Ystd' Hvalid Hs').
  do 2 eexists. repeat split; reflexivity.
Qed.

(** Property X8.  The four error metrics of an ensemble prediction are
    those of the point prediction whose mean is the mean of the samples,
    [np.mean(m, axis=0)], whatever valid variance goes with it. *)
Theorem ensemble_errors_are_those_of_the_mean (K N D : nat)
    (m v Y Ystd mbar v' : ndarray) :
  valid_ensemble K N D m v Y -> std_broadcasts N D Ystd ->
  mean_axis0 m = Ok mbar -> valid_point N D mbar v' Y ->
  exists res res',
    evaluate m v Y Ystd = Ok res /\
    evaluate mbar v' Y Ystd = Ok res' /\
    metric "test_mae" res = metric "test_mae" res' /\
    metric "test_mae_unnormalized" res = metric "test_mae_unnormalized" res' /\
    metric "test_rmse" res = metric "test_rmse" res' /\
    metric "test_rmse_unnormalized" res = metric "test_rmse_unnormalized" res'.
Proof.
  intros Hvalid Hs Hmbar Hpoint.
  rewrite (evaluate_valid (Ensemble K) N D m v Y Ystd Hvalid Hs).
  rewrite (evaluate_valid Point N D mbar v' Y Ystd Hpoint Hs).
  unfold mean_axis0 in Hmbar. rewrite (ve_mean _ _ _ _ _ _ Hvalid) in Hmbar.
  injection Hmbar as <-.
  do 2 eexists. repeat split; reflexivity.
Qed.

(** Property X9.  A two-dimensional prediction that passes the assertions
    with targets whose shape cannot be broadcast against the mean is not
    caught by an assertion: [norm.logpdf] raises [ValueError]. *)
Theorem unbroadcastable_target_raises_value_error (m v Y Ystd : ndarray) :
  ndim m = 2%nat -> ndim v = 2%nat -> all_ge0 v = true ->
  broadcast_shapes (shape Y) (shape m) = None ->
  evaluate m v Y Ystd = Raise ValueError.
Proof.
  intros Hm Hv Hge Hb. unfold evaluate. rewrite Hm, Hv, Hge. simpl.
  unfold norm_logpdf. now rewrite Hb.
Qed.


(** ** The order of the samples *)

Lemma fadd_comm (x y : npfloat) : fadd x y = fadd y x.
Proof. destruct x, y; simpl; try reflexivity. f_equal. ring. Qed.

Lemma fadd_assoc (x y z : npfloat) : fadd x (fadd y z) = fadd (fadd x y) z.
Proof. destruct x, y, z; simpl; try reflexivity. f_equal. ring. Qed.

Lemma fsum_Permutation (xs ys : list npfloat) : Permutation xs ys -> fsum xs = fsum ys.
Proof.
  induction 1 as [|x xs ys _ IH|x y xs|xs ys zs _ IH1 _ IH2].
  - reflexivity.
  - now rewrite !fsum_cons, IH.
  - rewrite !fsum_cons, !fadd_assoc. f_equal. apply fadd_comm.
  - congruence.
Qed.

Lemma logsumexp1_Permutation (xs ys : list npfloat) :
  Permutation xs ys -> logsumexp1 xs = logsumexp1 ys.
Proof.
  intros H. rewrite !logsumexp1_lse. unfold lse. f_equal.
  apply fsum_Permutation. now apply Permutation_map.
Qed.

Lemma perm_in_range (perm : list nat) (K i : nat) :
  Permutation perm (seq 0 K) -> (i < K)%nat -> (nth i perm 0 < K)%nat.
Proof.
  intros Hp Hi.
  assert (Hlen : length perm = K) by (rewrite (Permutation_length Hp); apply length_seq).
  assert (Hin : In (nth i perm 0%nat) perm) by (apply nth_In; lia).
  apply (Permutation_in _ Hp), in_seq in Hin. lia.
Qed.

Section Reorder.
Variables (K N D : nat) (m v Y Ystd m' v' : ndarray) (perm : list nat).
Hypothesis Hvalid : valid_ensemble K N D m v Y.
Hypothesis Hs : std_broadcasts N D Ystd.
Hypothesis Hperm : Permutation perm (seq 0 K).
Hypothesis Hm' : take_samples perm m = Ok m'.
Hypothesis Hv' : take_samples perm v = Ok v'.

Lemma perm_length : length perm = K.
Proof. rewrite (Permutation_length Hperm). apply length_seq. Qed.

Lemma take_samples_item (a a' : ndarray) (i : nat) (r : list nat) :
  take_samples perm a = Ok a' -> item a' (i :: r) = item a (nth i perm 0%nat :: r).
Proof.
  unfold take_samples. destruct (shape a); [discriminate|].
  destruct (forallb _ perm); [|discriminate]. now intros [= <-].
Qed.

Lemma take_samples_shape (a a' : ndarray) (s : list nat) :
  shape a = K :: s -> take_samples perm a = Ok a' -> shape a' = K :: s.
Proof.
  intros Ha. unfold take_samples. rewrite Ha.
  destruct (forallb _ perm); [|discriminate]. intros [= <-]. simpl.
  now rewrite perm_length.
Qed.

Lemma reordered_valid : valid_ensemble K N D m' v' Y.
Proof.
  destruct Hvalid as [HK Hm Hv HY Hge]. split; try assumption.
  - now apply (take_samples_shape m).
  - now apply (take_samples_shape v).
  - apply all_ge0_spec. intros idx Hidx.
    rewrite (take_samples_shape v v' [N; D] Hv Hv') in Hidx.
    inversion Hidx as [|i k r s Hi Hr]; subst.
    rewrite (take_samples_item v v' i r Hv').
    rewrite all_ge0_spec in Hge. apply Hge. rewrite Hv.
    constructor; [now apply perm_in_range | assumption].
Qed.

Lemma reordered_samples (A : Type) (g : nat -> A) :
  Permutation (map (fun i => g (nth i perm 0%nat)) (seq 0 K)) (map g (seq 0 K)).
Proof.
  rewrite <- (map_map (fun i => nth i perm 0%nat) g).
  apply Permutation_map. rewrite <- perm_length at 1.
  now rewrite map_nth_seq.
Qed.

Lemma reordered_evaluate : evaluate m' v' Y Ystd = evaluate m v Y Ystd.
Proof.
  rewrite (evaluate_valid (Ensemble K) N D m' v' Y Ystd reordered_valid Hs).
  rewrite (evaluate_valid (Ensemble K) N D m v Y Ystd Hvalid Hs).
  assert (Hll : forall idx, reduce_loglik (Ensemble K)
             (map clip_elem (densities (Ensemble K) m' v' Y idx)) =
           reduce_loglik (Ensemble K)
             (map clip_elem (densities (Ensemble K) m v Y idx))).
  { intros idx. unfold reduce_loglik. f_equal. apply logsumexp1_Permutation.
    apply Permutation_map. unfold densities, samples. rewrite !map_map.
    erewrite map_ext; [apply (reordered_samples _ (fun s =>
      logpdf_elem (item Y idx) (item m (s :: idx)) (item v (s :: idx))))|].
    intros i. simpl.
    now rewrite (take_samples_item m m' i idx Hm'), (take_samples_item v v' i idx Hv'). }
  assert (Hllu : forall idx, reduce_loglik (Ensemble K)
             (map clip_elem (densities_u (Ensemble K) m' v' Y Ystd idx)) =
           reduce_loglik (Ensemble K)
             (map clip_elem (densities_u (Ensemble K) m v Y Ystd idx))).
  { intros idx. unfold reduce_loglik. f_equal. apply logsumexp1_Permutation.
    apply Permutation_map. unfold densities_u, samples. rewrite !map_map.
    erewrite map_ext; [apply (reordered_samples _ (fun s =>
      logpdf_u_elem (item Y idx) (item m (s :: idx)) (item v (s :: idx))
                    (bget Ystd idx)))|].
    intros i. simpl.
    now rewrite (take_samples_item m m' i idx Hm'), (take_samples_item v v' i idx Hv'). }
  assert (Hres : forall idx, residual (Ensemble K) m' Y idx = residual (Ensemble K) m Y idx).
  { intros idx. unfold residual, predictive_mean, column. do 2 f_equal.
    apply fsum_Permutation.
    erewrite map_ext; [apply (reordered_samples _ (fun s => item m (s :: idx)))|].
    intros i. simpl. now rewrite (take_samples_item m m' i idx Hm'). }
  f_equal. apply metrics_dict_congr; try apply (f_equal fpow_half);
    apply mean_over_ext; intros idx _; now rewrite ?Hll, ?Hllu, ?Hres.
Qed.
End Reorder.

(** Property X11.  The result does not depend on the order of the samples
    of an ensemble: reordering mean and variance by the same permutation
    gives the same dictionary. *)
Theorem metrics_invariant_under_sample_order (K N D : nat)
    (m v Y Ystd m' v' : ndarray) (perm : list nat) :
  valid_ensemble K N D m v Y -> std_broadcasts N D Ystd ->
  Permutation perm (seq 0 K) ->
  take_samples perm m = Ok m' -> take_samples perm v = Ok v' ->
  exists res,
    evaluate m v Y Ystd = Ok res /\ evaluate m' v' Y Ystd = Ok res.
Proof.
  intros Hvalid Hs Hperm Hm' Hv'.
  rewrite (reordered_evaluate K N D m v Y Ystd m' v' perm Hvalid Hs Hperm Hm' Hv').
  rewrite (evaluate_valid (Ensemble K) N D m v Y Ystd Hvalid Hs).
  eexists. split; reflexivity.
Qed.

(** ** Mean and variance with different numbers of samples *)

Lemma for_each_app {A St} (xs ys : list A) (body : A -> St -> result St) (st : St) :
  for_each (xs ++ ys) body st = (st' ← for_each xs body st; for_each ys body st').
Proof.
  revert st. induction xs as [|x xs IH]; intros st; simpl; [reflexivity|].
  destruct (body x st) as [st'|e]; simpl; [apply IH | reflexivity].
Qed.

Lemma for_each_ext_in {A St} (xs : list A) (f g : A -> St -> result St) (st : St) :
  (forall x s, In x xs -> f x s = g x s) -> for_each xs f st = for_each xs g st.
Proof.
  revert st. induction xs as [|x xs IH]; intros st H; simpl; [reflexivity|].
  rewrite (H x st) by (now left).
  destruct (g x st) as [st'|e]; simpl; [|reflexivity].
  apply IH. intros y s Hy. apply H. now right.
Qed.

Lemma index0_first_samples (K k n : nat) (s : list nat) (a : ndarray) :
  shape a = k :: s -> (n < K)%nat -> (n < k)%nat ->
  index0 (first_samples K a) n = index0 a n.
Proof.
  intros Ha HK Hk. unfold index0, first_samples. simpl. rewrite Ha.
  destruct (Nat.ltb_spec n (Nat.min K k)); [|lia].
  destruct (Nat.ltb_spec n k); [reflexivity | lia].
Qed.

Lemma sample_step_first_samples_v (K k n : nat) (s : list nat) (m v Y Ystd : ndarray)
    (res : gmap string pyval) :
  shape v = k :: s -> (n < K)%nat -> (n < k)%nat ->
  sample_step m (first_samples K v) Y Ystd n res = sample_step m v Y Ystd n res.
Proof.
  intros Hv HK Hk. unfold sample_step.
  now rewrite !(index0_first_samples K k n s v Hv HK Hk).
Qed.

Lemma sample_step_first_samples_m (K k n : nat) (s : list nat) (m v Y Ystd : ndarray)
    (res : gmap string pyval) :
  shape m = k :: s -> (n < K)%nat -> (n < k)%nat ->
  sample_step (first_samples K m) v Y Ystd n res = sample_step m v Y Ystd n res.
Proof.
  intros Hm HK Hk. unfold sample_step.
  now rewrite !(index0_first_samples K k n s m Hm HK Hk).
Qed.

Lemma all_ge0_first_samples (K k : nat) (s : list nat) (v : ndarray) :
  shape v = k :: s -> all_ge0 v = true -> all_ge0 (first_samples K v) = true.
Proof.
  intros Hv. rewrite !all_ge0_spec. intros H idx Hidx. simpl in *.
  apply H. rewrite Hv in *.
  inversion Hidx as [|i n r s' Hi Hr]; subst. constructor; [lia | assumption].
Qed.

Lemma sample_step_index_error (k kv n : nat) (s s' : list nat) (m v Y Ystd : ndarray)
    (res : gmap string pyval) :
  shape m = k :: s -> shape v = kv :: s' -> (n < k)%nat -> (kv <= n)%nat ->
  sample_step m v Y Ystd n res = Raise IndexError.
Proof.
  intros Hm Hv Hk Hkv. unfold sample_step.
  assert (E : index0 v n = Raise IndexError).
  { unfold index0. rewrite Hv. destruct (Nat.ltb_spec n kv); [lia | reflexivity]. }
  now rewrite (index0_slice m k s n Hm Hk), E.
Qed.

Lemma surplus_variance_ignored (m v Y Ystd : ndarray) (K Kv N D : nat) :
  shape m = [K; N; D] -> shape v = [Kv; N; D] -> all_ge0 v = true ->
  (K <= Kv)%nat -> evaluate m v Y Ystd = evaluate m (first_samples K v) Y Ystd.
Proof.
  intros Hm Hv Hge Hle. unfold evaluate, ndim.
  rewrite (all_ge0_first_samples K Kv [N; D] v Hv Hge), Hge.
  simpl. rewrite Hm, Hv. simpl.
  erewrite for_each_ext_in; [reflexivity|].
  intros n res Hn. apply in_seq in Hn. symmetry.
  apply (sample_step_first_samples_v K Kv n [N; D]); [assumption | lia | lia].
Qed.

(** Property X12.  A variance with fewer samples than the mean passes the
    assertions, which compare the numbers of dimensions only, and the loop
    over the samples of the mean raises [IndexError] at [v[n]]. *)
Theorem variance_with_fewer_samples_raises_index_error (K Kv N D : nat)
    (m v Y Ystd : ndarray) :
  shape m = [K; N; D] -> shape v = [Kv; N; D] -> shape Y = [N; D] ->
  std_broadcasts N D Ystd -> all_ge0 v = true ->
  (Kv < K)%nat ->
  evaluate m v Y Ystd = Raise IndexError.
Proof.
  intros Hm Hv HY Hs Hge Hlt. unfold evaluate, ndim. rewrite Hm, Hv, Hge. simpl.
  replace K with (Kv + (K - Kv))%nat by lia.
  rewrite seq_app, for_each_app.
  rewrite (for_each_ext_in (seq 0 Kv) _
             (sample_step (first_samples Kv m) v Y Ystd)).
  2:{ intros n res Hn. apply in_seq in Hn. symmetry.
      apply (sample_step_first_samples_m Kv K n [N; D]); [assumption | lia | lia]. }
  change (<["test_loglik_unnormalized":=PyList []]> (<["test_loglik":=PyList []]> ∅))
    with (acc_dict [] []).
  rewrite (sample_loop_ok (first_samples Kv m) v Y Ystd Kv N D); try assumption.
  - rewrite bind_Ok. destruct (K - Kv)%nat as [|n] eqn:E; [lia|].
    simpl seq. simpl for_each.
    now rewrite (sample_step_index_error K Kv Kv [N; D] [N; D] m v Y Ystd _ Hm Hv Hlt).
  - simpl. rewrite Hm. f_equal. lia.
  - simpl. lia.
Qed.

(** Property X13.  A variance with more samples than the mean is accepted,
    and the samples beyond those of the mean are never read: the result is
    that of the variance cut to the samples of the mean. *)
Theorem surplus_variance_samples_are_ignored (K Kv N D : nat) (m v Y Ystd : ndarray) :
  shape m = [K; N; D] -> shape v = [Kv; N; D] -> shape Y = [N; D] ->
  std_broadcasts N D Ystd -> all_ge0 v = true ->
  (0 < K)%nat -> (K <= Kv)%nat ->
  exists res,
    evaluate m v Y Ystd = Ok res /\
    evaluate m (first_samples K v) Y Ystd = Ok res.
Proof.
  intros Hm Hv HY Hs Hge HK Hle.
  rewrite (surplus_variance_ignored m v Y Ystd K Kv N D Hm Hv Hge Hle).
  assert (Hvalid : valid_ensemble K N D m (first_samples K v) Y).
  { split; try assumption.
    - simpl. rewrite Hv. f_equal. lia.
    - now apply (all_ge0_first_samples K Kv [N; D]). }
  rewrite (evaluate_valid (Ensemble K) N D m _ Y Ystd Hvalid Hs).
  eexists. split; reflexivity.
Qed.

(** ** The arguments of [run] *)

Lemma ConvertToNamespace_lookups (adict : gmap string pyval) :
  (ConvertToNamespace adict).2 !! "seed" = Some (PyInt 0) /\
  (ConvertToNamespace adict).2 !! "split" = Some (PyInt 0) /\
  (forall key, key <> "seed" -> key <> "split" ->
     (ConvertToNamespace adict).2 !! key = adict !! key).
Proof.
  unfold ConvertToNamespace. cbv zeta. simpl snd. rewrite !(right_id_L ∅ (∪)).
  set (forced := <["seed" := PyInt 0]> (<["split" := PyInt 0]> ∅) : gmap string pyval).
  split; [now apply lookup_union_Some_l|].
  split; [now apply lookup_union_Some_l|].
  intros key H1 H2. apply lookup_union_r. unfold forced.
  rewrite lookup_insert_ne by congruence. rewrite lookup_insert_ne by congruence.
  apply lookup_empty.
Qed.

(** Property X14.  [ConvertToNamespace] sets [seed] and [split] to 0,
    overriding the caller's values, and keeps every other entry; the keys
    of the namespace are those of the dictionary with [seed] and [split];
    the caller's dictionary is changed to the same content; converting the
    result again changes nothing. *)
Theorem ConvertToNamespace_forces_seed_and_split (adict : gmap string pyval) :
  let '(adict', ns) := ConvertToNamespace adict in
  ns !! "seed" = Some (PyInt 0) /\
  ns !! "split" = Some (PyInt 0) /\
  (forall key, key <> "seed" -> key <> "split" -> ns !! key = adict !! key) /\
  dom ns = {["seed"; "split"]} ∪ dom adict /\
  adict' = ns /\
  ConvertToNamespace ns = (ns, ns).
Proof.
  pose proof (ConvertToNamespace_lookups adict) as (Hseed & Hsplit & Hother).
  unfold ConvertToNamespace in *. cbv zeta in *. simpl snd in *.
  rewrite !(right_id_L ∅ (∪)) in *.
  set (forced := <["seed" := PyInt 0]> (<["split" := PyInt 0]> ∅) : gmap string pyval) in *.
  split; [assumption|]. split; [assumption|]. split; [assumption|].
  split; [rewrite dom_union_L; now f_equal|].
  split; [reflexivity|].
  f_equal; now rewrite (assoc_L (∪)), (idemp_L (∪) forced).
Qed.

(** Property X15.  In test mode [run] does not depend on the database.
    Outside of test mode it raises what test mode raises; when test mode
    returns, then without a [database_path] among the arguments it raises
    [AttributeError], and with one the row written to the table
    [regression] is the metrics updated with the arguments, in which an
    argument overrides a metric of the same name: an exception of the
    write is raised, and after a write that completes the row is
    returned. *)
Theorem run_outside_test_mode_stores_the_merge (database : Database)
    (ARGS : gmap string pyval) (data : Data) (model : Model) :
  (forall database',
     run database' ARGS data model true = run database ARGS data model true) /\
  (forall e, run database ARGS data model true = Raise e ->
     run database ARGS data model false = Raise e) /\
  (forall res, run database ARGS data model true = Ok res ->
     let row := ARGS ∪ res in
     (forall key x, ARGS !! key = Some x -> row !! key = Some x) /\
     (forall key, ARGS !! key = None -> row !! key = res !! key) /\
     match ARGS !! "database_path" with
     | None => run database ARGS data model false = Raise AttributeError
     | Some path =>
         match database path "regression" row with
         | Ok _ => run database ARGS data model false = Ok row
         | Raise e => run database ARGS data model false = Raise e
         end
     end).
Proof.
  unfold run, getattr.
  destruct (predict model (fit model (X_train data) (Y_train data)) (X_test data))
    as [m v].
  destruct (evaluate m v (Y_test data) (Y_std data)) as [r|e']; simpl.
  - split; [reflexivity|]. split; [discriminate|].
    intros res [= <-]. split; [|split].
    + intros key x H. now apply lookup_union_Some_l.
    + intros key H. now apply lookup_union_r.
    + destruct (ARGS !! "database_path") as [path|]; simpl; [|reflexivity].
      now destruct (database path "regression" (ARGS ∪ r)).
  - split; [reflexivity|]. split; [tauto | discriminate].
Qed.

Lemma run_with_database_path (database : Database) (ARGS : gmap string pyval)
    (data : Data) (model : Model) (res : gmap string pyval) (path : pyval) :
  ARGS !! "database_path" = Some path ->
  run database ARGS data model true = Ok res ->
  database path "regression" (ARGS ∪ res) = Ok tt ->
  run database ARGS data model false = Ok (ARGS ∪ res).
Proof.
  unfold run, getattr. intros Hpath.
  destruct (predict model (fit model (X_train data) (Y_train data)) (X_test data))
    as [m v].
  destruct (evaluate m v (Y_test data) (Y_std data)) as [r|e]; simpl; [|discriminate].
  intros [= <-] Hwrite. now rewrite Hpath, bind_Ok, Hwrite.
Qed.

Lemma run_without_database_path (database : Database) (ARGS : gmap string pyval)
    (data : Data) (model : Model) (res : gmap string pyval) :
  ARGS !! "database_path" = None ->
  run database ARGS data model true = Ok res ->
  run database ARGS data model false = Raise AttributeError.
Proof.
  unfold run, getattr. intros Hpath.
  destruct (predict model (fit model (X_train data) (Y_train data)) (X_test data))
    as [m v].
  destruct (evaluate m v (Y_test data) (Y_std data)) as [r|e]; simpl; [|discriminate].
  intros _. now rewrite Hpath.
Qed.

(** Property X16.  For arguments built by [ConvertToNamespace] from a
    dictionary that has a [database_path] and no metric name among its
    keys, and a database whose writes at that path complete, the result
    outside of test mode holds the six metrics of test mode unchanged,
    [seed] and [split] as 0, and the other entries of the dictionary. *)
Theorem namespace_arguments_keep_the_metrics (database : Database)
    (d : gmap string pyval) (data : Data) (model : Model)
    (res : gmap string pyval) (path : pyval) :
  dom d ## metric_keys ->
  d !! "database_path" = Some path ->
  (forall row, database path "regression" row = Ok tt) ->
  run database (ConvertToNamespace d).2 data model true = Ok res ->
  exists res',
    run database (ConvertToNamespace d).2 data model false = Ok res' /\
    (forall key, key ∈ metric_keys -> res' !! key = res !! key) /\
    res' !! "seed" = Some (PyInt 0) /\
    res' !! "split" = Some (PyInt 0) /\
    (forall key x, key <> "seed" -> key <> "split" -> d !! key = Some x ->
       res' !! key = Some x).
Proof.
  intros Hdisj Hpath Hwrite Hrun.
  pose proof (ConvertToNamespace_lookups d) as (Hseed & Hsplit & Hother).
  set (ns := (ConvertToNamespace d).2) in *.
  assert (Hns : ns !! "database_path" = Some path)
    by (rewrite Hother; [assumption | discriminate | discriminate]).
  exists (ns ∪ res).
  split; [exact (run_with_database_path database ns data model res path Hns Hrun
                   (Hwrite _))|].
  split; [|split; [now apply lookup_union_Some_l|split; [now apply lookup_union_Some_l|]]].
  - intros key Hkey. apply lookup_union_r.
    rewrite Hother.
    + apply not_elem_of_dom. intros Hin. apply (Hdisj key Hin Hkey).
    + intros ->. apply metric_keys_cases in Hkey.
      destruct Hkey as [H|[H|[H|[H|[H|H]]]]]; discriminate.
    + intros ->. apply metric_keys_cases in Hkey.
      destruct Hkey as [H|[H|[H|[H|[H|H]]]]]; discriminate.
  - intros key x H1 H2 Hd. apply lookup_union_Some_l. now rewrite Hother.
Qed.

(** Property X22.  Arguments built by [ConvertToNamespace] from a
    dictionary without a [database_path], as [test_regression] builds
    them, serve in test mode only: whenever [run] returns in test mode, it
    raises [AttributeError] outside of it, whatever the database is. *)
Theorem namespace_without_database_path_raises (database : Database)
    (d : gmap string pyval) (data : Data) (model : Model)
    (res : gmap string pyval) :
  d !! "database_path" = None ->
  run database (ConvertToNamespace d).2 data model true = Ok res ->
  run database (ConvertToNamespace d).2 data model false = Raise AttributeError.
Proof.
  intros Hpath.
  pose proof (ConvertToNamespace_lookups d) as (_ & _ & Hother).
  assert (Hns : (ConvertToNamespace d).2 !! "database_path" = None)
    by (rewrite Hother; [assumption | discriminate | discriminate]).
  now apply run_without_database_path.
Qed.

(** ** The mixture against its members *)

Lemma rsum_exp_shift_lower (M : R) (rs : list R) :
  INR (length rs) + rsum rs - INR (length rs) * M <=
  rsum (map (fun x => exp (x - M)) rs).
Proof.
  induction rs as [|r rs IH].
  - simpl. lra.
  - change (length (r :: rs)) with (S (length rs)). rewrite S_INR. simpl.
    pose proof (exp_ineq1_le (r - M)). lra.
Qed.

(** Jensen's inequality for the logarithm of a mean of exponentials. *)
Lemma lse_minus_log_jensen (rs : list R) :
  rs <> [] ->
  exists y, lse_minus_log (map Fin rs) = Fin y /\
            rsum rs / INR (length rs) <= y.
Proof.
  intros Hne. rewrite lse_minus_log_mixture. unfold mixture_logdensity.
  rewrite map_fexp_fin, fsum_fin, length_map.
  rewrite fdiv_nat_fin by (now apply length_nonzero).
  pose proof (INR_length_pos _ Hne) as HK.
  pose proof (rsum_exp_pos rs Hne) as Hpos.
  set (K := INR (length rs)) in *.
  set (mu := rsum rs / K).
  assert (Hinv : 0 < / K) by now apply Rinv_0_lt_compat.
  assert (Hq : 0 < rsum (map exp rs) / K) by (apply Rmult_lt_0_compat; assumption).
  rewrite flog_fin by assumption.
  eexists; split; [reflexivity|].
  rewrite <- (ln_exp mu). apply ln_le_compat; [apply exp_pos|].
  pose proof (rsum_exp_shift_lower mu rs) as Hl. fold K in Hl.
  rewrite rsum_exp_shift in Hl.
  assert (Hmu : K * mu = rsum rs).
  { unfold mu, Rdiv. rewrite <- Rmult_assoc, (Rmult_comm K), Rmult_assoc, Rinv_r by lra.
    ring. }
  assert (Hge : K <= rsum (map exp rs) * exp (- mu)) by lra.
  pose proof (exp_pos mu) as Hem. pose proof (exp_pos (- mu)) as Hen.
  assert (Hone : exp mu * exp (- mu) = 1).
  { rewrite <- exp_plus. replace (mu + - mu) with 0 by ring. apply exp_0. }
  assert (Hk : K * exp mu <= rsum (map exp rs)).
  { replace (rsum (map exp rs)) with (rsum (map exp rs) * exp (- mu) * exp mu)
      by (rewrite Rmult_assoc, (Rmult_comm (exp (- mu))), Hone; ring).
    apply Rmult_le_compat_r; lra. }
  apply Rmult_le_reg_l with K; [assumption|].
  unfold Rdiv. rewrite (Rmult_comm (rsum (map exp rs))), <- Rmult_assoc, Rinv_r by lra.
  lra.
Qed.

Lemma rsum_le {A} (f g : A -> R) (l : list A) :
  (forall x, In x l -> f x <= g x) -> rsum (map f l) <= rsum (map g l).
Proof.
  induction l as [|x l IH]; intros H; simpl; [lra|].
  pose proof (H x (or_introl eq_refl)).
  assert (rsum (map f l) <= rsum (map g l)) by (apply IH; intros; apply H; now right).
  lra.
Qed.

Lemma rsum_scale {A} (c : R) (f : A -> R) (l : list A) :
  rsum (map (fun x => f x * c) l) = rsum (map f l) * c.
Proof. induction l as [|x l IH]; simpl; [ring | rewrite IH; ring]. Qed.

Lemma rsum_plus {A} (f g : A -> R) (l : list A) :
  rsum (map (fun x => f x + g x) l) = rsum (map f l) + rsum (map g l).
Proof. induction l as [|x l IH]; simpl; [ring | rewrite IH; ring]. Qed.

Lemma rsum_zero {A} (l : list A) : rsum (map (fun _ => 0) l) = 0.
Proof. induction l as [|x l IH]; simpl; [reflexivity | rewrite IH; ring]. Qed.

(** Two nested sums may be exchanged. *)
Lemma rsum_exchange {A B} (c : A -> B -> R) (la : list A) (lb : list B) :
  rsum (map (fun a => rsum (map (c a) lb)) la) =
  rsum (map (fun b => rsum (map (fun a => c a b) la)) lb).
Proof.
  induction la as [|a la IH]; simpl.
  - now rewrite rsum_zero.
  - now rewrite IH, rsum_plus.
Qed.

Lemma map_to_real (A : Type) (f : A -> npfloat) (l : list A) :
  (forall x, In x l -> is_fin (f x)) ->
  map f l = map Fin (map (fun x => to_real (f x)) l).
Proof.
  intros H. rewrite map_map. apply map_ext_in. intros x Hx.
  specialize (H x Hx). destruct (f x); [reflexivity | contradiction].
Qed.

Lemma mean_over_to_real (s : list nat) (f : list nat -> npfloat) :
  size_of s <> 0%nat ->
  (forall idx, Forall2 lt idx s -> is_fin (f idx)) ->
  mean_over s f =
  Fin (rsum (map (fun idx => to_real (f idx)) (indices s)) / INR (size_of s)).
Proof.
  intros Hsz H. unfold mean_over.
  rewrite (map_to_real _ f) by (intros idx Hidx; now apply H, in_indices).
  now rewrite fsum_fin, fdiv_nat_fin.
Qed.

Lemma valid_point_sample (K N D s : nat) (m v Y : ndarray) :
  valid_ensemble K N D m v Y -> (s < K)%nat ->
  valid_point N D (slice [N; D] m s) (slice [N; D] v s) Y.
Proof.
  intros [HK Hm Hv HY Hge] Hs. split; try reflexivity; try assumption.
  apply all_ge0_spec. intros idx Hidx. simpl in *.
  rewrite all_ge0_spec in Hge. apply Hge. rewrite Hv. now constructor.
Qed.

Section Members.
Variables (K N D : nat) (m v Y Ystd : ndarray).
Hypothesis Hvalid : valid_ensemble K N D m v Y.
Hypothesis Hs : std_broadcasts N D Ystd.
Hypothesis HN : (0 < N)%nat.
Hypothesis HD : (0 < D)%nat.
Hypothesis Hdef : forall idx, Forall2 lt idx [N; D] ->
  Forall is_fin (densities (Ensemble K) m v Y idx).

Lemma member_loglik_fin (s : nat) (idx : list nat) :
  (s < K)%nat -> Forall2 lt idx [N; D] -> is_fin (member_loglik m v Y s idx).
Proof.
  intros Hlt Hidx. apply in_clip_range_fin, clip_elem_defined.
  specialize (Hdef idx Hidx). rewrite List.Forall_forall in Hdef. apply Hdef.
  unfold densities, samples. rewrite map_map. apply in_map_iff.
  exists s. split; [reflexivity | apply in_seq; lia].
Qed.

Lemma mixture_value_members (idx : list nat) :
  mixture_value K m v Y idx =
  lse_minus_log (map (fun s => member_loglik m v Y s idx) (seq 0 K)).
Proof.
  unfold mixture_value, reduce_loglik, densities, samples. rewrite !map_map.
  rewrite <- logsumexp1_minus_log, length_map, length_seq. reflexivity.
Qed.

Lemma mixture_above_members (idx : list nat) :
  Forall2 lt idx [N; D] ->
  is_fin (mixture_value K m v Y idx) /\
  rsum (map (fun s => to_real (member_loglik m v Y s idx)) (seq 0 K)) / INR K <=
  to_real (mixture_value K m v Y idx).
Proof.
  intros Hidx. rewrite mixture_value_members.
  rewrite (map_to_real _ (fun s => member_loglik m v Y s idx))
    by (intros s Hin; apply in_seq in Hin; apply member_loglik_fin; [lia | assumption]).
  set (rs := map (fun s => to_real (member_loglik m v Y s idx)) (seq 0 K)).
  assert (Hlen : length rs = K) by (unfold rs; now rewrite length_map, length_seq).
  assert (Hne : rs <> []).
  { intros E. rewrite E in Hlen. simpl in Hlen. destruct Hvalid. lia. }
  destruct (lse_minus_log_jensen rs Hne) as (y & Hy & Hle).
  rewrite Hy. simpl. now rewrite Hlen in Hle.
Qed.

Lemma members_average_below_mixture :
  rsum (map (fun s =>
          rsum (map (fun idx => to_real (member_loglik m v Y s idx)) (indices [N; D]))
          / INR (size_of [N; D])) (seq 0 K)) / INR K <=
  rsum (map (fun idx => to_real (mixture_value K m v Y idx)) (indices [N; D]))
  / INR (size_of [N; D]).
Proof.
  pose proof (size_of_ND N D HN HD) as Hsz.
  assert (Hn : 0 < INR (size_of [N; D])) by (apply lt_0_INR; lia).
  assert (HK : 0 < INR K) by (destruct Hvalid; now apply lt_0_INR).
  assert (Hin : 0 < / INR (size_of [N; D])) by now apply Rinv_0_lt_compat.
  unfold Rdiv at 2. rewrite rsum_scale, rsum_exchange.
  unfold Rdiv.
  rewrite Rmult_assoc, (Rmult_comm (/ INR (size_of [N; D]))), <- Rmult_assoc.
  apply Rmult_le_compat_r; [lra|].
  rewrite <- rsum_scale. apply rsum_le. intros idx Hidx.
  apply in_indices in Hidx. now apply mixture_above_members.
Qed.

Lemma mixture_metric :
  exists res,
    evaluate m v Y Ystd = Ok res /\
    metric "test_loglik" res =
      Some (Fin (rsum (map (fun idx => to_real (mixture_value K m v Y idx))
                           (indices [N; D]))
                 / INR (size_of [N; D]))).
Proof.
  rewrite (evaluate_valid (Ensemble K) N D m v Y Ystd Hvalid Hs).
  eexists. split; [reflexivity|]. rewrite metric_loglik. f_equal.
  apply (mean_over_to_real [N; D] (mixture_value K m v Y) (size_of_ND N D HN HD)).
  intros idx Hidx. now apply mixture_above_members.
Qed.

Lemma member_metric (s : nat) :
  (s < K)%nat ->
  exists res_s,
    evaluate (slice [N; D] m s) (slice [N; D] v s) Y Ystd = Ok res_s /\
    metric "test_loglik" res_s =
      Some (Fin (rsum (map (fun idx => to_real (member_loglik m v Y s idx))
                           (indices [N; D]))
                 / INR (size_of [N; D]))).
Proof.
  intros Hlt.
  rewrite (evaluate_valid Point N D _ _ Y Ystd
             (valid_point_sample K N D s m v Y Hvalid Hlt) Hs).
  eexists. split; [reflexivity|]. rewrite metric_loglik. f_equal.
  apply (mean_over_to_real [N; D] (member_loglik m v Y s) (size_of_ND N D HN HD)).
  intros idx Hidx. now apply member_loglik_fin.
Qed.
End Members.

(** Property X17.  For an ensemble whose log-densities are all defined, on
    a non-empty test set, ["test_loglik"] is at least the average over the
    samples of the ["test_loglik"] that [run] returns for each sample taken
    alone as a point prediction. *)
Theorem mixture_at_least_average_member (K N D : nat) (m v Y Ystd : ndarray) :
  valid_ensemble K N D m v Y -> std_broadcasts N D Ystd ->
  (0 < N)%nat -> (0 < D)%nat ->
  (forall idx, Forall2 lt idx [N; D] ->
     Forall is_fin (densities (Ensemble K) m v Y idx)) ->
  exists res (L : R) (l : nat -> R),
    evaluate m v Y Ystd = Ok res /\
    metric "test_loglik" res = Some (Fin L) /\
    (forall s, (s < K)%nat ->
       exists ms vs res_s,
         index0 m s = Ok ms /\ index0 v s = Ok vs /\
         evaluate ms vs Y Ystd = Ok res_s /\
         metric "test_loglik" res_s = Some (Fin (l s))) /\
    rsum (map l (seq 0 K)) / INR K <= L.
Proof.
  intros Hvalid Hs HN HD Hdef.
  destruct (mixture_metric K N D m v Y Ystd Hvalid Hs HN HD Hdef) as (res & Hres & Hll).
  exists res. eexists _, (fun s => _).
  split; [exact Hres|]. split; [exact Hll|]. split.
  - intros s Hlt.
    destruct (member_metric K N D m v Y Ystd Hvalid Hs HN HD Hdef s Hlt)
      as (res_s & H1 & H2).
    exists (slice [N; D] m s), (slice [N; D] v s), res_s.
    rewrite (index0_slice m K [N; D] s (ve_mean _ _ _ _ _ _ Hvalid) Hlt).
    rewrite (index0_slice v K [N; D] s (ve_variance _ _ _ _ _ _ Hvalid) Hlt).
    repeat split; [exact H1 | exact H2].
  - exact (members_average_below_mixture K N D m v Y Hvalid HN HD Hdef).
Qed.

(** ** Saturation of the log-likelihood at the clip bounds *)

Lemma clip_elem_above (r : R) : hi <= r -> clip_elem (Fin r) = Fin hi.
Proof.
  intros H. unfold clip_elem. rewrite fclip_fin. f_equal.
  pose proof lo_lt_hi. rewrite Rmax_left by lra. now apply Rmin_left.
Qed.

Lemma clip_elem_below (r : R) : r <= lo -> clip_elem (Fin r) = Fin lo.
Proof.
  intros H. unfold clip_elem. rewrite fclip_fin. f_equal.
  pose proof lo_lt_hi. rewrite Rmax_right by lra. apply Rmin_right. lra.
Qed.

Lemma mean_over_const (c : R) (s : list nat) (f : list nat -> npfloat) :
  size_of s <> 0%nat ->
  (forall idx, Forall2 lt idx s -> f idx = Fin c) ->
  mean_over s f = Fin c.
Proof.
  intros Hsz H.
  destruct (mean_over_bounds c c s f Hsz) as (y & -> & Hy).
  - intros idx Hidx. exists c. split; [now apply H | lra].
  - f_equal. lra.
Qed.

Lemma constant_list {A} (c : A) (xs : list A) (n : nat) :
  (forall x, In x xs -> x = c) -> xs = map (fun _ => c) (seq n (length xs)).
Proof.
  revert n. induction xs as [|x xs IH]; intros n H; simpl; [reflexivity|].
  rewrite (H x) by (now left). f_equal. apply IH. intros y Hy. apply H. now right.
Qed.

Lemma reduce_loglik_const (k : prediction_kind) (c : npfloat) (xs : list npfloat) :
  (0 < sample_count k)%nat -> length xs = sample_count k ->
  (forall x, In x xs -> x = c) -> reduce_loglik k xs = c.
Proof.
  intros Hk Hlen H. destruct k as [|K]; simpl in *.
  - destruct xs as [|x xs]; [discriminate|]. simpl. apply H. now left.
  - rewrite (constant_list c xs 0 H), Hlen. now apply lse_minus_log_const.
Qed.

Section Saturation.
Variables (k : prediction_kind) (N D : nat) (m v Y Ystd : ndarray).
Variables (P : R -> Prop) (c : R).
Hypothesis Hvalid : valid_input k N D m v Y.
Hypothesis Hs : std_broadcasts N D Ystd.
Hypothesis HN : (0 < N)%nat.
Hypothesis HD : (0 < D)%nat.
Hypothesis Hclip : forall r, P r -> clip_elem (Fin r) = Fin c.
Hypothesis Hdens : forall idx, Forall2 lt idx [N; D] ->
  Forall (fun d => exists r, d = Fin r /\ P r) (densities k m v Y idx).

Lemma saturated_loglik :
  exists res,
    evaluate m v Y Ystd = Ok res /\ metric "test_loglik" res = Some (Fin c).
Proof.
  rewrite (evaluate_valid k N D m v Y Ystd Hvalid Hs).
  eexists. split; [reflexivity|]. rewrite metric_loglik. f_equal.
  apply mean_over_const; [now apply size_of_ND|].
  intros idx Hidx. apply reduce_loglik_const.
  - exact (valid_input_samples _ _ _ _ _ _ Hvalid).
  - unfold densities. now rewrite !length_map, length_samples.
  - intros x Hx. apply in_map_iff in Hx as (d & <- & Hd).
    specialize (Hdens idx Hidx). rewrite List.Forall_forall in Hdens.
    destruct (Hdens d Hd) as (r & -> & Hr). now apply Hclip.
Qed.
End Saturation.

(** Property X18.  When every log-density of a prediction on a non-empty
    test set is at least [log(1 - 1e-12)], that is when every density is
    at least [1 - 1e-12], ["test_loglik"] is [log(1 - 1e-12)] exactly,
    whatever the densities are. *)
Theorem loglik_saturates_above (k : prediction_kind) (N D : nat)
    (m v Y Ystd : ndarray) :
  valid_input k N D m v Y -> std_broadcasts N D Ystd ->
  (0 < N)%nat -> (0 < D)%nat ->
  (forall idx, Forall2 lt idx [N; D] ->
     Forall (fun d => exists r, d = Fin r /\ ln (1.0 - 1e-12) <= r)
            (densities k m v Y idx)) ->
  exists res,
    evaluate m v Y Ystd = Ok res /\
    metric "test_loglik" res = Some (Fin (ln (1.0 - 1e-12))).
Proof.
  intros Hvalid Hs HN HD Hdens.
  exact (saturated_loglik k N D m v Y Ystd (fun r => hi <= r) hi Hvalid Hs HN HD
           clip_elem_above Hdens).
Qed.

(** Property X19.  When every log-density of a prediction on a non-empty
    test set is at most [log(1e-12)], ["test_loglik"] is [log(1e-12)]
    exactly: the metric does not tell such predictions apart. *)
Theorem loglik_saturates_below (k : prediction_kind) (N D : nat)
    (m v Y Ystd : ndarray) :
  valid_input k N D m v Y -> std_broadcasts N D Ystd ->
  (0 < N)%nat -> (0 < D)%nat ->
  (forall idx, Forall2 lt idx [N; D] ->
     Forall (fun d => exists r, d = Fin r /\ r <= ln 1e-12)
            (densities k m v Y idx)) ->
  exists res,
    evaluate m v Y Ystd = Ok res /\
    metric "test_loglik" res = Some (Fin (ln 1e-12)).
Proof.
  intros Hvalid Hs HN HD Hdens.
  exact (saturated_loglik k N D m v Y Ystd (fun r => r <= lo) lo Hvalid Hs HN HD
           clip_elem_below Hdens).
Qed.

(** ** [Y_std] equal to one *)

Lemma fmul_1_r (x : npfloat) : fmul x (Fin 1) = x.
Proof. destruct x; simpl; [f_equal; ring | reflexivity]. Qed.

Lemma logpdf_u_elem_unit (y mu var : npfloat) :
  logpdf_u_elem y mu var (Fin 1) = logpdf_elem y mu var.
Proof. unfold logpdf_u_elem, logpdf_elem. now rewrite !fmul_1_r. Qed.

(** Property X20.  With the scalar [Y_std = 1.0] of [RegressionDataMock],
    each unnormalized metric equals the normalized one, in both
    branches. *)
Theorem unit_std_metrics_coincide (k : prediction_kind) (N D : nat)
    (m v Y Ystd : ndarray) :
  valid_input k N D m v Y ->
  shape Ystd = [] -> item Ystd [] = Fin 1 ->
  exists res,
    evaluate m v Y Ystd = Ok res /\
    metric "test_loglik_unnormalized" res = metric "test_loglik" res /\
    metric "test_mae_unnormalized" res = metric "test_mae" res /\
    metric "test_rmse_unnormalized" res = metric "test_rmse" res.
Proof.
  intros Hvalid Hsh Hitem.
  rewrite (evaluate_valid k N D m v Y Ystd Hvalid (scalar_std_broadcasts N D Ystd Hsh)).
  eexists. split; [reflexivity|].
  rewrite metric_loglik, metric_loglik_u, metric_mae, metric_mae_unnormalized,
    metric_rmse, metric_rmse_u.
  split; [|split]; f_equal; try apply (f_equal fpow_half);
    apply mean_over_ext; intros idx _.
  - unfold densities_u, densities. do 2 f_equal. apply map_ext. intros p.
    now rewrite bget_scalar, Hitem, logpdf_u_elem_unit.
  - now rewrite bget_scalar, Hitem, fmul_1_r.
  - now rewrite bget_scalar, Hitem, fmul_1_r.
Qed.

(** ** The unnormalized log-likelihood where nothing is clipped *)

Lemma logpdf_u_elem_shift (y mu var : npfloat) (s r : R) :
  0 < s -> logpdf_elem y mu var = Fin r ->
  logpdf_u_elem y mu var (Fin s) = Fin (r - ln s).
Proof.
  intros Hs. unfold logpdf_elem, logpdf_u_elem.
  destruct (fpow_half var) as [sc|]; destruct y as [y|], mu as [mu|];
    unfold norm_logpdf1; try discriminate.
  destruct (Rlt_dec 0 sc) as [Hsc|]; [|discriminate]. intros [= <-].
  simpl fmul. cbv beta iota.
  destruct (Rlt_dec 0 (sc * s)) as [_|Hn]; [|exfalso; apply Hn; nra].
  f_equal. rewrite ln_mult by assumption.
  replace ((y * s - mu * s) / (sc * s)) with ((y - mu) / sc) by (field; lra).
  ring.
Qed.

Lemma lse_minus_log_shift (rs : list R) (c : R) :
  rs <> [] ->
  exists y, lse_minus_log (map Fin rs) = Fin y /\
            lse_minus_log (map Fin (map (fun r => r - c) rs)) = Fin (y - c).
Proof.
  intros Hne. rewrite !lse_minus_log_mixture. unfold mixture_logdensity.
  rewrite !map_fexp_fin, !fsum_fin, !length_map.
  rewrite !fdiv_nat_fin by (now apply length_nonzero).
  pose proof (INR_length_pos _ Hne) as HK.
  pose proof (rsum_exp_pos rs Hne) as Hpos.
  assert (Hinv : 0 < / INR (length rs)) by now apply Rinv_0_lt_compat.
  rewrite map_map, rsum_exp_shift.
  pose proof (exp_pos (- c)) as He.
  rewrite !flog_fin.
  - eexists. split; [reflexivity|]. f_equal.
    unfold Rdiv. rewrite Rmult_assoc, (Rmult_comm (exp (- c))), <- Rmult_assoc.
    rewrite ln_mult, ln_exp; [ring | | assumption].
    now apply Rmult_lt_0_compat.
  - unfold Rdiv. repeat apply Rmult_lt_0_compat; assumption.
  - now apply Rmult_lt_0_compat.
Qed.

Lemma reduce_loglik_shift (k : prediction_kind) (rs : list R) (c : R) :
  (0 < sample_count k)%nat -> length rs = sample_count k ->
  exists y, reduce_loglik k (map Fin rs) = Fin y /\
            reduce_loglik k (map Fin (map (fun r => r - c) rs)) = Fin (y - c).
Proof.
  intros Hk Hlen. destruct k as [|K]; simpl in Hk, Hlen.
  - destruct rs as [|r rs]; [discriminate|]. exists r. split; reflexivity.
  - assert (E : forall xs : list npfloat, length xs = K ->
              reduce_loglik (Ensemble K) xs = lse_minus_log xs).
    { intros xs Hxs. rewrite <- logsumexp1_minus_log, Hxs. reflexivity. }
    rewrite !E by (now rewrite !length_map).
    apply lse_minus_log_shift.
    intros E'. rewrite E' in Hlen. simpl in Hlen. lia.
Qed.

Lemma rsum_const {A} (a : R) (l : list A) :
  rsum (map (fun _ => a) l) = INR (length l) * a.
Proof.
  induction l as [|x l IH]; [simpl; ring|].
  change (length (x :: l)) with (S (length l)). rewrite S_INR. simpl. rewrite IH. ring.
Qed.

Lemma mean_over_shift (s : list nat) (f g : list nat -> npfloat) (c : R) :
  size_of s <> 0%nat ->
  (forall idx, Forall2 lt idx s -> exists y, f idx = Fin y /\ g idx = Fin (y - c)) ->
  exists L, mean_over s f = Fin L /\ mean_over s g = Fin (L - c).
Proof.
  intros Hsz H.
  rewrite (mean_over_to_real s f Hsz), (mean_over_to_real s g Hsz).
  - eexists. split; [reflexivity|]. f_equal.
    rewrite (map_ext_in (fun idx => to_real (g idx))
                        (fun idx => to_real (f idx) + - c)).
    + rewrite rsum_plus, rsum_const, length_indices.
      assert (Hn : INR (size_of s) <> 0) by (apply not_0_INR; assumption).
      field. assumption.
    + intros idx Hidx. apply in_indices in Hidx.
      destruct (H idx Hidx) as (y & -> & ->). simpl. ring.
  - intros idx Hidx. destruct (H idx Hidx) as (y & _ & ->). exact I.
  - intros idx Hidx. destruct (H idx Hidx) as (y & -> & _). exact I.
Qed.

(** Property X21.  With a positive scalar [Y_std], on a non-empty test
    set, when every log-density lies within the clip bounds both before
    and after [log(Y_std)] is subtracted from it, so that nothing is
    clipped, ["test_loglik_unnormalized"] is ["test_loglik"] minus
    [log(Y_std)]. *)
Theorem unnormalized_loglik_is_shifted (k : prediction_kind) (N D : nat)
    (m v Y Ystd : ndarray) (s : R) :
  valid_input k N D m v Y ->
  shape Ystd = [] -> item Ystd [] = Fin s -> 0 < s ->
  (0 < N)%nat -> (0 < D)%nat ->
  (forall idx, Forall2 lt idx [N; D] ->
     Forall (fun d => exists r, d = Fin r /\
                      ln 1e-12 <= r <= ln (1.0 - 1e-12) /\
                      ln 1e-12 <= r - ln s <= ln (1.0 - 1e-12))
            (densities k m v Y idx)) ->
  exists res L,
    evaluate m v Y Ystd = Ok res /\
    metric "test_loglik" res = Some (Fin L) /\
    metric "test_loglik_unnormalized" res = Some (Fin (L - ln s)).
Proof.
  intros Hvalid Hsh Hitem Hs HN HD Hdens.
  rewrite (evaluate_valid k N D m v Y Ystd Hvalid (scalar_std_broadcasts N D Ystd Hsh)).
  destruct (mean_over_shift [N; D]
              (fun idx => reduce_loglik k (map clip_elem (densities k m v Y idx)))
              (fun idx => reduce_loglik k (map clip_elem (densities_u k m v Y Ystd idx)))
              (ln s) (size_of_ND N D HN HD)) as (L & HL & HLu).
  - intros idx Hidx. specialize (Hdens idx Hidx).
    rewrite List.Forall_forall in Hdens. unfold densities in Hdens.
    set (f := fun p => logpdf_elem (item Y idx) (item m p) (item v p)) in *.
    assert (Hp : forall p, In p (samples k idx) ->
              exists r, f p = Fin r /\ ln 1e-12 <= r <= ln (1.0 - 1e-12) /\
                        ln 1e-12 <= r - ln s <= ln (1.0 - 1e-12)).
    { intros p Hin. apply Hdens, in_map_iff. now exists p. }
    assert (E : map clip_elem (densities k m v Y idx) =
                map Fin (map (fun p => to_real (f p)) (samples k idx))).
    { unfold densities. rewrite !map_map. apply map_ext_in. intros p Hin.
      destruct (Hp p Hin) as (r & Hr & Hb & _). fold (f p). rewrite Hr. simpl.
      now apply clip_elem_id. }
    assert (Eu : map clip_elem (densities_u k m v Y Ystd idx) =
                 map Fin (map (fun r => r - ln s)
                            (map (fun p => to_real (f p)) (samples k idx)))).
    { unfold densities_u. rewrite !map_map. apply map_ext_in. intros p Hin.
      destruct (Hp p Hin) as (r & Hr & _ & Hb).
      rewrite bget_scalar, Hitem by assumption.
      rewrite (logpdf_u_elem_shift _ _ _ s r Hs Hr), Hr. simpl.
      now apply clip_elem_id. }
    rewrite E, Eu. apply reduce_loglik_shift.
    + exact (valid_input_samples _ _ _ _ _ _ Hvalid).
    + now rewrite length_map, length_samples.
  - exists (metrics_dict (Fin L) (Fin (L - ln s))
      (mean_over [N; D] (fun idx => fabs (residual k m Y idx)))
      (mean_over [N; D] (fun idx => fabs (fmul (residual k m Y idx) (bget Ystd idx))))
      (fpow_half (mean_over [N; D] (fun idx => fsquare (residual k m Y idx))))
      (fpow_half (mean_over [N; D] (fun idx =>
         fsquare (fmul (residual k m Y idx) (bget Ystd idx)))))), L.
    rewrite HL, HLu. repeat split; reflexivity.
Qed.

(** * Instances *)

Lemma valid_mock_point : valid_point 2 3 mock_mu mock_var example_targets.
Proof. split; try reflexivity. ge0. Defined.

Lemma valid_mock_ensemble :
  valid_ensemble 2 2 3 mock_mu_samples mock_var_samples example_targets.
Proof. split; try reflexivity; [lia | ge0]. Defined.

Lemma ensemble_loglik_is_mixture_witness :
  valid_ensemble 2 2 3 mock_mu_samples mock_var_samples example_targets /\
  std_broadcasts 2 3 (scalar 1) /\
  exists res,
    evaluate mock_mu_samples mock_var_samples example_targets (scalar 1) = Ok res /\
    metric "test_loglik" res =
      Some (mean_ND 2 3 (fun i j => mixture_logdensity
              (component_logliks mock_mu_samples mock_var_samples example_targets 2 i j))).
Proof.
  split; [exact valid_mock_ensemble|]. split; [reflexivity|].
  destruct (ensemble_loglik_is_mixture 2 2 3 mock_mu_samples mock_var_samples
              example_targets (scalar 1) valid_mock_ensemble eq_refl)
    as (res & Hres & Hll & _ & Hmix & _).
  exists res. split; [exact Hres|]. rewrite Hll. f_equal.
  apply mean_ND_ext. intros i j _ _. apply Hmix.
Defined.

Lemma valid_one_sample :
  valid_ensemble 1 2 3 one_sample_mu one_sample_var example_targets.
Proof. split; try reflexivity; [lia | ge0]. Defined.

Lemma valid_twin : valid_ensemble 2 2 3 twin_mu twin_var example_targets.
Proof. split; try reflexivity; [lia | ge0]. Defined.

Lemma single_sample_matches_point_witness :
  valid_ensemble 1 2 3 one_sample_mu one_sample_var example_targets /\
  index0 one_sample_mu 0 = Ok (slice [2%nat; 3%nat] one_sample_mu 0) /\
  index0 one_sample_var 0 = Ok (slice [2%nat; 3%nat] one_sample_var 0) /\
  exists res res0 x,
    evaluate one_sample_mu one_sample_var example_targets (scalar 1) = Ok res /\
    evaluate (slice [2%nat; 3%nat] one_sample_mu 0) (slice [2%nat; 3%nat] one_sample_var 0)
             example_targets (scalar 1) = Ok res0 /\
    metric "test_loglik" res = Some x /\
    metric "test_loglik" res0 = Some x.
Proof.
  split; [exact valid_one_sample|]. do 2 (split; [reflexivity|]).
  destruct (single_sample_matches_point 2 3 one_sample_mu one_sample_var example_targets
              (scalar 1) _ _ valid_one_sample eq_refl eq_refl eq_refl)
    as (res & res0 & x & xu & H1 & H2 & H3 & H4 & _).
  exists res, res0, x. repeat split; assumption.
Defined.

Lemma twin_identical (rows : list (list R)) :
  identical_samples 2 2 3 (array3 [rows; rows]).
Proof.
  intros s idx Hs _. destruct s as [|[|s]]; [reflexivity | reflexivity | lia].
Defined.

Lemma identical_components_collapse_witness :
  valid_ensemble 2 2 3 twin_mu twin_var example_targets /\
  identical_samples 2 2 3 twin_mu /\ identical_samples 2 2 3 twin_var /\
  exists res res0 x,
    evaluate twin_mu twin_var example_targets (scalar 1) = Ok res /\
    evaluate (slice [2%nat; 3%nat] twin_mu 0) (slice [2%nat; 3%nat] twin_var 0)
             example_targets (scalar 1) = Ok res0 /\
    metric "test_loglik" res = Some x /\
    metric "test_loglik" res0 = Some x.
Proof.
  split; [exact valid_twin|]. do 2 (split; [apply twin_identical|]).
  destruct (identical_components_collapse 2 2 3 twin_mu twin_var example_targets
              (scalar 1) _ _ valid_twin eq_refl (twin_identical _) (twin_identical _)
              eq_refl eq_refl)
    as (res & res0 & x & xu & H1 & H2 & H3 & H4 & _).
  exists res, res0, x. repeat split; assumption.
Defined.

Lemma rmse_unnormalized_is_scaled_witness :
  valid_input Point 2 3 mock_mu mock_var example_targets /\
  valid_input (Ensemble 2) 2 3 mock_mu_samples mock_var_samples example_targets /\
  0 < 2 /\
  (exists res x,
     evaluate mock_mu mock_var example_targets (scalar 2) = Ok res /\
     metric "test_rmse" res = Some x /\
     metric "test_rmse_unnormalized" res = Some (fmul x (Fin 2))) /\
  (exists res x,
     evaluate mock_mu_samples mock_var_samples example_targets (scalar 2) = Ok res /\
     metric "test_rmse" res = Some x /\
     metric "test_rmse_unnormalized" res = Some (fmul x (Fin 2))).
Proof.
  split; [exact valid_mock_point|]. split; [exact valid_mock_ensemble|].
  split; [lra|]. split.
  - apply (rmse_unnormalized_is_scaled Point 2 3 mock_mu mock_var example_targets
             (scalar 2) 2 valid_mock_point eq_refl eq_refl). lra.
  - apply (rmse_unnormalized_is_scaled (Ensemble 2) 2 3 _ _ _ (scalar 2) 2
             valid_mock_ensemble eq_refl eq_refl). lra.
Defined.

Lemma array2_finite (rows : list (list R)) : finite_array (array2 rows).
Proof.
  intros idx Hidx. simpl in Hidx.
  inversion Hidx as [|i n idx1 s1 _ H1]; subst.
  inversion H1 as [|j n' idx2 s2 _ H2]; subst.
  inversion H2; subst. exact I.
Defined.

Lemma array3_finite (blocks : list (list (list R))) : finite_array (array3 blocks).
Proof.
  intros idx Hidx. simpl in Hidx.
  inversion Hidx as [|s n idx1 s1 _ H1]; subst.
  inversion H1 as [|i n' idx2 s2 _ H2]; subst.
  inversion H2 as [|j n'' idx3 s3 _ H3]; subst.
  inversion H3; subst. exact I.
Defined.

Lemma mock_var_positive : positive_array mock_var.
Proof.
  intros idx Hidx. simpl in Hidx.
  inversion Hidx as [|i n idx1 s1 Hi H1]; subst.
  inversion H1 as [|j n' idx2 s2 Hj H2]; subst.
  inversion H2; subst.
  destruct i as [|[|i]]; [| |lia];
    (destruct j as [|[|[|j]]]; [| | |lia]);
    simpl; eexists; (split; [reflexivity | lra]).
Defined.

Lemma mock_var_samples_positive : positive_array mock_var_samples.
Proof.
  intros idx Hidx. simpl in Hidx.
  inversion Hidx as [|s n idx0 s0 Hs H0]; subst.
  inversion H0 as [|i n0 idx1 s1 Hi H1]; subst.
  inversion H1 as [|j n' idx2 s2 Hj H2]; subst.
  inversion H2; subst.
  destruct s as [|[|s]]; [| |lia];
    (destruct i as [|[|i]]; [| |lia]);
    (destruct j as [|[|[|j]]]; [| | |lia]);
    simpl; eexists; (split; [reflexivity | lra]).
Defined.

Lemma unit_std_positive (N D : nat) : positive_std N D (scalar 1).
Proof. intros idx _. exists 1. split; [reflexivity | lra]. Defined.

Lemma loglik_within_clip_bounds_witness :
  valid_input Point 2 3 mock_mu mock_var example_targets /\
  valid_input (Ensemble 2) 2 3 mock_mu_samples mock_var_samples example_targets /\
  (exists res x,
     evaluate mock_mu mock_var example_targets (scalar 1) = Ok res /\
     metric "test_loglik" res = Some (Fin x) /\
     ln 1e-12 <= x <= ln (1.0 - 1e-12)) /\
  (exists res x,
     evaluate mock_mu_samples mock_var_samples example_targets (scalar 1) = Ok res /\
     metric "test_loglik" res = Some (Fin x) /\
     ln 1e-12 <= x <= ln (1.0 - 1e-12)).
Proof.
  split; [exact valid_mock_point|]. split; [exact valid_mock_ensemble|]. split.
  - destruct (loglik_within_clip_bounds Point 2 3 mock_mu mock_var example_targets
                (scalar 1) valid_mock_point eq_refl ltac:(lia) ltac:(lia))
      as (res & x & xu & H1 & H2 & H3 & _).
    + intros idx Hidx. split.
      * exact (proj2 (densities_fin Point 2 3 _ _ _ valid_mock_point (array2_finite _)
                 mock_var_positive (array2_finite _) idx Hidx)).
      * exact (proj2 (densities_u_fin Point 2 3 _ _ _ _ valid_mock_point (array2_finite _)
                 mock_var_positive (array2_finite _) (unit_std_positive 2 3) idx Hidx)).
    + exists res, x. auto.
  - destruct (loglik_within_clip_bounds (Ensemble 2) 2 3 mock_mu_samples mock_var_samples
                example_targets (scalar 1) valid_mock_ensemble eq_refl ltac:(lia) ltac:(lia))
      as (res & x & xu & H1 & H2 & H3 & _).
    + intros idx Hidx. split.
      * exact (proj2 (densities_fin (Ensemble 2) 2 3 _ _ _ valid_mock_ensemble
                 (array3_finite _) mock_var_samples_positive (array2_finite _) idx Hidx)).
      * exact (proj2 (densities_u_fin (Ensemble 2) 2 3 _ _ _ _ valid_mock_ensemble
                 (array3_finite _) mock_var_samples_positive (array2_finite _)
                 (unit_std_positive 2 3) idx Hidx)).
    + exists res, x. auto.
Defined.

Lemma nonpositive_std_is_not_rejected_witness :
  valid_input Point 2 3 mock_mu mock_var example_targets /\
  valid_input (Ensemble 2) 2 3 mock_mu_samples mock_var_samples example_targets /\
  -1 <= 0 /\
  (exists res,
     evaluate mock_mu mock_var example_targets (scalar (-1)) = Ok res /\
     dom res = metric_keys) /\
  (exists res,
     evaluate mock_mu_samples mock_var_samples example_targets (scalar 0) = Ok res /\
     dom res = metric_keys).
Proof.
  split; [exact valid_mock_point|]. split; [exact valid_mock_ensemble|].
  split; [lra|]. split.
  - destruct (nonpositive_std_is_not_rejected Point 2 3 mock_mu mock_var example_targets
                (scalar (-1)) (-1) valid_mock_point eq_refl eq_refl ltac:(lra))
      as [(res & H1 & H2 & _) _].
    exists res. auto.
  - destruct (nonpositive_std_is_not_rejected (Ensemble 2) 2 3 mock_mu_samples
                mock_var_samples example_targets (scalar 0) 0 valid_mock_ensemble
                eq_refl eq_refl ltac:(lra))
      as [(res & H1 & H2 & _) _].
    exists res. auto.
Defined.


Lemma reductions_take_clipped_values_witness :
  valid_input Point 2 3 mock_mu mock_var example_targets /\
  valid_input (Ensemble 2) 2 3 mock_mu_samples mock_var_samples example_targets /\
  (exists res,
     evaluate mock_mu mock_var example_targets (scalar 1) = Ok res /\
     metric "test_loglik" res =
       Some (mean_over [2%nat; 3%nat] (fun idx =>
               reduce_loglik Point
                 (map clip_elem (densities Point mock_mu mock_var example_targets idx))))) /\
  (exists res,
     evaluate mock_mu_samples mock_var_samples example_targets (scalar 1) = Ok res /\
     metric "test_loglik" res =
       Some (mean_over [2%nat; 3%nat] (fun idx =>
               reduce_loglik (Ensemble 2)
                 (map clip_elem (densities (Ensemble 2) mock_mu_samples mock_var_samples
                                           example_targets idx))))).
Proof.
  split; [exact valid_mock_point|]. split; [exact valid_mock_ensemble|]. split.
  - destruct (reductions_take_clipped_values Point 2 3 mock_mu mock_var example_targets
                (scalar 1) valid_mock_point eq_refl) as (res & H1 & H2 & _).
    exists res. auto.
  - destruct (reductions_take_clipped_values (Ensemble 2) 2 3 mock_mu_samples
                mock_var_samples example_targets (scalar 1) valid_mock_ensemble eq_refl)
      as (res & H1 & H2 & _).
    exists res. auto.
Defined.

Lemma failed_assertion_rejects_witness :
  -0.1 < 0 /\
  evaluate (array2 [[1]]) (array2 [[-0.1]]) (array2 [[1]]) (scalar 1) =
    Raise AssertionError /\
  evaluate (array3 [[[1]]]) (array2 [[1]]) (array2 [[1]]) (scalar 1) =
    Raise AssertionError /\
  evaluate (scalar 1) (scalar 1) (array2 [[1]]) (scalar 1) = Raise AssertionError.
Proof.
  split; [lra|]. split; [|split].
  - apply failed_assertion_rejects. right. right.
    exists [0%nat; 0%nat], (-0.1). split; [repeat constructor | split; [reflexivity | lra]].
  - apply failed_assertion_rejects. left. discriminate.
  - apply failed_assertion_rejects. right. left. split; discriminate.
Defined.

(** ** Instances of the further properties *)

Lemma unit_variance_valid :
  valid_point 2 3 mock_mu (array2 [[1; 1; 1]; [1; 1; 1]]) example_targets.
Proof. split; try reflexivity. ge0. Defined.

Lemma error_metrics_scale_by_abs_std_witness :
  valid_input Point 2 3 mock_mu mock_var example_targets /\
  valid_input (Ensemble 2) 2 3 mock_mu_samples mock_var_samples example_targets /\
  (exists res mae rmse,
     evaluate mock_mu mock_var example_targets (scalar (-2)) = Ok res /\
     metric "test_mae" res = Some mae /\
     metric "test_mae_unnormalized" res = Some (fmul mae (Fin (Rabs (-2)))) /\
     metric "test_rmse" res = Some rmse /\
     metric "test_rmse_unnormalized" res = Some (fmul rmse (Fin (Rabs (-2))))) /\
  (exists res mae rmse,
     evaluate mock_mu_samples mock_var_samples example_targets (scalar 3) = Ok res /\
     metric "test_mae" res = Some mae /\
     metric "test_mae_unnormalized" res = Some (fmul mae (Fin (Rabs 3))) /\
     metric "test_rmse" res = Some rmse /\
     metric "test_rmse_unnormalized" res = Some (fmul rmse (Fin (Rabs 3)))).
Proof.
  split; [exact valid_mock_point|]. split; [exact valid_mock_ensemble|]. split.
  - exact (error_metrics_scale_by_abs_std Point 2 3 mock_mu mock_var example_targets
             (scalar (-2)) (-2) valid_mock_point eq_refl eq_refl).
  - exact (error_metrics_scale_by_abs_std (Ensemble 2) 2 3 mock_mu_samples
             mock_var_samples example_targets (scalar 3) 3 valid_mock_ensemble
             eq_refl eq_refl).
Defined.

Lemma nan_variance_is_rejected_witness :
  Forall2 lt [0%nat; 0%nat] (shape (nan_array [1%nat; 1%nat])) /\
  item (nan_array [1%nat; 1%nat]) [0%nat; 0%nat] = NaN /\
  evaluate (array2 [[1]]) (nan_array [1%nat; 1%nat]) (array2 [[1]]) (scalar 1) =
    Raise AssertionError.
Proof.
  assert (H : Forall2 lt [0%nat; 0%nat] (shape (nan_array [1%nat; 1%nat])))
    by (repeat constructor).
  split; [exact H|]. split; [reflexivity|].
  exact (nan_variance_is_rejected (array2 [[1]]) (nan_array [1%nat; 1%nat])
           (array2 [[1]]) (scalar 1) [0%nat; 0%nat] H eq_refl).
Defined.

Lemma valid_empty : valid_point 0 0 (array2 []) (array2 []) (array2 []).
Proof. split; reflexivity. Defined.

Lemma empty_test_set_gives_nan_witness :
  valid_input Point 0 0 (array2 []) (array2 []) (array2 []) /\
  std_broadcasts 0 0 (scalar 1) /\
  exists res,
    evaluate (array2 []) (array2 []) (array2 []) (scalar 1) = Ok res /\
    dom res = metric_keys /\
    forall key, key ∈ metric_keys -> res !! key = Some (PyFloat NaN).
Proof.
  split; [exact valid_empty|]. split; [reflexivity|].
  exact (empty_test_set_gives_nan Point 0 0 (array2 []) (array2 []) (array2 [])
           (scalar 1) valid_empty eq_refl (or_introl eq_refl)).
Defined.

Lemma nonpositive_std_gives_nan_loglik_witness :
  valid_input Point 2 3 mock_mu mock_var example_targets /\
  valid_input (Ensemble 2) 2 3 mock_mu_samples mock_var_samples example_targets /\
  -1 <= 0 /\
  (exists res,
     evaluate mock_mu mock_var example_targets (scalar (-1)) = Ok res /\
     metric "test_loglik_unnormalized" res = Some NaN) /\
  (exists res,
     evaluate mock_mu_samples mock_var_samples example_targets (scalar 0) = Ok res /\
     metric "test_loglik_unnormalized" res = Some NaN).
Proof.
  split; [exact valid_mock_point|]. split; [exact valid_mock_ensemble|].
  split; [lra|]. split.
  - apply (nonpositive_std_gives_nan_loglik Point 2 3 mock_mu mock_var example_targets
             (scalar (-1)) (-1) valid_mock_point eq_refl eq_refl). lra.
  - apply (nonpositive_std_gives_nan_loglik (Ensemble 2) 2 3 mock_mu_samples
             mock_var_samples example_targets (scalar 0) 0 valid_mock_ensemble
             eq_refl eq_refl). lra.
Defined.

Lemma mae_is_at_most_rmse_witness :
  valid_input Point 2 3 mock_mu mock_var example_targets /\
  std_broadcasts 2 3 (scalar 2) /\
  exists res,
    evaluate mock_mu mock_var example_targets (scalar 2) = Ok res /\
    (forall a r, metric "test_mae" res = Some (Fin a) ->
                 metric "test_rmse" res = Some (Fin r) -> 0 <= a <= r) /\
    (forall a r, metric "test_mae_unnormalized" res = Some (Fin a) ->
                 metric "test_rmse_unnormalized" res = Some (Fin r) -> 0 <= a <= r).
Proof.
  split; [exact valid_mock_point|]. split; [reflexivity|].
  exact (mae_is_at_most_rmse Point 2 3 mock_mu mock_var example_targets (scalar 2)
           valid_mock_point eq_refl).
Defined.

Lemma error_metrics_ignore_variance_witness :
  valid_input Point 2 3 mock_mu mock_var example_targets /\
  valid_input Point 2 3 mock_mu (array2 [[1; 1; 1]; [1; 1; 1]]) example_targets /\
  exists res res',
    evaluate mock_mu mock_var example_targets (scalar 1) = Ok res /\
    evaluate mock_mu (array2 [[1; 1; 1]; [1; 1; 1]]) example_targets (scalar 1) = Ok res' /\
    metric "test_mae" res = metric "test_mae" res' /\
    metric "test_mae_unnormalized" res = metric "test_mae_unnormalized" res' /\
    metric "test_rmse" res = metric "test_rmse" res' /\
    metric "test_rmse_unnormalized" res = metric "test_rmse_unnormalized" res'.
Proof.
  split; [exact valid_mock_point|]. split; [exact unit_variance_valid|].
  exact (error_metrics_ignore_variance Point 2 3 mock_mu mock_var _ example_targets
           (scalar 1) valid_mock_point unit_variance_valid eq_refl).
Defined.

Lemma normalized_metrics_ignore_std_witness :
  valid_input (Ensemble 2) 2 3 mock_mu_samples mock_var_samples example_targets /\
  std_broadcasts 2 3 (scalar 1) /\ std_broadcasts 2 3 (array2 [[1; 2; 3]]) /\
  exists res res',
    evaluate mock_mu_samples mock_var_samples example_targets (scalar 1) = Ok res /\
    evaluate mock_mu_samples mock_var_samples example_targets (array2 [[1; 2; 3]])
      = Ok res' /\
    metric "test_loglik" res = metric "test_loglik" res' /\
    metric "test_mae" res = metric "test_mae" res' /\
    metric "test_rmse" res = metric "test_rmse" res'.
Proof.
  split; [exact valid_mock_ensemble|]. do 2 (split; [reflexivity|]).
  exact (normalized_metrics_ignore_std (Ensemble 2) 2 3 mock_mu_samples mock_var_samples
           example_targets (scalar 1) (array2 [[1; 2; 3]]) valid_mock_ensemble
           eq_refl eq_refl).
Defined.

Lemma ensemble_errors_are_those_of_the_mean_witness :
  valid_ensemble 2 2 3 mock_mu_samples mock_var_samples example_targets /\
  exists mbar,
    mean_axis0 mock_mu_samples = Ok mbar /\
    valid_point 2 3 mbar mock_var example_targets /\
    exists res res',
      evaluate mock_mu_samples mock_var_samples example_targets (scalar 1) = Ok res /\
      evaluate mbar mock_var example_targets (scalar 1) = Ok res' /\
      metric "test_mae" res = metric "test_mae" res' /\
      metric "test_mae_unnormalized" res = metric "test_mae_unnormalized" res' /\
      metric "test_rmse" res = metric "test_rmse" res' /\
      metric "test_rmse_unnormalized" res = metric "test_rmse_unnormalized" res'.
Proof.
  split; [exact valid_mock_ensemble|].
  assert (Hp : valid_point 2 3
                 {| shape := [2%nat; 3%nat];
                    item := fun idx => fdiv_nat (fsum (column mock_mu_samples 2 idx)) 2 |}
                 mock_var example_targets).
  { split; try reflexivity. ge0. }
  eexists. split; [reflexivity|]. split; [exact Hp|].
  exact (ensemble_errors_are_those_of_the_mean 2 2 3 mock_mu_samples mock_var_samples
           example_targets (scalar 1) _ mock_var valid_mock_ensemble eq_refl eq_refl Hp).
Defined.

Lemma unbroadcastable_target_raises_value_error_witness :
  ndim (array2 [[1; 1]]) = 2%nat /\
  all_ge0 (array2 [[1; 1]]) = true /\
  broadcast_shapes (shape (array2 [[1; 1; 1]])) (shape (array2 [[1; 1]])) = None /\
  evaluate (array2 [[1; 1]]) (array2 [[1; 1]]) (array2 [[1; 1; 1]]) (scalar 1) =
    Raise ValueError.
Proof.
  assert (Hge : all_ge0 (array2 [[1; 1]]) = true) by ge0.
  split; [reflexivity|]. split; [exact Hge|]. split; [reflexivity|].
  exact (unbroadcastable_target_raises_value_error (array2 [[1; 1]]) (array2 [[1; 1]])
           (array2 [[1; 1; 1]]) (scalar 1) eq_refl eq_refl Hge eq_refl).
Defined.




Lemma metrics_invariant_under_sample_order_witness :
  valid_ensemble 2 2 3 mock_mu_samples mock_var_samples example_targets /\
  Permutation [1%nat; 0%nat] (seq 0 2) /\
  exists m' v',
    take_samples [1%nat; 0%nat] mock_mu_samples = Ok m' /\
    take_samples [1%nat; 0%nat] mock_var_samples = Ok v' /\
    item m' [0%nat; 0%nat; 0%nat] = Fin 1.5 /\
    exists res,
      evaluate mock_mu_samples mock_var_samples example_targets (scalar 1) = Ok res /\
      evaluate m' v' example_targets (scalar 1) = Ok res.
Proof.
  split; [exact valid_mock_ensemble|].
  assert (Hperm : Permutation [1%nat; 0%nat] (seq 0 2)) by apply perm_swap.
  split; [exact Hperm|].
  eexists _, _. split; [reflexivity|]. split; [reflexivity|]. split; [reflexivity|].
  exact (metrics_invariant_under_sample_order 2 2 3 mock_mu_samples mock_var_samples
           example_targets (scalar 1) _ _ [1%nat; 0%nat] valid_mock_ensemble eq_refl
           Hperm eq_refl eq_refl).
Defined.

Lemma one_sample_var_nonneg : all_ge0 one_sample_var = true.
Proof. ge0. Defined.

Lemma mock_var_samples_nonneg : all_ge0 mock_var_samples = true.
Proof. ge0. Defined.

Lemma variance_with_fewer_samples_raises_index_error_witness :
  shape mock_mu_samples = [2%nat; 2%nat; 3%nat] /\
  shape one_sample_var = [1%nat; 2%nat; 3%nat] /\
  input_checks mock_mu_samples one_sample_var = true /\
  evaluate mock_mu_samples one_sample_var example_targets (scalar 1) = Raise IndexError.
Proof.
  split; [reflexivity|]. split; [reflexivity|]. split.
  - unfold input_checks. now rewrite one_sample_var_nonneg.
  - exact (variance_with_fewer_samples_raises_index_error 2 1 2 3 mock_mu_samples
             one_sample_var example_targets (scalar 1) eq_refl eq_refl eq_refl eq_refl
             one_sample_var_nonneg ltac:(lia)).
Defined.

Lemma surplus_variance_samples_are_ignored_witness :
  shape one_sample_mu = [1%nat; 2%nat; 3%nat] /\
  shape mock_var_samples = [2%nat; 2%nat; 3%nat] /\
  shape (first_samples 1 mock_var_samples) = [1%nat; 2%nat; 3%nat] /\
  exists res,
    evaluate one_sample_mu mock_var_samples example_targets (scalar 1) = Ok res /\
    evaluate one_sample_mu (first_samples 1 mock_var_samples) example_targets (scalar 1)
      = Ok res.
Proof.
  do 3 (split; [reflexivity|]).
  exact (surplus_variance_samples_are_ignored 1 2 2 3 one_sample_mu mock_var_samples
           example_targets (scalar 1) eq_refl eq_refl eq_refl eq_refl
           mock_var_samples_nonneg ltac:(lia) ltac:(lia)).
Defined.

Lemma stored_arguments_disjoint : dom stored_arguments ## metric_keys.
Proof.
  unfold stored_arguments, boston_arguments. rewrite !dom_insert_L, dom_empty_L.
  intros key Hk Hm. apply metric_keys_cases in Hm.
  rewrite !elem_of_union, !elem_of_singleton, elem_of_empty in Hk.
  destruct Hk as [->|[->|[->|[]]]]; destruct Hm as [H|[H|[H|[H|[H|H]]]]]; discriminate.
Defined.

Lemma fixed_prediction_runs (database : Database) (ARGS : gmap string pyval) :
  exists res,
    run database ARGS example_data (fixed_prediction mock_mu mock_var) true = Ok res.
Proof.
  unfold run. simpl predict. cbv iota beta.
  rewrite (evaluate_valid Point 2 3 mock_mu mock_var (Y_test example_data)
             (Y_std example_data) valid_mock_point eq_refl).
  eexists. reflexivity.
Defined.

Lemma namespace_arguments_keep_the_metrics_witness :
  dom stored_arguments ## metric_keys /\
  stored_arguments !! "database_path" = Some (PyStr "results.db") /\
  exists res res',
    run accepting_database (ConvertToNamespace stored_arguments).2 example_data
        (fixed_prediction mock_mu mock_var) true = Ok res /\
    run accepting_database (ConvertToNamespace stored_arguments).2 example_data
        (fixed_prediction mock_mu mock_var) false = Ok res' /\
    (forall key, key ∈ metric_keys -> res' !! key = res !! key) /\
    res' !! "seed" = Some (PyInt 0) /\
    res' !! "split" = Some (PyInt 0) /\
    res' !! "dataset" = Some (PyStr "boston") /\
    res' !! "model" = Some (PyStr "linear").
Proof.
  split; [exact stored_arguments_disjoint|]. split; [reflexivity|].
  destruct (fixed_prediction_runs accepting_database
              (ConvertToNamespace stored_arguments).2) as (res & Hrun).
  exists res.
  destruct (namespace_arguments_keep_the_metrics accepting_database stored_arguments
              example_data (fixed_prediction mock_mu mock_var) res (PyStr "results.db")
              stored_arguments_disjoint eq_refl (fun _ => eq_refl) Hrun)
    as (res' & H1 & H2 & H3 & H4 & H5).
  exists res'. split; [exact Hrun|]. split; [exact H1|]. split; [exact H2|].
  split; [exact H3|]. split; [exact H4|]. split.
  - apply H5; [discriminate | discriminate | reflexivity].
  - apply H5; [discriminate | discriminate | reflexivity].
Defined.

Lemma namespace_without_database_path_raises_witness :
  boston_arguments !! "database_path" = None /\
  (exists res,
     run accepting_database (ConvertToNamespace boston_arguments).2 example_data
         (fixed_prediction mock_mu mock_var) true = Ok res) /\
  run accepting_database (ConvertToNamespace boston_arguments).2 example_data
      (fixed_prediction mock_mu mock_var) false = Raise AttributeError.
Proof.
  split; [reflexivity|].
  destruct (fixed_prediction_runs accepting_database
              (ConvertToNamespace boston_arguments).2) as (res & Hrun).
  split; [exists res; exact Hrun|].
  exact (namespace_without_database_path_raises accepting_database boston_arguments
           example_data (fixed_prediction mock_mu mock_var) res eq_refl Hrun).
Defined.

Lemma mixture_at_least_average_member_witness :
  valid_ensemble 2 2 3 mock_mu_samples mock_var_samples example_targets /\
  exists res (L : R) (l : nat -> R),
    evaluate mock_mu_samples mock_var_samples example_targets (scalar 1) = Ok res /\
    metric "test_loglik" res = Some (Fin L) /\
    (forall s, (s < 2)%nat ->
       exists ms vs res_s,
         index0 mock_mu_samples s = Ok ms /\ index0 mock_var_samples s = Ok vs /\
         evaluate ms vs example_targets (scalar 1) = Ok res_s /\
         metric "test_loglik" res_s = Some (Fin (l s))) /\
    rsum (map l (seq 0 2)) / INR 2 <= L.
Proof.
  split; [exact valid_mock_ensemble|].
  apply (mixture_at_least_average_member 2 2 3 mock_mu_samples mock_var_samples
           example_targets (scalar 1) valid_mock_ensemble eq_refl ltac:(lia) ltac:(lia)).
  intros idx Hidx.
  exact (proj2 (densities_fin (Ensemble 2) 2 3 _ _ _ valid_mock_ensemble
                  (array3_finite _) mock_var_samples_positive (array2_finite _) idx Hidx)).
Defined.

Lemma unit_index (idx : list nat) :
  Forall2 lt idx [1%nat; 1%nat] -> idx = [0%nat; 0%nat].
Proof.
  intros Hidx.
  inversion Hidx as [|i n idx1 s1 Hi H1]; subst.
  inversion H1 as [|j n' idx2 s2 Hj H2]; subst.
  inversion H2; subst. f_equal; [lia | f_equal; lia].
Defined.

Lemma logpdf_elem_exact (y var : R) :
  0 < var ->
  logpdf_elem (Fin y) (Fin y) (Fin var) = Fin (- ln (sqrt (2 * PI * var))).
Proof.
  intros Hvar. unfold logpdf_elem. rewrite fpow_half_fin by lra.
  pose proof (sqrt_lt_R0 var Hvar) as Hsc. pose proof sqrt_2PI_bounds as [H2 _].
  unfold norm_logpdf1. destruct (Rlt_dec 0 (sqrt var)); [|contradiction].
  f_equal. pose proof PI_RGT_0.
  rewrite sqrt_mult, ln_mult by lra. unfold norm_pdf_logC.
  replace ((y - y) / sqrt var) with 0 by (field; lra). lra.
Defined.

Lemma sharp_density_above (var : R) :
  0 < var <= 0.15 -> ln (1.0 - 1e-12) <= - ln (sqrt (2 * PI * var)).
Proof.
  intros [H0 H1]. pose proof PI_bounds as [Hp Hq].
  assert (Hhi : ln (1.0 - 1e-12) <= ln 1) by (apply ln_le_compat; lra).
  rewrite ln_1 in Hhi.
  assert (Hs : ln (sqrt (2 * PI * var)) <= ln 1).
  { apply ln_le_compat; [apply sqrt_lt_R0; nra|].
    apply Rle_trans with (sqrt 1); [apply sqrt_le_1_alt; nra | rewrite sqrt_1; lra]. }
  rewrite ln_1 in Hs. lra.
Defined.

Lemma loglik_saturates_above_witness :
  valid_input Point 1 1 (array2 [[1]]) (array2 [[0.1]]) (array2 [[1]]) /\
  exists res,
    evaluate (array2 [[1]]) (array2 [[0.1]]) (array2 [[1]]) (scalar 1) = Ok res /\
    metric "test_loglik" res = Some (Fin (ln (1.0 - 1e-12))).
Proof.
  assert (Hv : valid_input Point 1 1 (array2 [[1]]) (array2 [[0.1]]) (array2 [[1]]))
    by (apply valid_point_unit; lra).
  split; [exact Hv|].
  apply (loglik_saturates_above Point 1 1 _ _ _ (scalar 1) Hv eq_refl
           ltac:(lia) ltac:(lia)).
  intros idx Hidx. rewrite (unit_index idx Hidx).
  unfold densities. simpl. constructor; [|constructor].
  rewrite logpdf_elem_exact by lra. eexists. split; [reflexivity|].
  apply sharp_density_above. lra.
Defined.

Lemma far_density_below :
  exists r, logpdf_elem (Fin 0) (Fin 2000000) (Fin 1) = Fin r /\ r <= ln 1e-12.
Proof.
  unfold logpdf_elem. rewrite fpow_half_fin, sqrt_1 by lra.
  unfold norm_logpdf1. destruct (Rlt_dec 0 1); [|lra].
  eexists. split; [reflexivity|].
  pose proof sqrt_2PI_bounds as [H2 _].
  assert (HC : 0 <= norm_pdf_logC).
  { unfold norm_pdf_logC. rewrite <- ln_1. apply ln_le_compat; lra. }
  assert (Hlo : - 1e12 <= ln 1e-12).
  { replace 1e-12 with (/ 1e12) by lra. rewrite ln_Rinv by lra.
    assert (ln 1e12 < 1e12); [|lra].
    rewrite <- (ln_exp 1e12) at 2. apply ln_increasing; [lra|].
    pose proof (exp_ineq1 1e12). lra. }
  rewrite ln_1. lra.
Defined.

Lemma loglik_saturates_below_witness :
  valid_input Point 1 1 (array2 [[2000000]]) (array2 [[1]]) (array2 [[0]]) /\
  exists res,
    evaluate (array2 [[2000000]]) (array2 [[1]]) (array2 [[0]]) (scalar 1) = Ok res /\
    metric "test_loglik" res = Some (Fin (ln 1e-12)).
Proof.
  assert (Hv : valid_input Point 1 1 (array2 [[2000000]]) (array2 [[1]]) (array2 [[0]]))
    by (apply valid_point_unit; lra).
  split; [exact Hv|].
  apply (loglik_saturates_below Point 1 1 _ _ _ (scalar 1) Hv eq_refl
           ltac:(lia) ltac:(lia)).
  intros idx Hidx. rewrite (unit_index idx Hidx).
  unfold densities. simpl. constructor; [|constructor].
  exact far_density_below.
Defined.

Lemma unit_std_metrics_coincide_witness :
  valid_input Point 2 3 mock_mu mock_var (Y_test example_data) /\
  valid_input (Ensemble 2) 2 3 mock_mu_samples mock_var_samples (Y_test example_data) /\
  item (Y_std example_data) [] = Fin 1 /\
  (exists res,
     evaluate mock_mu mock_var (Y_test example_data) (Y_std example_data) = Ok res /\
     metric "test_loglik_unnormalized" res = metric "test_loglik" res /\
     metric "test_mae_unnormalized" res = metric "test_mae" res /\
     metric "test_rmse_unnormalized" res = metric "test_rmse" res) /\
  (exists res,
     evaluate mock_mu_samples mock_var_samples (Y_test example_data) (Y_std example_data)
       = Ok res /\
     metric "test_loglik_unnormalized" res = metric "test_loglik" res /\
     metric "test_mae_unnormalized" res = metric "test_mae" res /\
     metric "test_rmse_unnormalized" res = metric "test_rmse" res).
Proof.
  split; [exact valid_mock_point|]. split; [exact valid_mock_ensemble|].
  split; [reflexivity|]. split.
  - exact (unit_std_metrics_coincide Point 2 3 mock_mu mock_var (Y_test example_data)
             (Y_std example_data) valid_mock_point eq_refl eq_refl).
  - exact (unit_std_metrics_coincide (Ensemble 2) 2 3 mock_mu_samples mock_var_samples
             (Y_test example_data) (Y_std example_data) valid_mock_ensemble
             eq_refl eq_refl).
Defined.

Lemma halved_standard_density_in_range :
  ln 1e-12 <= ln (1 / sqrt (2 * PI)) - ln 2 <= ln (1.0 - 1e-12).
Proof.
  pose proof sqrt_2PI_bounds as [H2 H4].
  assert (Hinv : / 4 < 1 / sqrt (2 * PI) < / 2).
  { unfold Rdiv. rewrite Rmult_1_l. split; apply Rinv_lt_contravar; nra. }
  assert (E : ln (1 / sqrt (2 * PI)) - ln 2 = ln (1 / sqrt (2 * PI) / 2)).
  { unfold Rdiv at 2. rewrite ln_mult, ln_Rinv by lra. ring. }
  rewrite E. split; apply ln_le_compat; lra.
Defined.

Lemma unnormalized_loglik_is_shifted_witness :
  valid_input Point 1 1 (array2 [[1]]) (array2 [[1]]) (array2 [[1]]) /\
  0 < 2 /\
  exists res L,
    evaluate (array2 [[1]]) (array2 [[1]]) (array2 [[1]]) (scalar 2) = Ok res /\
    metric "test_loglik" res = Some (Fin L) /\
    metric "test_loglik_unnormalized" res = Some (Fin (L - ln 2)).
Proof.
  assert (Hv : valid_input Point 1 1 (array2 [[1]]) (array2 [[1]]) (array2 [[1]]))
    by (apply valid_point_unit; lra).
  split; [exact Hv|]. split; [lra|].
  apply (unnormalized_loglik_is_shifted Point 1 1 _ _ _ (scalar 2) 2 Hv eq_refl eq_refl
           ltac:(lra) ltac:(lia) ltac:(lia)).
  intros idx Hidx. rewrite (unit_index idx Hidx).
  unfold densities. simpl. constructor; [|constructor].
  rewrite logpdf_elem_standard. eexists. split; [reflexivity|].
  split; [exact standard_density_in_range | exact halved_standard_density_in_range].
Defined.
